(** * t5qg: the T5 question-generation pipeline ([t5qg/lm_t5.py])

    A shallow embedding of the encoder ([EncodePlus]), the batch loader
    ([T5.get_data_loader]), the generation drivers ([T5.generate_prediction],
    [generate_a], [generate_q], [generate_qa]) and the label-smoothed loss.

    Conventions.
    - A Python [str] is a [string]; Python ints are [Z]; [None]-able values
      are [option]s; a [dict] is a [gmap].
    - A raised exception is a value of [exn]; fallible code returns [result].
    - The tokenizer, the network and the sentence splitter are external
      collaborators: they are fields of records the pipeline is run with.
    - The file system is a collaborator as well: a disk and what the calls
      of [os] and [pickle] do on it.
    - The value of the loss is a real number, an infinity or NaN; rounding
      is not modelled. *)

From Stdlib Require Import Ascii Reals Lra.
From stdpp Require Import gmap strings list fin_maps.

Local Open Scope Z_scope.

(** ** Python string primitives *)

Module Str.

Definition len (s : string) : Z := Z.of_nat (String.length s).

(** [s[:n]] and [s[n:]] for a non-negative [n]. *)
Fixpoint take (n : nat) (s : string) : string :=
  match n, s with
  | S n', String c s' => String c (take n' s')
  | _, _ => ""
  end.

Fixpoint drop (n : nat) (s : string) : string :=
  match n, s with
  | S n', String _ s' => drop n' s'
  | _, _ => s
  end.

(** [s.startswith(p)] *)
Fixpoint startswith (s p : string) : bool :=
  match p, s with
  | "", _ => true
  | String a p', String b s' => if decide (a = b) then startswith s' p' else false
  | String _ _, "" => false
  end.

(** [s.find(sub)] counted from offset [i]: lowest index of an occurrence,
    [-1] when there is none. *)
Fixpoint find_from (i : Z) (s sub : string) : Z :=
  if startswith s sub then i
  else match s with
       | "" => -1
       | String _ s' => find_from (i + 1) s' sub
       end.

Definition find (s sub : string) : Z := find_from 0 s sub.

(** [sub in s] *)
Fixpoint contains (s sub : string) : bool :=
  startswith s sub ||
  match s with
  | "" => false
  | String _ s' => contains s' sub
  end.

(** [sub] is a literal substring of [s]. *)
Definition substring_of (sub s : string) : Prop :=
  ∃ pre post, s = pre +:+ sub +:+ post.

End Str.

(** ** Exceptions and outcomes *)

(** Modelled from the spec: the exception classes of [t5qg/exceptions.py],
    which is not among the sources. The error taxonomy gives
    [HighlightNotFound(span, context)], [ExceedMaxLength(limit)] and
    [AnswerNotFound(context)], which are the arguments the call sites pass.
    The other constructors are the built-in exceptions the pipeline can
    raise. *)
Inductive exn : Type :=
  | HighlightNotFoundError (input_highlight input_sequence : string)
  | ExceedMaxLengthError (max_length : Z)
  | AnswerNotFoundError (context : string)
  | AssertionError
  | ValueError (msg : string)
  | FileNotFoundError (path : string)
  | FileExistsError (path : string)
  | IsADirectoryError (path : string)
  | NotADirectoryError (path : string)
  | RuntimeError (msg : string).

Inductive result (A : Type) : Type :=
  | Ok (a : A)
  | Raise (e : exn).
Arguments Ok {A} a.
Arguments Raise {A} e.

(** Code that reads and writes a store of type [S] and may raise. The store
    is returned also when an exception escapes: what was written before the
    [raise] stays written. *)
Definition M (S A : Type) : Type := S → result A * S.

Definition ret {S A} (a : A) : M S A := λ s, (Ok a, s).
Definition raise {S A} (e : exn) : M S A := λ s, (Raise e, s).
Definition lift {S A} (r : result A) : M S A := λ s, (r, s).
Definition bind {S A B} (m : M S A) (k : A → M S B) : M S B :=
  λ s, match m s with
       | (Ok a, s') => k a s'
       | (Raise e, s') => (Raise e, s')
       end.
Definition get {S} : M S S := λ s, (Ok s, s).
Definition put {S} (s : S) : M S () := λ _, (Ok (), s).

Notation "'let*' x := m 'in' k" := (bind m (λ x, k))
  (at level 10, x name, m at level 100, k at level 200).

(** [assert c] *)
Definition assert {S} (c : bool) : M S () :=
  if c then ret () else raise AssertionError.

(** ** Module constants *)

Definition CE_IGNORE_INDEX : Z := -100.

Inductive task : Type := ans_ext | e2e_qg | qa | qg.

Global Instance task_eq_dec : EqDecision task.
Proof. solve_decision. Defined.

Definition TASK_PREFIX (t : task) : string :=
  match t with
  | ans_ext => "extract answers"
  | e2e_qg => "generate questions"
  | qa => "question"
  | qg => "generate question"
  end.

(** [ADDITIONAL_SP_TOKENS['hl']] *)
Definition ADDITIONAL_SP_TOKENS_hl : string := "<hl>".

(** ** The tokenizer *)

(** Keyword arguments of [tokenizer.encode] and [tokenizer.encode_plus]:
    [truncation], [max_length], and [padding] ([true] for
    [padding='max_length'], [false] when the key is absent). *)
Record kwargs : Type := Kwargs {
  truncation : bool;
  kw_max_length : option Z;
  padding_max_length : bool
}.

Definition no_kwargs : kwargs := Kwargs false None false.

(** An encoded example: the dict [encode_plus] returns, field name to ids. *)
Abbreviation Encoded := (gmap string (list Z)).

(** The tokenizer is an external collaborator. [tok_encode_plus] gives the
    [input_ids] and the [attention_mask]; [tok_batch_decode] is
    [batch_decode(_, skip_special_tokens=True)]. *)
Record Tokenizer : Type := {
  tok_encode : string → kwargs → list Z;
  tok_encode_plus : string → kwargs → list Z * list Z;
  tok_batch_decode : list (list Z) → list string
}.

Definition BatchEncoding (e : list Z * list Z) : Encoded :=
  <["attention_mask" := e.2]> (<["input_ids" := e.1]> ∅).

(** ** [class EncodePlus] *)

Module EncodePlus.

(** The attributes [__init__] stores. [task_prefix] ranges over the keys
    of [TASK_PREFIX], which is what the constructor asserts. *)
Record t : Type := {
  tokenizer : Tokenizer;
  max_length : Z;
  max_length_output : Z;
  drop_overflow_text : bool;
  skip_overflow_error : bool;
  skip_highlight_error : bool;
  task_prefix : option task;
  padding : bool
}.

Definition param_in (self : t) : kwargs :=
  Kwargs true (Some (max_length self)) (padding self).

Definition param_out (self : t) : kwargs :=
  Kwargs true (Some (max_length_output self)) (padding self).

(** ['{0}{1} {2} {1}{3}'.format(input_sequence[:position], hl,
    input_highlight, input_sequence[position+len(input_highlight):])] *)
Definition highlighted (input_sequence input_highlight : string)
    (position : Z) : string :=
  Str.take (Z.to_nat position) input_sequence
  +:+ ADDITIONAL_SP_TOKENS_hl +:+ " " +:+ input_highlight +:+ " "
  +:+ ADDITIONAL_SP_TOKENS_hl
  +:+ Str.drop (Z.to_nat (position + Str.len input_highlight)) input_sequence.

(** The highlighter, lines 163-171: [None] stands for [position == -1]. *)
Definition add_highlight (input_sequence input_highlight : string)
    : option string :=
  let position := Str.find input_sequence input_highlight in
  if decide (position = -1) then None
  else Some (highlighted input_sequence input_highlight position).

(** Lines 173-174: ['{}: {}'.format(TASK_PREFIX[task_prefix], input)]. *)
Definition add_prefix (self : t) (input_sequence : string) : string :=
  match task_prefix self with
  | Some p => TASK_PREFIX p +:+ ": " +:+ input_sequence
  | None => input_sequence
  end.

Definition token_count (self : t) (text : string) : Z :=
  Z.of_nat (length (tok_encode (tokenizer self) text no_kwargs)).

(** Lines 187-190. *)
Definition tokenize (self : t) (input_sequence : string)
    (output_sequence : option string) : Encoded :=
  let encode :=
    BatchEncoding (tok_encode_plus (tokenizer self) input_sequence (param_in self)) in
  match output_sequence with
  | Some o => <["labels" := tok_encode (tokenizer self) o (param_out self)]> encode
  | None => encode
  end.

(** Lines 176-190: the overflow checks, then the encoding. *)
Definition check_and_tokenize (self : t) (input_sequence : string)
    (output_sequence : option string) : result (option Encoded) :=
  if drop_overflow_text self || negb (skip_overflow_error self) then
    if bool_decide (token_count self input_sequence > max_length self) then
      if drop_overflow_text self then Ok None
      else Raise (ExceedMaxLengthError (max_length self))
    else
      match output_sequence with
      | Some o =>
          if bool_decide (token_count self o > max_length_output self) then
            if drop_overflow_text self then Ok None
            else Raise (ExceedMaxLengthError (max_length self))
          else Ok (Some (tokenize self input_sequence output_sequence))
      | None => Ok (Some (tokenize self input_sequence output_sequence))
      end
  else Ok (Some (tokenize self input_sequence output_sequence)).

Definition encode_plus (self : t) (input_sequence : string)
    (output_sequence input_highlight : option string)
    : result (option Encoded) :=
  match input_highlight with
  | Some h =>
      match add_highlight input_sequence h with
      | None =>
          if skip_highlight_error self then Ok None
          else Raise (HighlightNotFoundError h input_sequence)
      | Some input_sequence' =>
          check_and_tokenize self (add_prefix self input_sequence') output_sequence
      end
  | None =>
      check_and_tokenize self (add_prefix self input_sequence) output_sequence
  end.

(** [__call__]: the tuple is [(input, output)] or [(input, output,
    highlight)]; a missing third component is the default [None]. *)
Definition call (self : t) (inputs : string * option string * option string)
    : result (option Encoded) :=
  let '(i, o, h) := inputs in encode_plus self i o h.

End EncodePlus.

(** ** The file system, [os] and [pickle] *)

(** The file system is a collaborator too. The pipeline makes four calls on
    it, and nothing is assumed here about what they do: [FS] packs a disk
    (the state the calls act on) with the behaviour of the calls on it.
    - [path_exists] is [os.path.exists];
    - [mkdirs d] is [os.makedirs(d, exist_ok=True)];
    - [dump obj path] is [open(path, "wb")] followed by [pickle.dump];
    - [load path] is [open(path, "rb")] followed by [pickle.load].
    What a statement needs of the calls is a hypothesis of that statement. *)
Record FS : Type := {
  disk : Type;
  now : disk;
  path_exists : disk → string → bool;
  mkdirs : string → M disk ();
  dump : list Encoded → string → M disk ();
  load : string → M disk (list Encoded)
}.

(** The same file system with its disk in state [d]. *)
Definition on_disk (fs : FS) (d : disk fs) : FS := {|
  disk := disk fs;
  now := d;
  path_exists := path_exists fs;
  mkdirs := mkdirs fs;
  dump := dump fs;
  load := load fs
|}.

(** A call on the disk, as a step of the pipeline. *)
Definition syscall {A} (call : ∀ fs : FS, M (disk fs) A) : M FS A :=
  λ fs, ((call fs (now fs)).1, on_disk fs (call fs (now fs)).2).

Module os.

Definition is_sep (c : Ascii.ascii) : bool := bool_decide (c = "/"%char).

Fixpoint all_sep (p : string) : bool :=
  match p with
  | "" => true
  | String c p' => is_sep c && all_sep p'
  end.

(** [p[:p.rfind('/') + 1]] *)
Fixpoint upto_last_sep (p : string) : string :=
  match p with
  | "" => ""
  | String c p' =>
      match upto_last_sep p' with
      | "" => if is_sep c then "/" else ""
      | h => String c h
      end
  end.

(** [p.rstrip('/')] *)
Fixpoint rstrip_sep (p : string) : string :=
  match p with
  | "" => ""
  | String c p' =>
      match rstrip_sep p' with
      | "" => if is_sep c then "" else String c ""
      | r => String c r
      end
  end.

(** [os.path.dirname] (posixpath). *)
Definition dirname (p : string) : string :=
  let head := upto_last_sep p in
  if bool_decide (head ≠ "") && negb (all_sep head) then rstrip_sep head
  else head.

(** [os.path.exists] *)
Definition exists_ (fs : FS) (p : string) : bool :=
  path_exists fs (now fs) p.

(** [os.makedirs(d, exist_ok=True)] *)
Definition makedirs (d : string) : M FS () :=
  syscall (λ fs, mkdirs fs d).

End os.

(** [pickle_save]: [open(path, "wb")] then [pickle.dump]. *)
Definition pickle_save (obj : list Encoded) (path : string) : M FS () :=
  syscall (λ fs, dump fs obj path).

(** [pickle_load]: [open(path, "rb")] then [pickle.load]. *)
Definition pickle_load (path : string) : M FS (list Encoded) :=
  syscall (λ fs, load fs path).

(** ** [torch.utils.data.DataLoader] over [Dataset(out)] *)

Fixpoint chunks_fuel {A} (fuel n : nat) (l : list A) : list (list A) :=
  match fuel, l with
  | S fuel', _ :: _ => take n l :: chunks_fuel fuel' n (drop n l)
  | _, _ => []
  end.

Definition chunks {A} (n : nat) (l : list A) : list (list A) :=
  chunks_fuel (length l) n l.

(** The batches of a sequential (unshuffled) loader, in the order it yields
    them. A batch is the list of its examples. A batch size that is not
    positive is refused when the loader is constructed. *)
Definition DataLoader (dataset : list Encoded) (batch_size : Z)
    (drop_last : bool) : result (list (list Encoded)) :=
  if bool_decide (batch_size ≤ 0) then
    Raise (ValueError "batch_size should be a positive integer value")
  else
    let batches := chunks (Z.to_nat batch_size) dataset in
    Ok (if drop_last
        then filter (λ b, length b = Z.to_nat batch_size) batches
        else batches).

(** The loop [for i in data: out.append(f(i))]: the first exception escapes. *)
Fixpoint for_each {A B} (f : A → result B) (l : list A) : result (list B) :=
  match l with
  | [] => Ok []
  | x :: l' =>
      match f x with
      | Raise e => Raise e
      | Ok y =>
          match for_each f l' with
          | Raise e => Raise e
          | Ok ys => Ok (y :: ys)
          end
      end
  end.

(** Python truthiness, as [filter(None, _)] tests it: a string or a dict is
    falsy when empty. *)
Class Truth (A : Type) : Type := truth : A → bool.
Global Instance truth_string : Truth string := λ s, negb (bool_decide (s = "")).
Global Instance truth_dict : Truth Encoded := λ e, negb (bool_decide (e = ∅)).

(** [list(filter(None, out))]: drops [None] and the falsy elements. *)
Definition filter_None {A} `{Truth A} (out : list (option A)) : list A :=
  omap (λ o, match o with
             | Some a => if truth a then Some a else None
             | None => None
             end) out.

(** ** Tensors *)

Module torch.

(** An integer tensor is a handle on a storage of the heap together with
    a shape; a view shares the storage of the tensor it was taken from,
    so an in-place operation on either is seen through both. *)
Record Tensor : Type := {
  storage : nat;
  shape : list nat
}.

Abbreviation heap := (gmap nat (list Z)).

Definition dim (x : Tensor) : nat := length (shape x).

(** [x.unsqueeze(-1)]: a view with a trailing dimension of size one. *)
Definition unsqueeze (x : Tensor) : Tensor :=
  {| storage := storage x; shape := shape x ++ [1%nat] |}.

(** The elements of [x], in row-major order. *)
Definition values (x : Tensor) : M heap (list Z) :=
  let* h := get in
  match h !! storage x with
  | Some d => ret d
  | None => raise (RuntimeError "tensor without storage")
  end.

(** [x.clamp_min_(m)], in place. *)
Definition clamp_min_ (x : Tensor) (m : Z) : M heap () :=
  let* h := get in put (alter (fmap (Z.max m)) (storage x) h).

(** A float tensor of shape [lead ++ [vocab]], given by its rows along
    the last axis in row-major order. *)
Record FloatTensor : Type := {
  lead : list nat;
  vocab : nat;
  rows : list (list R)
}.

(** The value of a scalar float tensor: a real number, an infinity or NaN.
    Rounding is not modelled. *)
Inductive float : Type :=
  | Finite (x : R)
  | Inf (negative : bool)
  | NaN.

Definition is_negative (x : R) : bool := if Rlt_dec x 0 then true else false.

(** [x / d], of a float tensor by an integer tensor. *)
Definition div (x : R) (d : Z) : float :=
  if bool_decide (d = 0) then
    if Req_dec_T x 0 then NaN else Inf (is_negative x)
  else Finite (x / IZR d).

(** [c * y], of a Python float by a tensor. *)
Definition mul (c : R) (y : float) : float :=
  match y with
  | Finite y => Finite (c * y)
  | Inf negative =>
      if Req_dec_T c 0 then NaN else Inf (xorb negative (is_negative c))
  | NaN => NaN
  end.

(** [x + y] *)
Definition add (x y : float) : float :=
  match x, y with
  | Finite x, Finite y => Finite (x + y)
  | NaN, _ | _, NaN => NaN
  | Inf a, Inf b => if bool_decide (a = b) then Inf a else NaN
  | Inf a, Finite _ | Finite _, Inf a => Inf a
  end.

Definition Rsum (l : list R) : R := foldr Rplus 0%R l.

(** [functional.log_softmax(_, dim=-1)] on one row. *)
Definition log_softmax (row : list R) : list R :=
  let lse := ln (Rsum (exp <$> row)) in
  (λ x, (x - lse)%R) <$> row.

(** The number of elements of a tensor of shape [shape]. *)
Definition numel (shape : list nat) : nat := foldr Nat.mul 1%nat shape.

(** The multi-index of the element at position [p] of the row-major order
    of a tensor of shape [shape], and the position of a multi-index. *)
Fixpoint unravel (shape : list nat) (p : nat) : list nat :=
  match shape with
  | [] => []
  | _ :: shape' =>
      (p / numel shape')%nat :: unravel shape' (p mod numel shape')
  end.

Fixpoint ravel (shape index : list nat) : nat :=
  match shape, index with
  | _ :: shape', i :: index' => (i * numel shape' + ravel shape' index')%nat
  | _, _ => 0%nat
  end.

(** [input.gather(dim=-1, index)]. The index has as many dimensions as
    the input and, but for the last one, none is larger than the input's;
    the result has the shape of the index, and its element at
    [(i1, .., ik, j)] is the element [index[i1, .., ik, j]] of the row
    [(i1, .., ik)] of the input. An index outside the row is an error. *)
Definition gather (input : FloatTensor) (index_shape : list nat)
    (index : list Z) : result (list R) :=
  let k := length (lead input) in
  if bool_decide (length index_shape = S k ∧
                  Forall2 le (take k index_shape) (lead input))
  then
    for_each (λ pi : nat * Z,
                let row := ravel (lead input) (take k (unravel index_shape pi.1)) in
                match (if bool_decide (0 ≤ pi.2)
                       then rows input !! row ≫= (λ r, r !! Z.to_nat pi.2)
                       else None) with
                | Some x => Ok x
                | None => Raise (RuntimeError "index out of bounds")
                end) (zip (seq 0 (length index)) index)
  else Raise (RuntimeError "shape mismatch").

(** [x.masked_fill_(mask, v)] for [x] of shape [shape]. The mask is
    broadcast to the shape of [x]: counted from the last one, a dimension
    of the mask is that of [x] or one, and the dimensions it lacks count
    as one; along a dimension of size one the mask is repeated. *)
Definition masked_fill (shape : list nat) (x : list R)
    (mask_shape : list nat) (mask : list bool) (v : R) : result (list R) :=
  let ms := replicate (length shape - length mask_shape) 1%nat ++ mask_shape in
  if bool_decide ((length mask_shape ≤ length shape)%nat ∧
                  Forall2 (λ m d : nat, m = d ∨ m = 1%nat) ms shape)
  then
    Ok (imap (λ p xi,
                let at_mask :=
                  zip_with (λ i m : nat, if bool_decide (m = 1%nat) then 0%nat else i)
                    (unravel shape p) ms in
                if default false (mask !! ravel ms at_mask) then v else xi) x)
  else Raise (RuntimeError "shape mismatch").

(** [mask.long().sum()] *)
Definition count_true (mask : list bool) : Z :=
  foldr (λ (b : bool) n, (if b then 1 else 0) + n) 0 mask.

End torch.

(** ** [label_smoothed_loss] *)

Section loss.
Import torch.
Local Open Scope R_scope.

Definition label_smoothed_loss (logits : FloatTensor) (labels : Tensor)
    (epsilon : R) : M heap float :=
  let log_probs :=
    {| lead := lead logits; vocab := vocab logits;
       rows := (λ row, Ropp <$> log_softmax row) <$> rows logits |} in
  let labels :=
    if decide (dim labels = length (lead logits)) then unsqueeze labels
    else labels in
  let* ids := values labels in
  let padding_mask := (λ l, bool_decide (l = CE_IGNORE_INDEX)) <$> ids in
  let* _ := clamp_min_ labels 0 in
  let* index := values labels in
  let* nll_loss := lift (gather log_probs (shape labels) index) in
  let smoothed_loss := Rsum <$> rows log_probs in
  let* nll_loss :=
    lift (masked_fill (shape labels) nll_loss (shape labels) padding_mask 0) in
  let* smoothed_loss :=
    lift (masked_fill (lead logits ++ [1%nat]) smoothed_loss
            (shape labels) padding_mask 0) in
  let num_active_elements :=
    (Z.of_nat (length padding_mask) - count_true padding_mask)%Z in
  let nll_loss := div (Rsum nll_loss) num_active_elements in
  let smoothed_loss :=
    div (Rsum smoothed_loss)
      (num_active_elements * Z.of_nat (vocab logits)) in
  ret (add (mul (1 - epsilon) nll_loss) (mul epsilon smoothed_loss)).

End loss.

(** ** [class T5] *)

Module T5.

(** The attributes of a loaded model, on a single device
    ([self.parallel] is [False]). [generate batch max_length num_beams] is
    [model.generate] on a collated batch; [forward] is the call
    [self.model(_)] of [encode_to_loss], on the shapes and elements of the
    tensors of the batch, giving [output['loss']] and [output['logits']].
    The sentence splitter is the collaborator [sentence_split.SentSplit]. *)
Record t : Type := {
  tokenizer : Tokenizer;
  generate : list Encoded → Z → Z → list (list Z);
  forward : gmap string (list nat * list Z) → torch.float * torch.FloatTensor;
  max_length : Z;
  max_length_output : Z;
  label_smoothing : option R;
  no_prefix : bool;
  sentence_splitter : string → list string
}.

(** [re.sub(r'\A\s*', '', string)]. A character is a code point below
    256; [\s] matches the Unicode white space among them. *)
Definition isspace (c : ascii) : bool :=
  let n := nat_of_ascii c in
  bool_decide (n ∈ [9; 10; 11; 12; 13; 28; 29; 30; 31; 32; 133; 160]%nat).

Fixpoint strip_leading (s : string) : string :=
  match s with
  | String c s' => if isspace c then strip_leading s' else s
  | "" => ""
  end.

(** [re.sub(r'\s*\Z', '', string)] *)
Fixpoint strip_trailing (s : string) : string :=
  match s with
  | String c s' =>
      match strip_trailing s' with
      | "" => if isspace c then "" else String c ""
      | r => String c r
      end
  | "" => ""
  end.

(** The local function [clean] of [generate_a]. *)
Definition clean (string : String.string) : option String.string :=
  let string := strip_leading string in
  let string := strip_trailing string in
  if bool_decide (Str.len string > 0) then Some string else None.

(** The [else] branch of the cache test in [get_data_loader], lines
    446-473: encode every tuple, drop the [None]s, write the cache. *)
Definition encode_and_cache (self : t)
    (data : list (string * option string * option string))
    (task_prefix : option task) (cache_path : option string)
    (drop_overflow_text skip_overflow_error skip_highlight_error : bool)
    : M FS (list Encoded) :=
  let f := {|
    EncodePlus.tokenizer := tokenizer self;
    EncodePlus.max_length := max_length self;
    EncodePlus.max_length_output := max_length_output self;
    EncodePlus.drop_overflow_text := drop_overflow_text;
    EncodePlus.skip_overflow_error := skip_overflow_error;
    EncodePlus.skip_highlight_error := skip_highlight_error;
    EncodePlus.task_prefix := task_prefix;
    EncodePlus.padding := negb (bool_decide (length data = 1%nat))
  |} in
  let* out := lift (for_each (EncodePlus.call f) data) in
  let out := filter_None out in
  let* _ :=
    match cache_path with
    | Some p =>
        let* _ := os.makedirs (os.dirname p) in
        pickle_save out p
    | None => ret ()
    end in
  ret out.

(** [get_data_loader], with [shuffle=False] and the encoding done in the
    calling process ([parallel=False]); the result is the list of batches
    the loader yields. *)
Definition get_data_loader (self : t) (inputs : list string)
    (outputs : option (list string))
    (highlights : option (list (option string)))
    (task_prefix : option task) (batch_size : option Z) (drop_last : bool)
    (cache_path : option string)
    (drop_overflow_text skip_overflow_error skip_highlight_error : bool)
    : M FS (list (list Encoded)) :=
  let* data :=
    match outputs with
    | Some outputs =>
        let* _ := assert (bool_decide (length outputs = length inputs)) in
        ret (zip inputs (Some <$> outputs))
    | None => ret ((λ i, (i, None)) <$> inputs)
    end in
  let* data :=
    match highlights with
    | Some highlights =>
        let* _ := assert (bool_decide (length highlights = length inputs)) in
        ret (zip data highlights)
    | None => ret ((λ d, (d, None)) <$> data)
    end in
  let* task_prefix :=
    if no_prefix self && bool_decide (is_Some task_prefix) then
      if decide (task_prefix = Some qg) then ret None
      else raise (ValueError "model is not trained with prefix")
    else ret task_prefix in
  let* fs := get in
  let* out :=
    match cache_path with
    | Some p =>
        if os.exists_ fs p then pickle_load p
        else encode_and_cache self data task_prefix cache_path
               drop_overflow_text skip_overflow_error skip_highlight_error
    | None =>
        encode_and_cache self data task_prefix cache_path
          drop_overflow_text skip_overflow_error skip_highlight_error
    end in
  let batch_size := default (Z.of_nat (length out)) batch_size in
  lift (DataLoader out batch_size drop_last).

Definition generate_prediction (self : t) (list_context : list string)
    (list_highlight : option (list (option string))) (task_type : task)
    (drop_overflow_text skip_overflow_error skip_highlight_error : bool)
    (batch_size : option Z) (num_beams : Z) (cache_path : option string)
    : M FS (list string) :=
  let* loader :=
    get_data_loader self list_context None list_highlight (Some task_type)
      batch_size false cache_path
      drop_overflow_text skip_overflow_error skip_highlight_error in
  ret (concat ((λ encode,
                  let tensor := generate self encode (max_length_output self) num_beams in
                  tok_batch_decode (tokenizer self) tensor) <$> loader)).

Definition generate_a (self : t) (context : string)
    (drop_overflow_text skip_overflow_error : bool)
    (batch_size : option Z) (num_beams : Z) (cache_path : option string)
    : M FS (list string) :=
  let* _ := assert (negb (no_prefix self)) in
  let list_sentence := clean <$> sentence_splitter self context in
  let list_context := replicate (length list_sentence) context in
  let* out :=
    generate_prediction self list_context (Some list_sentence) ans_ext
      drop_overflow_text skip_overflow_error false
      batch_size num_beams cache_path in
  let out := clean <$> out in
  let out := filter_None out in
  let out := filter (λ x, Str.contains context x = true) out in
  if bool_decide (length out = 0%nat) then raise (AnswerNotFoundError context)
  else ret out.

Definition generate_q (self : t) (list_context : list string)
    (list_answer : option (list string))
    (drop_overflow_text skip_overflow_error : bool)
    (batch_size : option Z) (num_beams : Z) (cache_path : option string)
    : M FS (list string) :=
  generate_prediction self list_context
    ((λ l : list string, Some <$> l) <$> list_answer) qg
    drop_overflow_text skip_overflow_error false
    batch_size num_beams cache_path.

Definition generate_qa (self : t) (context : string)
    (drop_overflow_text skip_overflow_error : bool)
    (batch_size : option Z) (num_beams : Z) (cache_path : option string)
    : M FS (list (string * string)) :=
  let* list_answer :=
    generate_a self context drop_overflow_text skip_overflow_error
      batch_size num_beams cache_path in
  let list_context := replicate (length list_answer) context in
  let* list_question :=
    generate_q self list_context (Some list_answer)
      drop_overflow_text skip_overflow_error batch_size num_beams cache_path in
  let* _ := assert (bool_decide (length list_answer = length list_question)) in
  ret (zip list_question list_answer).

(** [encode_to_loss]: the batch is a dict of tensors. *)
Definition encode_to_loss (self : t) (encode : gmap string torch.Tensor)
    : M torch.heap torch.float :=
  let* _ := assert (bool_decide (is_Some (encode !! "labels"))) in
  let* h := get in
  let output :=
    forward self ((λ x, (torch.shape x, default [] (h !! torch.storage x)))
                    <$> encode) in
  match label_smoothing self with
  | None => ret output.1
  | Some eps =>
      if Req_dec_T eps 0 then ret output.1
      else
        match encode !! "labels" with
        | Some labels => label_smoothed_loss output.2 labels eps
        | None => raise AssertionError
        end
  end.

End T5.

(** ** Vocabulary of the statements *)

(** Deleting every occurrence of [marker] from [s], scanning from the left
    ([s.replace(marker, '')] for a non-empty [marker]). *)
Fixpoint delete_all_go (marker : string) (skip : nat) (s : string) : string :=
  match s with
  | "" => ""
  | String c s' =>
      match skip with
      | S k => delete_all_go marker k s'
      | O =>
          if Str.startswith s marker
          then delete_all_go marker (String.length marker - 1) s'
          else String c (delete_all_go marker O s')
      end
  end.

(** Removing the marker tokens from a highlighted text. *)
Definition remove_markers (s : string) : string :=
  delete_all_go ADDITIONAL_SP_TOKENS_hl O s.

(** The text [encode_plus] hands to the tokenizer: the input after the
    highlighter and the task prefix; [None] when the span is not found. *)
Definition prepared (self : EncodePlus.t) (input_sequence : string)
    (input_highlight : option string) : option string :=
  match input_highlight with
  | Some h =>
      EncodePlus.add_prefix self <$> EncodePlus.add_highlight input_sequence h
  | None => Some (EncodePlus.add_prefix self input_sequence)
  end.

(** Trimming the white space at both ends. *)
Definition strip (s : string) : string :=
  T5.strip_trailing (T5.strip_leading s).

Fixpoint all_space (s : string) : bool :=
  match s with
  | "" => true
  | String c s' => T5.isspace c && all_space s'
  end.

(** No cache is loaded: no path is given, or nothing exists at the path. *)
Definition cache_miss (fs : FS) (cache_path : option string) : Prop :=
  match cache_path with
  | Some p => os.exists_ fs p = false
  | None => True
  end.

(** The encoding requests of the answer-extraction stage: the tuples
    [generate_a] has [get_data_loader] encode, one per sentence. *)
Definition ans_ext_requests (self : T5.t) (context : string)
    : list (string * option string * option string) :=
  (λ sentence, (context, None, T5.clean sentence))
    <$> T5.sentence_splitter self context.

(** Lines 379-387 of [generate_prediction]: the generation loop over the
    batches of a loader. *)
Definition decode_batches (self : T5.t) (num_beams : Z)
    (loader : list (list Encoded)) : list string :=
  concat ((λ encode,
             tok_batch_decode (T5.tokenizer self)
               (T5.generate self encode (T5.max_length_output self) num_beams))
          <$> loader).

(** Lines 305-310 of [generate_a], on the outputs of the generation loop. *)
Definition keep_answers {S} (context : string) (out : list string)
    : M S (list string) :=
  let out := filter (λ x, Str.contains context x = true)
               (filter_None (T5.clean <$> out)) in
  if bool_decide (length out = 0%nat) then raise (AnswerNotFoundError context)
  else ret out.

(** The tuples [get_data_loader] builds from its three lists, lines
    426-434, when their lengths agree. *)
Definition loader_data (inputs : list string) (outputs : option (list string))
    (highlights : option (list (option string)))
    : list (string * option string * option string) :=
  let data :=
    match outputs with
    | Some outputs => zip inputs (Some <$> outputs)
    | None => (λ i, (i, None)) <$> inputs
    end in
  match highlights with
  | Some highlights => zip data highlights
  | None => (λ d, (d, None)) <$> data
  end.

(** The task prefix after lines 436-440, when they do not raise. *)
Definition loader_prefix (self : T5.t) (task_prefix : option task)
    : option task :=
  if T5.no_prefix self then None else task_prefix.

(** The arguments pass the assertions of lines 427 and 433 and the test of
    lines 436-440. *)
Definition args_ok (self : T5.t) (inputs : list string)
    (outputs : option (list string))
    (highlights : option (list (option string)))
    (task_prefix : option task) : Prop :=
  (∀ l, outputs = Some l → length l = length inputs) ∧
  (∀ l, highlights = Some l → length l = length inputs) ∧
  (T5.no_prefix self = true → task_prefix = None ∨ task_prefix = Some qg).

(** What a pickle file is for: once [obj] has been dumped at [path], the
    path exists, and loading it gives [obj] back and leaves the disk as it
    is. *)
Definition keeps_pickles (fs : FS) : Prop :=
  ∀ d obj path d',
    dump fs obj path d = (Ok (), d') →
    path_exists fs d' path = true ∧ load fs path d' = (Ok obj, d').

(** The loss as the documentation words it. [neg_log_probs] are the
    negative log-probabilities, one row per position; a position is active
    (not padded) when its label is not the ignore index. *)
Definition neg_log_probs (logits : torch.FloatTensor) : list (list R) :=
  (λ row, Ropp <$> torch.log_softmax row) <$> torch.rows logits.

Definition active_positions (logits : torch.FloatTensor) (ids : list Z)
    : list (list R * Z) :=
  filter (λ ri, ri.2 ≠ CE_IGNORE_INDEX) (zip (neg_log_probs logits) ids).

(** The sum over the active positions of the negative log-probability of
    the label, divided by their count. *)
Definition nll_spec (logits : torch.FloatTensor) (ids : list Z) : R :=
  (torch.Rsum ((λ ri : list R * Z, nth (Z.to_nat ri.2) ri.1 0%R)
                 <$> active_positions logits ids)
   / IZR (Z.of_nat (length (active_positions logits ids))))%R.

(** The sum over the active positions of the negative log-probabilities
    summed over the vocabulary, divided by their count times the size of
    the vocabulary. *)
Definition smoothed_spec (logits : torch.FloatTensor) (ids : list Z) : R :=
  (torch.Rsum ((λ ri : list R * Z, torch.Rsum ri.1)
                 <$> active_positions logits ids)
   / IZR (Z.of_nat (length (active_positions logits ids))
          * Z.of_nat (torch.vocab logits)))%R.

(** The labels are the ignore index or the index of a vocabulary entry. *)
Definition labels_ok (logits : torch.FloatTensor) (ids : list Z) : Prop :=
  Forall (λ l, l = CE_IGNORE_INDEX ∨ 0 ≤ l < Z.of_nat (torch.vocab logits)) ids.

(** The logits have as many rows as their shape says and one row per
    label, each as long as the vocabulary, which is not empty; the labels
    have the shape of the logits without the vocabulary axis, or that shape
    followed by a one. *)
Definition shapes_ok (logits : torch.FloatTensor) (labels : torch.Tensor)
    (ids : list Z) : Prop :=
  (torch.shape labels = torch.lead logits ∨
   torch.shape labels = torch.lead logits ++ [1%nat]) ∧
  torch.numel (torch.lead logits) = length (torch.rows logits) ∧
  length ids = length (torch.rows logits) ∧
  Forall (λ row, length row = torch.vocab logits) (torch.rows logits) ∧
  (0 < torch.vocab logits)%nat.

(** [gather] read row by row, for an index with one entry per row. *)
Definition gather_rows (input : list (list R)) (index : list Z)
    : result (list R) :=
  for_each (λ ri : list R * Z,
              match (if bool_decide (0 ≤ ri.2) then ri.1 !! Z.to_nat ri.2
                     else None) with
              | Some x => Ok x
              | None => Raise (RuntimeError "index out of bounds")
              end) (zip input index).

(** [masked_fill_] read element by element, for a mask of the shape of
    the tensor. *)
Definition fill (x : list R) (mask : list bool) (v : R) : list R :=
  zip_with (λ xi (b : bool), if b then v else xi) x mask.

(** [n] is the offset of the first occurrence of [sub] in [s]. *)
Definition first_occurrence (sub s : string) (n : nat) : Prop :=
  Str.startswith (Str.drop n s) sub = true ∧ (n ≤ String.length s)%nat ∧
  ∀ m, (m < n)%nat → Str.startswith (Str.drop m s) sub = false.

(** The input text or the target text is longer than its bound. *)
Definition overflows (self : EncodePlus.t) (text : string)
    (o : option string) : Prop :=
  EncodePlus.token_count self text > EncodePlus.max_length self ∨
  ∃ target, o = Some target ∧
    EncodePlus.token_count self target > EncodePlus.max_length_output self.

(** The last character is a separator. *)
Fixpoint ends_with_sep (p : string) : bool :=
  match p with
  | "" => false
  | String c "" => os.is_sep c
  | String _ p' => ends_with_sep p'
  end.

(** [labels.eq(CE_IGNORE_INDEX)] *)
Definition padding_mask_of (ids : list Z) : list bool :=
  (λ l, bool_decide (l = CE_IGNORE_INDEX)) <$> ids.

Definition result_map {A B} (f : A → B) (r : result A) : result B :=
  match r with
  | Ok a => Ok (f a)
  | Raise e => Raise e
  end.

(** ** A small tokenizer and model to run the pipeline on *)

Module Toy.

Fixpoint codes (s : string) : list Z :=
  match s with
  | "" => []
  | String c s' => Z.of_nat (nat_of_ascii c) :: codes s'
  end.

Fixpoint text (ids : list Z) : string :=
  match ids with
  | [] => ""
  | i :: ids' =>
      if bool_decide (i ≤ 1) then text ids'
      else String (ascii_of_nat (Z.to_nat i)) (text ids')
  end.

(** One id per character and a closing id [1]; truncation keeps the first
    [max_length] ids, padding appends [0]s up to [max_length]. *)
Definition fit (kw : kwargs) (ids : list Z) : list Z :=
  match kw_max_length kw with
  | Some n =>
      let ids := if truncation kw then take (Z.to_nat n) ids else ids in
      if padding_max_length kw
      then ids ++ replicate (Z.to_nat n - length ids) 0
      else ids
  | None => ids
  end.

Definition encode (s : string) (kw : kwargs) : list Z :=
  fit kw (codes s ++ [1]).

Definition encode_plus (s : string) (kw : kwargs) : list Z * list Z :=
  let ids := encode s kw in
  (ids, (λ i : Z, if bool_decide (i = 0) then 0 else 1) <$> ids).

Definition tokenizer : Tokenizer := {|
  tok_encode := encode;
  tok_encode_plus := encode_plus;
  tok_batch_decode := fmap text
|}.

Definition encoder (drop_overflow_text skip_overflow_error
    skip_highlight_error : bool) (task_prefix : option task)
    (max_length max_length_output : Z) : EncodePlus.t := {|
  EncodePlus.tokenizer := tokenizer;
  EncodePlus.max_length := max_length;
  EncodePlus.max_length_output := max_length_output;
  EncodePlus.drop_overflow_text := drop_overflow_text;
  EncodePlus.skip_overflow_error := skip_overflow_error;
  EncodePlus.skip_highlight_error := skip_highlight_error;
  EncodePlus.task_prefix := task_prefix;
  EncodePlus.padding := true
|}.

(** The encoding of a text without padding: what a loader makes of a
    single input. *)
Definition unpadded (text : string) (max_length max_length_output : Z)
    : Encoded :=
  EncodePlus.tokenize
    {| EncodePlus.tokenizer := tokenizer;
       EncodePlus.max_length := max_length;
       EncodePlus.max_length_output := max_length_output;
       EncodePlus.drop_overflow_text := false;
       EncodePlus.skip_overflow_error := false;
       EncodePlus.skip_highlight_error := false;
       EncodePlus.task_prefix := None;
       EncodePlus.padding := false |}
    text None.

(** The encoding of a single context for question generation. *)
Definition encoded_question (context : string)
    (max_length max_length_output : Z) : Encoded :=
  unpadded ("generate question: " +:+ context) max_length max_length_output.

(** A splitter that ends a sentence after every full stop. *)
Fixpoint sentences_go (acc s : string) : list string :=
  match s with
  | "" => if bool_decide (acc = "") then [] else [acc]
  | String c s' =>
      if bool_decide (c = "."%char) then (acc +:+ ".") :: sentences_go "" s'
      else sentences_go (acc +:+ String c "") s'
  end.

Definition sentences (s : string) : list string := sentences_go "" s.

(** A network that answers every example with the same sequence. *)
Definition constant_generate (answer : string)
    (batch : list Encoded) (max_length num_beams : Z) : list (list Z) :=
  (λ _, 0 :: codes answer ++ [1]) <$> batch.

Definition model (answer : string) (max_length max_length_output : Z) : T5.t := {|
  T5.tokenizer := tokenizer;
  T5.generate := constant_generate answer;
  T5.forward := λ _, (torch.Finite 0, {| torch.lead := []; torch.vocab := 0; torch.rows := [] |});
  T5.max_length := max_length;
  T5.max_length_output := max_length_output;
  T5.label_smoothing := None;
  T5.no_prefix := false;
  T5.sentence_splitter := sentences
|}.

(** A small file system to run the pipeline on: the pickle files and the
    directories, by path; paths are compared as strings. *)
Record Disk : Type := {
  files : gmap string (list Encoded);
  dirs : gset string
}.

Definition exists_ (d : Disk) (p : string) : bool :=
  bool_decide (is_Some (files d !! p)) || bool_decide (p ∈ dirs d).

(** The directory [d] and the directories above it, the current directory
    and the root left out. *)
Fixpoint chain (fuel : nat) (d : string) : list string :=
  match fuel with
  | O => []
  | S fuel' =>
      if bool_decide (d = "") || os.all_sep d then []
      else d :: chain fuel' (os.dirname d)
  end.

(** Creates [d] and the missing directories above it; fails on the empty
    path and when a file is in the way. *)
Definition makedirs (d : string) : M Disk () :=
  let* fs := get in
  if bool_decide (d = "") then raise (FileNotFoundError d)
  else
    let ds := chain (String.length d) d in
    match list_find (λ x, is_Some (files fs !! x)) ds with
    | Some (_, x) =>
        raise (if bool_decide (x = d) then FileExistsError d
               else NotADirectoryError d)
    | None => put {| files := files fs; dirs := list_to_set ds ∪ dirs fs |}
    end.

(** The directory an entry is created in exists. *)
Definition parent_exists (fs : Disk) (p : string) : bool :=
  let d := os.dirname p in
  bool_decide (d = "") || os.all_sep d || bool_decide (d ∈ dirs fs).

Definition save (obj : list Encoded) (path : string) : M Disk () :=
  let* fs := get in
  if ends_with_sep path || bool_decide (path ∈ dirs fs)
  then raise (IsADirectoryError path)
  else if negb (parent_exists fs path) then raise (FileNotFoundError path)
  else put {| files := <[path := obj]> (files fs); dirs := dirs fs |}.

Definition open_ (path : string) : M Disk (list Encoded) :=
  let* fs := get in
  match files fs !! path with
  | Some obj => ret obj
  | None =>
      if bool_decide (path ∈ dirs fs) then raise (IsADirectoryError path)
      else raise (FileNotFoundError path)
  end.

Definition file_system (d : Disk) : FS := {|
  disk := Disk;
  now := d;
  path_exists := exists_;
  mkdirs := makedirs;
  dump := save;
  load := open_
|}.

Definition empty_fs : FS := file_system {| files := ∅; dirs := ∅ |}.

(** A model of the BART family: trained without task prefixes. *)
Definition model_without_prefix (answer : string)
    (max_length max_length_output : Z) : T5.t := {|
  T5.tokenizer := tokenizer;
  T5.generate := constant_generate answer;
  T5.forward := λ _, (torch.Finite 0, {| torch.lead := []; torch.vocab := 0; torch.rows := [] |});
  T5.max_length := max_length;
  T5.max_length_output := max_length_output;
  T5.label_smoothing := None;
  T5.no_prefix := true;
  T5.sentence_splitter := sentences
|}.

(** A training batch of one sequence of two positions, the first one
    padded, over a vocabulary of three entries; the network answers it with
    uniform logits. *)
Definition labels : torch.Tensor := {| torch.storage := 0; torch.shape := [1; 2]%nat |}.

Definition batch : gmap string torch.Tensor :=
  {[ "input_ids" := {| torch.storage := 1; torch.shape := [1; 2]%nat |};
     "labels" := labels ]}.

Definition ids : list Z := [-100; 2].

Definition heap : torch.heap := {[ 0%nat := ids; 1%nat := [7; 8] ]}.

Definition logits : torch.FloatTensor :=
  {| torch.lead := [1; 2]%nat; torch.vocab := 3;
     torch.rows := [[0; 0; 0]; [0; 0; 0]]%R |}.

Definition trainable (epsilon : R) : T5.t := {|
  T5.tokenizer := tokenizer;
  T5.generate := constant_generate "";
  T5.forward := λ _, (torch.Finite 0, logits);
  T5.max_length := 512;
  T5.max_length_output := 32;
  T5.label_smoothing := Some epsilon;
  T5.no_prefix := false;
  T5.sentence_splitter := sentences
|}.

End Toy.

(** ** The endpoint of [app.py] *)

Module app.

(** [class ModelInput] *)
Record ModelInput : Type := {
  input_text : string;
  highlight : option string;
  num_beam : Z
}.

(** What a request ends with: the returned dict [{'qa': qa_list}], or the
    [HTTPException] raised. *)
Inductive outcome : Type :=
  | Response (qa : list (string * string))
  | HTTPException (status_code : Z) (detail : option string).

(** The body of the [try] of [process]; [None] stands for an exception,
    whichever it is: the handler [except Exception] does not look at it.
    The model is called with the default arguments of its methods, and
    [out[0]] raises on an empty list. *)
Definition attempt (qg_model : T5.t) (model_input : ModelInput)
    : FS → option (list (string * string)) * FS :=
  λ fs,
    match highlight model_input with
    | Some h =>
        if bool_decide (Str.len h = 0) then
          match T5.generate_qa qg_model (input_text model_input) false false
                  None (num_beam model_input) None fs with
          | (Ok qa_list, fs') => (Some qa_list, fs')
          | (Raise _, fs') => (None, fs')
          end
        else
          match T5.generate_q qg_model [input_text model_input] (Some [h])
                  false false None (num_beam model_input) None fs with
          | (Ok (q :: _), fs') => (Some [(q, h)], fs')
          | (Ok [], fs') => (None, fs')
          | (Raise _, fs') => (None, fs')
          end
    | None =>
        match T5.generate_qa qg_model (input_text model_input) false false
                None (num_beam model_input) None fs with
        | (Ok qa_list, fs') => (Some qa_list, fs')
        | (Raise _, fs') => (None, fs')
        end
    end.

(** [process], the handler of [/question_generation];
    [traceback.print_exc()] returns [None]. *)
Definition process (qg_model : T5.t) (model_input : ModelInput)
    : FS → outcome * FS :=
  λ fs,
    if bool_decide (Str.len (input_text model_input) = 0) then
      (HTTPException 404 (Some "Input text is empty string."), fs)
    else
      match attempt qg_model model_input fs with
      | (Some qa_list, fs') => (Response qa_list, fs')
      | (None, fs') => (HTTPException 404 None, fs')
      end.

End app.

(** ** More vocabulary *)

(** [m] leaves the store as it found it, whatever it returns. *)
Definition read_only {S A} (m : M S A) : Prop := ∀ s, (m s).2 = s.

(** The fields of an encoding made with or without a target text. *)
Definition fields_of (o : option string) : gset string :=
  match o with
  | Some _ => {[ "input_ids"; "attention_mask"; "labels" ]}
  | None => {[ "input_ids"; "attention_mask" ]}
  end.

(** The network and the tokenizer treat the examples of a batch one by
    one. *)
Definition per_example (self : T5.t) : Prop :=
  (∀ b1 b2 max_length num_beams,
     T5.generate self (b1 ++ b2) max_length num_beams =
     T5.generate self b1 max_length num_beams
     ++ T5.generate self b2 max_length num_beams) ∧
  (∀ t1 t2,
     tok_batch_decode (T5.tokenizer self) (t1 ++ t2) =
     tok_batch_decode (T5.tokenizer self) t1
     ++ tok_batch_decode (T5.tokenizer self) t2).

(** With [truncation=True] and [padding='max_length'] the tokenizer gives
    exactly [max_length] ids, and as many mask entries. *)
Definition pads_to_max_length (tok : Tokenizer) : Prop :=
  ∀ s n,
    length (tok_encode_plus tok s (Kwargs true (Some n) true)).1 = Z.to_nat n ∧
    length (tok_encode_plus tok s (Kwargs true (Some n) true)).2 = Z.to_nat n ∧
    length (tok_encode tok s (Kwargs true (Some n) true)) = Z.to_nat n.

(** The field [k] of [e], when there, has [n] entries. *)
Definition field_length (e : Encoded) (k : string) (n : nat) : Prop :=
  ∀ l, e !! k = Some l → length l = n.

(** * Proofs *)

Ltac unfold_M :=
  cbv beta iota zeta
    delta [keep_answers decode_batches bind ret assert get put lift raise].

(** A closed equation is settled by evaluating its two sides. *)
Ltac by_evaluation :=
  lazymatch goal with
  | |- @eq ?A _ ?b => vm_cast_no_check (@eq_refl A b)
  end.

Lemma run_eq {S A} (x : A * S) (r : A) (s : S) :
  x.1 = r → x.2 = s → x = (r, s).
Proof. destruct x. simpl. by intros -> ->. Qed.

(** ** Steps that leave the store alone *)

Lemma read_only_ret {S A} (a : A) : read_only (@ret S A a).
Proof. done. Qed.

Lemma read_only_raise {S A} e : read_only (@raise S A e).
Proof. done. Qed.

Lemma read_only_lift {S A} (r : result A) : read_only (@lift S A r).
Proof. done. Qed.

Lemma read_only_get {S} : read_only (@get S).
Proof. done. Qed.

Lemma read_only_assert {S} c : read_only (@assert S c).
Proof. by destruct c. Qed.

Lemma read_only_bind {S A B} (m : M S A) (k : A → M S B) :
  read_only m → (∀ a, read_only (k a)) → read_only (bind m k).
Proof.
  intros Hm Hk s. unfold bind. specialize (Hm s).
  destruct (m s) as [[a|e] s']; simpl in *; subst; [apply Hk | done].
Qed.

Lemma read_only_encode_and_cache (self : T5.t) data task_prefix
    (drop_overflow_text skip_overflow_error skip_highlight_error : bool) :
  read_only (T5.encode_and_cache self data task_prefix None
               drop_overflow_text skip_overflow_error skip_highlight_error).
Proof.
  unfold T5.encode_and_cache.
  apply read_only_bind; [apply read_only_lift|]. intros out.
  apply read_only_bind; [apply read_only_ret|]. intros _. apply read_only_ret.
Qed.

Lemma read_only_get_data_loader (self : T5.t) inputs outputs highlights
    task_prefix batch_size drop_last
    (drop_overflow_text skip_overflow_error skip_highlight_error : bool) :
  read_only (T5.get_data_loader self inputs outputs highlights task_prefix
               batch_size drop_last None drop_overflow_text
               skip_overflow_error skip_highlight_error).
Proof.
  unfold T5.get_data_loader.
  apply read_only_bind.
  { destruct outputs; [|apply read_only_ret].
    apply read_only_bind; [apply read_only_assert | intros; apply read_only_ret]. }
  intros data. apply read_only_bind.
  { destruct highlights; [|apply read_only_ret].
    apply read_only_bind; [apply read_only_assert | intros; apply read_only_ret]. }
  intros data'. apply read_only_bind.
  { destruct (_ && _); [|apply read_only_ret].
    destruct (decide _); [apply read_only_ret | apply read_only_raise]. }
  intros tp. apply read_only_bind; [apply read_only_get|]. intros fs.
  apply read_only_bind; [apply read_only_encode_and_cache|].
  intros out. apply read_only_lift.
Qed.

Lemma read_only_generate_prediction (self : T5.t) list_context list_highlight
    task_type (drop_overflow_text skip_overflow_error skip_highlight_error : bool)
    batch_size num_beams :
  read_only (T5.generate_prediction self list_context list_highlight task_type
               drop_overflow_text skip_overflow_error skip_highlight_error
               batch_size num_beams None).
Proof.
  unfold T5.generate_prediction.
  apply read_only_bind; [apply read_only_get_data_loader|].
  intros loader. apply read_only_ret.
Qed.

Lemma read_only_generate_a (self : T5.t) context
    (drop_overflow_text skip_overflow_error : bool) batch_size num_beams :
  read_only (T5.generate_a self context drop_overflow_text skip_overflow_error
               batch_size num_beams None).
Proof.
  unfold T5.generate_a.
  apply read_only_bind; [apply read_only_assert|]. intros _.
  apply read_only_bind; [apply read_only_generate_prediction|]. intros out.
  case_bool_decide; [apply read_only_raise | apply read_only_ret].
Qed.

Lemma read_only_generate_q (self : T5.t) list_context list_answer
    (drop_overflow_text skip_overflow_error : bool) batch_size num_beams :
  read_only (T5.generate_q self list_context list_answer drop_overflow_text
               skip_overflow_error batch_size num_beams None).
Proof. apply read_only_generate_prediction. Qed.

Lemma read_only_generate_qa (self : T5.t) context
    (drop_overflow_text skip_overflow_error : bool) batch_size num_beams :
  read_only (T5.generate_qa self context drop_overflow_text skip_overflow_error
               batch_size num_beams None).
Proof.
  unfold T5.generate_qa.
  apply read_only_bind; [apply read_only_generate_a|]. intros la.
  apply read_only_bind; [apply read_only_generate_q|]. intros lq.
  apply read_only_bind; [apply read_only_assert|]. intros _. apply read_only_ret.
Qed.

(** ** Facts about the string primitives *)

Section str_facts.
Import Str.
Local Arguments String.append !_ _ / : simpl nomatch.

Lemma take_drop_str n s : take n s +:+ drop n s = s.
Proof.
  revert s; induction n as [|n IH]; intros [|c s]; simpl; try done.
  by rewrite IH.
Qed.

Lemma drop_app_length s t : drop (String.length s) (s +:+ t) = t.
Proof. induction s as [|c s IH]; simpl; [done | by rewrite IH]. Qed.

Lemma drop_drop_str n m s : drop n (drop m s) = drop (m + n) s.
Proof.
  revert s; induction m as [|m IH]; intros s; simpl; [done|].
  destruct s as [|c s]; [by destruct n | apply IH].
Qed.

Lemma startswith_spec s p :
  startswith s p = true ↔ ∃ post, s = p +:+ post.
Proof.
  revert s; induction p as [|a p IH]; intros s; simpl.
  - split; [intros _; by exists s | by destruct s].
  - destruct s as [|b s]; simpl.
    + split; [done | intros [post Hp]; discriminate].
    + destruct (decide (a = b)) as [<-|Hab].
      * rewrite IH. split; intros [post Hp]; exists post.
        -- by rewrite Hp.
        -- by injection Hp.
      * split; [done | intros [post Hp]; injection Hp; congruence].
Qed.

Lemma startswith_drop s p :
  startswith s p = true → s = p +:+ drop (String.length p) s.
Proof.
  intros [post ->]%startswith_spec. by rewrite drop_app_length.
Qed.

Lemma substring_of_cons sub c s :
  substring_of sub (String c s) →
  startswith (String c s) sub = true ∨ substring_of sub s.
Proof.
  intros [[|a pre] [post Hs]]; simpl in Hs.
  - left. apply startswith_spec. by exists post.
  - right. injection Hs as -> ->. by exists pre, post.
Qed.

Lemma find_from_cons i c s sub :
  find_from i (String c s) sub =
  if startswith (String c s) sub then i else find_from (i + 1) s sub.
Proof. done. Qed.

Lemma contains_cons c s sub :
  contains (String c s) sub = startswith (String c s) sub || contains s sub.
Proof. done. Qed.

Lemma find_from_none i s sub :
  ¬ substring_of sub s → find_from i s sub = -1.
Proof.
  revert i; induction s as [|c s IH]; intros i Hn.
  - destruct sub as [|a sub]; simpl; [|done].
    exfalso. apply Hn. by exists "", "".
  - rewrite find_from_cons.
    destruct (startswith (String c s) sub) eqn:Hsw.
    + exfalso. apply Hn. apply startswith_spec in Hsw as [post ->].
      by exists "", post.
    + apply IH. intros [pre [post ->]]. apply Hn.
      by exists (String c pre), post.
Qed.

Lemma find_from_some i s sub :
  substring_of sub s →
  ∃ n, first_occurrence sub s n ∧ find_from i s sub = i + Z.of_nat n.
Proof.
  revert i; induction s as [|c s IH]; intros i Hsub.
  - destruct Hsub as [pre [post Hs]].
    destruct pre; [|discriminate]. destruct sub; [|discriminate].
    exists 0%nat. repeat split; simpl; [lia | lia | lia].
  - rewrite find_from_cons.
    destruct (startswith (String c s) sub) eqn:Hsw.
    + exists 0%nat. repeat split; simpl drop; [done | lia | lia | lia].
    + apply substring_of_cons in Hsub as [Hsub|Hsub]; [congruence|].
      destruct (IH (i + 1) Hsub) as (n & (Hn1 & Hn2 & Hn3) & Hf).
      exists (S n). repeat split; simpl drop; simpl String.length.
      * done.
      * lia.
      * intros [|m] Hm; simpl drop; [done | apply Hn3; lia].
      * rewrite Hf. lia.
Qed.

Lemma first_occurrence_split sub s n :
  first_occurrence sub s n →
  s = take n s +:+ sub +:+ drop (n + String.length sub) s.
Proof.
  intros (Hsw & _ & _). apply startswith_drop in Hsw.
  rewrite drop_drop_str in Hsw.
  rewrite <- (take_drop_str n s) at 1. by rewrite Hsw at 1.
Qed.

Lemma first_occurrence_substring sub s n :
  first_occurrence sub s n → substring_of sub s.
Proof. intros H%first_occurrence_split. by eexists _, _. Qed.

Lemma contains_spec s sub : contains s sub = true ↔ substring_of sub s.
Proof.
  induction s as [|c s IH].
  - change (contains "" sub) with (startswith "" sub || false).
    rewrite orb_false_r, startswith_spec. split.
    + intros [post Hp]. by exists "", post.
    + intros [pre [post Hp]]. destruct pre; [|discriminate].
      by exists post.
  - rewrite contains_cons, orb_true_iff, IH, startswith_spec. split.
    + intros [[post Hp]|[pre [post Hp]]].
      * by exists "", post.
      * exists (String c pre), post. simpl. by rewrite Hp.
    + intros Hs. apply substring_of_cons in Hs as [Hs|Hs]; [left|by right].
      by apply startswith_spec.
Qed.

Lemma find_nonneg_iff s sub : 0 ≤ find s sub ↔ substring_of sub s.
Proof.
  unfold find. split.
  - intros Hf. destruct (contains s sub) eqn:Hc; [by apply contains_spec|].
    rewrite find_from_none in Hf; [lia|].
    intros Hs%contains_spec. congruence.
  - intros (n & _ & ->)%(find_from_some 0). lia.
Qed.

Lemma find_minus_one_iff s sub : find s sub = -1 ↔ ¬ substring_of sub s.
Proof.
  split.
  - intros Hf Hs%find_nonneg_iff. lia.
  - apply find_from_none.
Qed.

End str_facts.

(** ** The highlighter *)

Section highlighter.
Import Str EncodePlus.

Lemma add_highlight_found input_sequence input_highlight n :
  first_occurrence input_highlight input_sequence n →
  find input_sequence input_highlight = Z.of_nat n.
Proof.
  intros Hn. pose proof (first_occurrence_substring _ _ _ Hn) as Hsub.
  destruct (find_from_some 0 _ _ Hsub) as (m & (Hm1 & Hm2 & Hm3) & Hf).
  unfold find. rewrite Hf. destruct Hn as (Hn1 & Hn2 & Hn3).
  destruct (lt_eq_lt_dec n m) as [[Hlt| ->]|Hlt]; [| lia |].
  - apply Hm3 in Hlt. congruence.
  - apply Hn3 in Hlt. congruence.
Qed.

Lemma add_highlight_None input_sequence input_highlight :
  ¬ substring_of input_highlight input_sequence →
  add_highlight input_sequence input_highlight = None.
Proof.
  intros Hn%find_minus_one_iff. unfold add_highlight.
  rewrite Hn. by rewrite decide_True.
Qed.

Lemma add_highlight_Some input_sequence input_highlight n :
  first_occurrence input_highlight input_sequence n →
  add_highlight input_sequence input_highlight =
    Some (take n input_sequence +:+ "<hl> " +:+ input_highlight +:+ " <hl>"
          +:+ drop (n + String.length input_highlight) input_sequence).
Proof.
  intros Hn. unfold add_highlight.
  rewrite (add_highlight_found _ _ _ Hn).
  rewrite decide_False by lia. f_equal.
  unfold highlighted, len, ADDITIONAL_SP_TOKENS_hl.
  rewrite <- Nat2Z.inj_add, !Nat2Z.id. done.
Qed.

End highlighter.

(** C2, as amended. The span [S] occurs in the context [C]: the highlighter
    returns [C] with the first occurrence of [S], at its offset [n],
    replaced by [<hl> S <hl>], the text before and after it unchanged; and
    [C] is that result without the two wrappers [<hl> ] and [ <hl>], each
    made of the marker and the space that separates it from the span. *)
Theorem C2_highlight_first_occurrence (C S : string) :
  Str.substring_of S C →
  ∃ n : nat,
    first_occurrence S C n ∧
    EncodePlus.add_highlight C S =
      Some (Str.take n C +:+ "<hl> " +:+ S +:+ " <hl>"
            +:+ Str.drop (n + String.length S) C) ∧
    C = Str.take n C +:+ S +:+ Str.drop (n + String.length S) C.
Proof.
  intros Hsub.
  destruct (find_from_some 0 _ _ Hsub) as (n & Hn & _).
  exists n. split; [done|]. split.
  - by apply add_highlight_Some.
  - by apply first_occurrence_split.
Qed.

Lemma C2_highlight_first_occurrence_witness :
  Str.substring_of "Tokyo" "In Tokyo, Tokyo Tower." ∧
  ∃ n : nat,
    first_occurrence "Tokyo" "In Tokyo, Tokyo Tower." n ∧
    EncodePlus.add_highlight "In Tokyo, Tokyo Tower." "Tokyo" =
      Some (Str.take n "In Tokyo, Tokyo Tower." +:+ "<hl> " +:+ "Tokyo" +:+ " <hl>"
            +:+ Str.drop (n + String.length "Tokyo") "In Tokyo, Tokyo Tower.") ∧
    "In Tokyo, Tokyo Tower." =
      Str.take n "In Tokyo, Tokyo Tower." +:+ "Tokyo"
      +:+ Str.drop (n + String.length "Tokyo") "In Tokyo, Tokyo Tower.".
Proof.
  assert (H : Str.substring_of "Tokyo" "In Tokyo, Tokyo Tower.")
    by (by exists "In ", ", Tokyo Tower.").
  split; [exact H | exact (C2_highlight_first_occurrence _ _ H)].
Defined.

(** C2, as stated, fails: in the highlighted text the markers are set off
    from the span by spaces, which stay when the marker tokens are removed. *)
Lemma C2_counterexample :
  Str.substring_of "Tokyo" "Tokyo is the capital of Japan." ∧
  EncodePlus.add_highlight "Tokyo is the capital of Japan." "Tokyo" =
    Some "<hl> Tokyo <hl> is the capital of Japan." ∧
  remove_markers "<hl> Tokyo <hl> is the capital of Japan." =
    " Tokyo  is the capital of Japan." ∧
  remove_markers "<hl> Tokyo <hl> is the capital of Japan." ≠
    "Tokyo is the capital of Japan.".
Proof.
  split; [by exists "", " is the capital of Japan."|].
  split; [by vm_compute|]. split; [by vm_compute|]. by vm_compute.
Qed.

(** ** Highlight errors *)

Lemma for_each_cons {A B} (f : A → result B) x l :
  for_each f (x :: l) =
  match f x with
  | Raise e => Raise e
  | Ok y => result_map (cons y) (for_each f l)
  end.
Proof. simpl. destruct (f x); [|done]. by destruct (for_each f l). Qed.

Lemma for_each_app {A B} (f : A → result B) l1 l2 :
  for_each f (l1 ++ l2) =
  match for_each f l1 with
  | Raise e => Raise e
  | Ok ys1 => result_map (app ys1) (for_each f l2)
  end.
Proof.
  induction l1 as [|x l1 IH]; simpl.
  - by destruct (for_each f l2).
  - destruct (f x); [|done]. rewrite IH.
    destruct (for_each f l1); [|done]. by destruct (for_each f l2).
Qed.

Lemma filter_None_app {A} `{Truth A} (l1 l2 : list (option A)) :
  filter_None (l1 ++ l2) = filter_None l1 ++ filter_None l2.
Proof. apply omap_app. Qed.

(** C9. The span [S] does not occur in the context [C]: [encode_plus]
    raises [HighlightNotFoundError(S, C)], and with [skip_highlight_error]
    set it returns [None] instead, and the loader's encoded list after the
    filter is the one it has without that example. *)
Theorem C9_highlight_not_found (self : EncodePlus.t) (C S : string)
    (o : option string) :
  ¬ Str.substring_of S C →
  EncodePlus.encode_plus self C o (Some S) =
    (if EncodePlus.skip_highlight_error self then Ok None
     else Raise (HighlightNotFoundError S C)) ∧
  (EncodePlus.skip_highlight_error self = true →
   ∀ d1 d2,
     result_map filter_None
       (for_each (EncodePlus.call self) (d1 ++ (C, o, Some S) :: d2)) =
     result_map filter_None (for_each (EncodePlus.call self) (d1 ++ d2))).
Proof.
  intros Hn.
  assert (He : EncodePlus.encode_plus self C o (Some S) =
    if EncodePlus.skip_highlight_error self then Ok None
    else Raise (HighlightNotFoundError S C)).
  { unfold EncodePlus.encode_plus. by rewrite add_highlight_None. }
  split; [done|]. intros Hskip d1 d2.
  rewrite !for_each_app. destruct (for_each _ d1) as [ys1|e]; [|done].
  rewrite for_each_cons.
  change (EncodePlus.call self (C, o, Some S))
    with (EncodePlus.encode_plus self C o (Some S)).
  rewrite He, Hskip.
  destruct (for_each _ d2) as [ys2|e]; [|done].
  simpl. f_equal. by rewrite !filter_None_app.
Qed.

Lemma C9_highlight_not_found_witness :
  ¬ Str.substring_of "Kyoto" "Tokyo is big." ∧
  EncodePlus.encode_plus (Toy.encoder false false true (Some qg) 64 8)
    "Tokyo is big." None (Some "Kyoto") = Ok None.
Proof.
  assert (H : ¬ Str.substring_of "Kyoto" "Tokyo is big.").
  { intros Hs%contains_spec. by vm_compute in Hs. }
  split; [exact H|].
  exact (proj1 (C9_highlight_not_found (Toy.encoder false false true (Some qg) 64 8)
                  "Tokyo is big." "Kyoto" None H)).
Defined.

(** ** Overflow *)

Section overflow.
Import EncodePlus.
Variable self : EncodePlus.t.

Lemma encode_plus_prepared i o h text :
  prepared self i h = Some text →
  encode_plus self i o h = check_and_tokenize self text o.
Proof.
  unfold prepared, encode_plus. destruct h as [h|].
  - destruct (add_highlight i h); simpl; [|done]. by intros [= <-].
  - by intros [= <-].
Qed.

Lemma check_and_tokenize_overflow text o :
  overflows self text o →
  check_and_tokenize self text o =
    if drop_overflow_text self then Ok None
    else if skip_overflow_error self then Ok (Some (tokenize self text o))
    else Raise (ExceedMaxLengthError (max_length self)).
Proof.
  intros Hov. unfold check_and_tokenize.
  destruct (drop_overflow_text self), (skip_overflow_error self); simpl; try done.
  - case_bool_decide; [done|]. destruct Hov as [?|(target & -> & Ht)]; [lia|].
    by rewrite bool_decide_true.
  - case_bool_decide; [done|]. destruct Hov as [?|(target & -> & Ht)]; [lia|].
    by rewrite bool_decide_true.
  - case_bool_decide; [done|]. destruct Hov as [?|(target & -> & Ht)]; [lia|].
    by rewrite bool_decide_true.
Qed.

Lemma tokenize_input_ids text o :
  tokenize self text o !! "input_ids" =
    Some (tok_encode_plus (tokenizer self) text
            (Kwargs true (Some (max_length self)) (padding self))).1.
Proof. unfold tokenize, BatchEncoding. by destruct o. Qed.

Lemma tokenize_labels text o :
  tokenize self text o !! "labels" =
    (λ target, tok_encode (tokenizer self) target
                 (Kwargs true (Some (max_length_output self)) (padding self)))
    <$> o.
Proof. unfold tokenize, BatchEncoding. by destruct o. Qed.

Lemma tokenize_nonempty text o : tokenize self text o ≠ ∅.
Proof.
  intros He. pose proof (tokenize_input_ids text o) as Hi.
  rewrite He in Hi. by rewrite lookup_empty in Hi.
Qed.

End overflow.

(** C4. The text given to the tokenizer, or the target text, is longer
    than its bound: [encode_plus] returns [None] when [drop_overflow_text]
    is set; otherwise it raises [ExceedMaxLengthError] unless
    [skip_overflow_error] is set, and then it makes no check and returns the
    encoding, whose ids are requested from the tokenizer with
    [truncation=True] and the bound as [max_length]. *)
Theorem C4_overflow_modes (self : EncodePlus.t) (i : string)
    (o h : option string) (text : string) :
  prepared self i h = Some text →
  overflows self text o →
  EncodePlus.encode_plus self i o h =
    (if EncodePlus.drop_overflow_text self then Ok None
     else if EncodePlus.skip_overflow_error self
          then Ok (Some (EncodePlus.tokenize self text o))
          else Raise (ExceedMaxLengthError (EncodePlus.max_length self))) ∧
  EncodePlus.tokenize self text o !! "input_ids" =
    Some (tok_encode_plus (EncodePlus.tokenizer self) text
            (Kwargs true (Some (EncodePlus.max_length self))
               (EncodePlus.padding self))).1 ∧
  EncodePlus.tokenize self text o !! "labels" =
    (λ target, tok_encode (EncodePlus.tokenizer self) target
                 (Kwargs true (Some (EncodePlus.max_length_output self))
                    (EncodePlus.padding self))) <$> o.
Proof.
  intros Hp Hov. split; [|split].
  - rewrite (encode_plus_prepared _ _ _ _ _ Hp).
    by apply check_and_tokenize_overflow.
  - apply tokenize_input_ids.
  - apply tokenize_labels.
Qed.

Lemma C4_overflow_modes_witness :
  prepared (Toy.encoder false true false (Some qa) 12 4) "Tokyo" (Some "Tokyo")
    = Some "question: <hl> Tokyo <hl>" ∧
  overflows (Toy.encoder false true false (Some qa) 12 4)
    "question: <hl> Tokyo <hl>" (Some "capital") ∧
  EncodePlus.encode_plus (Toy.encoder false true false (Some qa) 12 4)
    "Tokyo" (Some "capital") (Some "Tokyo") =
    Ok (Some (EncodePlus.tokenize (Toy.encoder false true false (Some qa) 12 4)
                "question: <hl> Tokyo <hl>" (Some "capital"))) ∧
  EncodePlus.tokenize (Toy.encoder false true false (Some qa) 12 4)
    "question: <hl> Tokyo <hl>" (Some "capital") !! "input_ids" =
    Some (Toy.codes "question: <h") ∧
  EncodePlus.tokenize (Toy.encoder false true false (Some qa) 12 4)
    "question: <hl> Tokyo <hl>" (Some "capital") !! "labels" =
    Some (Toy.codes "capi").
Proof.
  assert (Hp : prepared (Toy.encoder false true false (Some qa) 12 4)
                 "Tokyo" (Some "Tokyo") = Some "question: <hl> Tokyo <hl>")
    by (by vm_compute).
  assert (Hov : overflows (Toy.encoder false true false (Some qa) 12 4)
                  "question: <hl> Tokyo <hl>" (Some "capital"))
    by (left; by vm_compute).
  split; [exact Hp|]. split; [exact Hov|].
  exact (C4_overflow_modes (Toy.encoder false true false (Some qa) 12 4)
           "Tokyo" (Some "capital") (Some "Tokyo") _ Hp Hov).
Defined.

(** C10. The target text is longer than [max_length_output], nothing is
    dropped and overflow errors are not suppressed: the
    [ExceedMaxLengthError] that [encode_plus] raises carries [max_length],
    the bound on the input, whatever [max_length_output] is. *)
Theorem C10_target_overflow_reports_input_bound (self : EncodePlus.t)
    (i target : string) (h : option string) (text : string) :
  prepared self i h = Some text →
  EncodePlus.drop_overflow_text self = false →
  EncodePlus.skip_overflow_error self = false →
  EncodePlus.token_count self target > EncodePlus.max_length_output self →
  EncodePlus.encode_plus self i (Some target) h =
    Raise (ExceedMaxLengthError (EncodePlus.max_length self)).
Proof.
  intros Hp Hdrop Hskip Ht.
  rewrite (encode_plus_prepared _ _ _ _ _ Hp).
  rewrite check_and_tokenize_overflow by (right; eauto).
  by rewrite Hdrop, Hskip.
Qed.

Lemma C10_target_overflow_reports_input_bound_witness :
  prepared (Toy.encoder false false false (Some qg) 64 4) "Tokyo" None
    = Some "generate question: Tokyo" ∧
  EncodePlus.token_count (Toy.encoder false false false (Some qg) 64 4)
    "generate question: Tokyo" ≤ 64 ∧
  EncodePlus.token_count (Toy.encoder false false false (Some qg) 64 4)
    "What is the capital?" > 4 ∧
  EncodePlus.encode_plus (Toy.encoder false false false (Some qg) 64 4)
    "Tokyo" (Some "What is the capital?") None =
    Raise (ExceedMaxLengthError 64).
Proof.
  split; [by vm_compute|]. split; [by vm_compute|]. split; [by vm_compute|].
  apply (C10_target_overflow_reports_input_bound
           (Toy.encoder false false false (Some qg) 64 4) "Tokyo"
           "What is the capital?" None "generate question: Tokyo");
    by vm_compute.
Defined.

(** ** Answer extraction *)

Section cleaning.
Import T5.
Local Arguments String.append !_ _ / : simpl nomatch.

Lemma strip_leading_spec s :
  ∃ ws, s = ws +:+ strip_leading s ∧ all_space ws = true ∧
        match strip_leading s with
        | String c _ => isspace c = false
        | "" => True
        end.
Proof.
  induction s as [|c s (ws & Hs & Hws & Hc)].
  - by exists "".
  - simpl. destruct (isspace c) eqn:Hsp.
    + exists (String c ws). simpl. rewrite Hsp, Hws, <- Hs. done.
    + exists "". simpl. by rewrite Hsp.
Qed.

Lemma strip_trailing_cons c s :
  strip_trailing (String c s) =
  if bool_decide (strip_trailing s = "") && isspace c then ""
  else String c (strip_trailing s).
Proof. simpl. destruct (strip_trailing s); simpl; by destruct (isspace c). Qed.

Lemma strip_trailing_spec s :
  ∃ ws, s = strip_trailing s +:+ ws ∧ all_space ws = true ∧
        ∀ r c, strip_trailing s = r +:+ String c "" → isspace c = false.
Proof.
  induction s as [|c s (ws & Hs & Hws & Hc)].
  - exists "". repeat split. intros [|??] ? ?; discriminate.
  - rewrite strip_trailing_cons.
    destruct (bool_decide_reflect (strip_trailing s = "")) as [He|He]; simpl.
    + destruct (isspace c) eqn:Hsp.
      * exists (String c ws). rewrite He in Hs. simpl in Hs. subst s.
        simpl. rewrite Hsp, Hws. repeat split.
        intros [|??] ? ?; discriminate.
      * exists ws. rewrite He in Hs |- *. simpl in Hs |- *. subst s.
        repeat split; [done|]. intros [|? [|??]] c' [=]; congruence.
    + exists ws. simpl. rewrite <- Hs. repeat split; [done|].
      intros [|a r] c' Hr; simpl in Hr.
      * injection Hr as _ Hr. congruence.
      * injection Hr as _ Hr. eauto.
Qed.

(** [strip s] is [s] without the white space at its two ends. *)
Lemma strip_spec s :
  ∃ l r, s = l +:+ strip s +:+ r ∧ all_space l = true ∧ all_space r = true ∧
         (∀ c t, strip s = String c t → isspace c = false) ∧
         (∀ t c, strip s = t +:+ String c "" → isspace c = false).
Proof.
  destruct (strip_leading_spec s) as (l & Hs & Hl & Hc).
  destruct (strip_trailing_spec (strip_leading s)) as (r & Hs' & Hr & Hc').
  exists l, r. unfold strip. rewrite <- Hs'. repeat split; try done.
  intros c t Ht. rewrite Ht in Hs'. simpl in Hs'. by rewrite Hs' in Hc.
Qed.

Lemma clean_strip s :
  clean s = if decide (strip s = "") then None else Some (strip s).
Proof.
  unfold clean, strip, Str.len.
  by destruct (strip_trailing (strip_leading s)) eqn:He.
Qed.

Lemma filter_None_cons {A} `{Truth A} (o : option A) l :
  filter_None (o :: l) =
  match o with
  | Some a => if truth a then a :: filter_None l else filter_None l
  | None => filter_None l
  end.
Proof. unfold filter_None. simpl. destruct o as [a|]; [|done]. by destruct (truth a). Qed.

Lemma filter_None_clean (outs : list string) :
  filter_None (clean <$> outs) = filter (λ x, x ≠ "") (strip <$> outs).
Proof.
  induction outs as [|o outs IH]; [done|].
  rewrite !fmap_cons, filter_cons, filter_None_cons, IH, clean_strip.
  destruct (decide (strip o = "")) as [He|He].
  - by rewrite decide_False by (by intros ?).
  - rewrite decide_True by done. unfold truth, truth_string.
    by rewrite bool_decide_false.
Qed.

End cleaning.

(** C3. When the decoding stage returns [outs], [generate_a] returns the
    list [kept] made of the strings of [outs] with their leading and
    trailing white space trimmed, without the empty ones and without those
    that do not occur in the context, in the order of [outs]; it raises
    [AnswerNotFoundError(context)] exactly when [kept] is empty. Trimming
    [o] gives [strip o]: [o] without the run of white space at each end. *)
Theorem C3_generate_a_filters (self : T5.t) (context : string)
    (drop_overflow_text skip_overflow_error : bool) (batch_size : option Z)
    (num_beams : Z) (cache_path : option string) (fs fs' : FS)
    (outs : list string) :
  T5.no_prefix self = false →
  T5.generate_prediction self
    (replicate (length (T5.sentence_splitter self context)) context)
    (Some (T5.clean <$> T5.sentence_splitter self context)) ans_ext
    drop_overflow_text skip_overflow_error false batch_size num_beams
    cache_path fs = (Ok outs, fs') →
  let kept :=
    filter (λ x, Str.contains context x = true)
      (filter (λ x, x ≠ "") (strip <$> outs)) in
  T5.generate_a self context drop_overflow_text skip_overflow_error
    batch_size num_beams cache_path fs =
    (if decide (kept = []) then Raise (AnswerNotFoundError context)
     else Ok kept, fs') ∧
  (∀ x, x ∈ kept ↔
        x ∈ strip <$> outs ∧ x ≠ "" ∧ Str.substring_of x context) ∧
  (∀ o, ∃ l r, o = l +:+ strip o +:+ r ∧
               all_space l = true ∧ all_space r = true ∧
               (∀ c t, strip o = String c t → T5.isspace c = false) ∧
               (∀ t c, strip o = t +:+ String c "" → T5.isspace c = false)) ∧
  ((T5.generate_a self context drop_overflow_text skip_overflow_error
      batch_size num_beams cache_path fs).1 =
     Raise (AnswerNotFoundError context) ↔ kept = []).
Proof.
  intros Hnp Hpred kept.
  assert (Hga : T5.generate_a self context drop_overflow_text
                  skip_overflow_error batch_size num_beams cache_path fs =
                (if decide (kept = []) then Raise (AnswerNotFoundError context)
                 else Ok kept, fs')).
  { unfold T5.generate_a, bind at 1. rewrite Hnp. simpl.
    rewrite length_fmap. unfold bind at 1. rewrite Hpred.
    rewrite filter_None_clean. fold kept.
    by destruct kept as [|k kept']. }
  split; [done|]. split; [|split].
  - intros x. subst kept. rewrite !list_elem_of_filter, contains_spec. tauto.
  - apply strip_spec.
  - rewrite Hga. simpl. destruct (decide (kept = [])); [done|].
    split; [discriminate|done].
Qed.

Lemma C3_generate_a_filters_witness :
  T5.no_prefix (Toy.model " Tokyo " 64 8) = false ∧
  T5.generate_prediction (Toy.model " Tokyo " 64 8)
    (replicate
       (length (T5.sentence_splitter (Toy.model " Tokyo " 64 8) "Tokyo is big."))
       "Tokyo is big.")
    (Some (T5.clean
             <$> T5.sentence_splitter (Toy.model " Tokyo " 64 8) "Tokyo is big."))
    ans_ext false false false None 4 None Toy.empty_fs
    = (Ok [" Tokyo "], Toy.empty_fs) ∧
  T5.generate_a (Toy.model " Tokyo " 64 8) "Tokyo is big." false false None 4
    None Toy.empty_fs = (Ok ["Tokyo"], Toy.empty_fs).
Proof.
  assert (Hnp : T5.no_prefix (Toy.model " Tokyo " 64 8) = false) by done.
  assert (Hpred : T5.generate_prediction (Toy.model " Tokyo " 64 8)
    (replicate
       (length (T5.sentence_splitter (Toy.model " Tokyo " 64 8) "Tokyo is big."))
       "Tokyo is big.")
    (Some (T5.clean
             <$> T5.sentence_splitter (Toy.model " Tokyo " 64 8) "Tokyo is big."))
    ans_ext false false false None 4 None Toy.empty_fs
    = (Ok [" Tokyo "], Toy.empty_fs))
    by (apply run_eq; [by_evaluation | apply read_only_generate_prediction]).
  split; [exact Hnp|]. split; [exact Hpred|].
  exact (proj1 (C3_generate_a_filters (Toy.model " Tokyo " 64 8) "Tokyo is big."
                  false false None 4 None Toy.empty_fs Toy.empty_fs [" Tokyo "]
                  Hnp Hpred)).
Defined.

(** ** The requests of the answer-extraction stage *)

Lemma zip_replicate_fmap {A B C} (c : A) (b : B) (f : C → option string)
    (l : list C) :
  zip ((λ i, (i, b)) <$> replicate (length l) c) (f <$> l) =
  (λ x, (c, b, f x)) <$> l.
Proof. induction l as [|x l IH]; simpl; [done | f_equal; exact IH]. Qed.

Lemma generate_a_requests (self : T5.t) (context : string)
    (drop_overflow_text skip_overflow_error : bool) (batch_size : option Z)
    (num_beams : Z) (cache_path : option string) (fs : FS) :
  T5.no_prefix self = false →
  cache_miss fs cache_path →
  T5.generate_a self context drop_overflow_text skip_overflow_error
    batch_size num_beams cache_path fs =
  (let* out :=
     T5.encode_and_cache self (ans_ext_requests self context) (Some ans_ext)
       cache_path drop_overflow_text skip_overflow_error false in
   let* loader :=
     lift (DataLoader out (default (Z.of_nat (length out)) batch_size) false) in
   keep_answers context (decode_batches self num_beams loader)) fs.
Proof.
  intros Hnp Hmiss.
  unfold T5.generate_a, T5.generate_prediction, T5.get_data_loader.
  rewrite Hnp. simpl negb. simpl andb. cbv iota.
  rewrite length_fmap, length_replicate, bool_decide_true by done.
  unfold_M. rewrite zip_replicate_fmap. fold (ans_ext_requests self context).
  destruct cache_path as [p|]; simpl in Hmiss; [rewrite Hmiss|].
  - destruct (T5.encode_and_cache _ _ _ _ _ _ _ fs) as [[out|e] fs1]; [|done].
    by destruct (DataLoader out _ false).
  - destruct (T5.encode_and_cache _ _ _ _ _ _ _ fs) as [[out|e] fs1]; [|done].
    by destruct (DataLoader out _ false).
Qed.

Lemma prepared_highlight (f : EncodePlus.t) (p : task) (context h : string) n :
  EncodePlus.task_prefix f = Some p →
  first_occurrence h context n →
  prepared f context (Some h) =
    Some (TASK_PREFIX p +:+ ": " +:+ Str.take n context +:+ "<hl> " +:+ h
          +:+ " <hl>" +:+ Str.drop (n + String.length h) context).
Proof.
  intros Hp Hn. unfold prepared, EncodePlus.add_prefix.
  by rewrite (add_highlight_Some _ _ _ Hn), Hp.
Qed.

(** C5, as amended. The answer-extraction stage has one encoding request
    per sentence of the context, all encoded with the task prefix
    [ans_ext] and all with the full context as input text, and the cleaned
    sentence is the highlight of its request: the text given to the
    tokenizer is the prefixed context with the markers around the first
    occurrence of the sentence. Only a sentence that is blank has no
    highlight. *)
Theorem C5_ans_ext_requests (self : T5.t) (context : string)
    (drop_overflow_text skip_overflow_error : bool) (batch_size : option Z)
    (num_beams : Z) (cache_path : option string) (fs : FS) :
  T5.no_prefix self = false →
  cache_miss fs cache_path →
  T5.generate_a self context drop_overflow_text skip_overflow_error
    batch_size num_beams cache_path fs =
  (let* out :=
     T5.encode_and_cache self (ans_ext_requests self context) (Some ans_ext)
       cache_path drop_overflow_text skip_overflow_error false in
   let* loader :=
     lift (DataLoader out (default (Z.of_nat (length out)) batch_size) false) in
   keep_answers context (decode_batches self num_beams loader)) fs ∧
  length (ans_ext_requests self context) =
    length (T5.sentence_splitter self context) ∧
  Forall (λ r, r.1.1 = context ∧ r.1.2 = None) (ans_ext_requests self context) ∧
  (∀ (f : EncodePlus.t) sentence,
     EncodePlus.task_prefix f = Some ans_ext →
     match T5.clean sentence with
     | Some h =>
         ∀ n, first_occurrence h context n →
           prepared f context (T5.clean sentence) =
             Some ("extract answers: " +:+ Str.take n context +:+ "<hl> " +:+ h
                   +:+ " <hl>" +:+ Str.drop (n + String.length h) context)
     | None =>
         prepared f context (T5.clean sentence) =
           Some ("extract answers: " +:+ context)
     end).
Proof.
  intros Hnp Hmiss. split; [by apply generate_a_requests|]. split; [|split].
  - unfold ans_ext_requests. by rewrite length_fmap.
  - unfold ans_ext_requests. apply Forall_fmap, Forall_true. done.
  - intros f sentence Hf. destruct (T5.clean sentence) as [h|].
    + intros n Hn. by rewrite (prepared_highlight f ans_ext _ _ n).
    + unfold prepared, EncodePlus.add_prefix. by rewrite Hf.
Qed.

Lemma C5_ans_ext_requests_witness :
  T5.no_prefix (Toy.model "Tokyo" 64 8) = false ∧
  cache_miss Toy.empty_fs (Some "cache/ans.pkl") ∧
  ans_ext_requests (Toy.model "Tokyo" 64 8) "Tokyo is big. It rains." =
    [("Tokyo is big. It rains.", None, Some "Tokyo is big.");
     ("Tokyo is big. It rains.", None, Some "It rains.")] ∧
  length (ans_ext_requests (Toy.model "Tokyo" 64 8) "Tokyo is big. It rains.")
    = 2%nat.
Proof.
  assert (Hnp : T5.no_prefix (Toy.model "Tokyo" 64 8) = false) by done.
  assert (Hmiss : cache_miss Toy.empty_fs (Some "cache/ans.pkl")) by (by vm_compute).
  split; [exact Hnp|]. split; [exact Hmiss|]. split; [by vm_compute|].
  exact (proj1 (proj2 (C5_ans_ext_requests (Toy.model "Tokyo" 64 8)
                         "Tokyo is big. It rains." false false None 4
                         (Some "cache/ans.pkl") Toy.empty_fs Hnp Hmiss))).
Defined.

(** C5, as stated, fails: the sentence is the highlight of its request, and
    the encoded input carries the markers around it. *)
Lemma C5_counterexample :
  T5.sentence_splitter (Toy.model "Tokyo" 64 8) "Tokyo is big. It rains."
    = ["Tokyo is big."; " It rains."] ∧
  ∃ e1 e2,
    (T5.get_data_loader (Toy.model "Tokyo" 64 8)
       (replicate
          (length (T5.sentence_splitter (Toy.model "Tokyo" 64 8)
                     "Tokyo is big. It rains."))
          "Tokyo is big. It rains.")
       None
       (Some (T5.clean <$> T5.sentence_splitter (Toy.model "Tokyo" 64 8)
                             "Tokyo is big. It rains."))
       (Some ans_ext) None false None false false false Toy.empty_fs).1
      = Ok [[e1; e2]] ∧
    Toy.text <$> (e1 !! "input_ids") =
      Some "extract answers: <hl> Tokyo is big. <hl> It rains." ∧
    Toy.text <$> (e2 !! "input_ids") =
      Some "extract answers: Tokyo is big. <hl> It rains. <hl>".
Proof.
  split; [by_evaluation|].
  exists (EncodePlus.tokenize (Toy.encoder false false false (Some ans_ext) 64 8)
            "extract answers: <hl> Tokyo is big. <hl> It rains." None),
         (EncodePlus.tokenize (Toy.encoder false false false (Some ans_ext) 64 8)
            "extract answers: Tokyo is big. <hl> It rains. <hl>" None).
  split; [by_evaluation|]. split; by_evaluation.
Qed.

(** ** Lengths through the loader and the generation loop *)

Lemma concat_chunks_fuel {A} (fuel n : nat) (l : list A) :
  (0 < n)%nat → (length l ≤ fuel)%nat → concat (chunks_fuel fuel n l) = l.
Proof.
  intros Hn. revert l. induction fuel as [|fuel IH]; intros l Hl.
  - destruct l; [done | simpl in Hl; lia].
  - destruct l as [|x l]; [done|].
    cbn [chunks_fuel concat]. rewrite IH.
    + apply take_drop.
    + rewrite length_drop. simpl in *. lia.
Qed.

Lemma concat_chunks {A} (n : nat) (l : list A) :
  (0 < n)%nat → concat (chunks n l) = l.
Proof. intros Hn. by apply concat_chunks_fuel. Qed.

Lemma DataLoader_concat dataset batch_size batches :
  DataLoader dataset batch_size false = Ok batches →
  concat batches = dataset.
Proof.
  unfold DataLoader. case_bool_decide; [done|]. intros [= <-].
  apply concat_chunks. lia.
Qed.

Lemma for_each_length {A B} (f : A → result B) l ys :
  for_each f l = Ok ys → length ys = length l.
Proof.
  revert ys. induction l as [|x l IH]; intros ys; simpl.
  - by intros [= <-].
  - destruct (f x); [|done]. destruct (for_each f l); [|done].
    intros [= <-]. simpl. f_equal. by apply IH.
Qed.

Lemma for_each_Forall {A B} (f : A → result B) (P : B → Prop) l ys :
  (∀ x y, f x = Ok y → P y) → for_each f l = Ok ys → Forall P ys.
Proof.
  intros Hf. revert ys. induction l as [|x l IH]; intros ys; simpl.
  - intros [= <-]. constructor.
  - destruct (f x) eqn:Hx; [|done]. destruct (for_each f l); [|done].
    intros [= <-]. constructor; eauto.
Qed.

Lemma filter_None_length_le {A} `{Truth A} (l : list (option A)) :
  (length (filter_None l) ≤ length l)%nat.
Proof.
  induction l as [|o l IH]; [done|]. rewrite filter_None_cons.
  destruct o as [a|]; [destruct (truth a)|]; simpl; lia.
Qed.

Lemma filter_None_length_all {A} `{Truth A} (l : list (option A)) :
  Forall (λ o, ∃ a, o = Some a ∧ truth a = true) l →
  length (filter_None l) = length l.
Proof.
  induction 1 as [|o l (a & -> & Ha) _ IH]; [done|].
  rewrite filter_None_cons, Ha. simpl. by rewrite IH.
Qed.

Lemma encode_plus_not_None (f : EncodePlus.t) i o h r :
  EncodePlus.drop_overflow_text f = false →
  EncodePlus.skip_highlight_error f = false →
  EncodePlus.encode_plus f i o h = Ok r →
  ∃ e, r = Some e ∧ truth e = true.
Proof.
  intros Hd Hs. unfold EncodePlus.encode_plus, EncodePlus.check_and_tokenize.
  rewrite Hd, Hs. intros Hr.
  assert (Ht : ∀ text, truth (EncodePlus.tokenize f text o) = true).
  { intros text. unfold truth, truth_dict.
    rewrite bool_decide_false; [done | apply tokenize_nonempty]. }
  repeat match type of Hr with
         | context [match ?x with _ => _ end] => destruct x
         end; try discriminate; injection Hr as <-; eauto.
Qed.

Lemma encode_and_cache_length (self : T5.t) data task_prefix cache_path
    (drop_overflow_text skip_overflow_error skip_highlight_error : bool)
    fs out fs' :
  T5.encode_and_cache self data task_prefix cache_path drop_overflow_text
    skip_overflow_error skip_highlight_error fs = (Ok out, fs') →
  (length out ≤ length data)%nat ∧
  (drop_overflow_text = false → skip_highlight_error = false →
   length out = length data).
Proof.
  unfold T5.encode_and_cache. unfold_M.
  destruct (for_each _ data) as [l|e] eqn:Hl; [|done].
  intros Hout.
  assert (out = filter_None l) as ->.
  { destruct cache_path as [p|]; [|by injection Hout as <-].
    repeat match type of Hout with
           | context [match ?x with _ => _ end] => destruct x
           | context [if ?x then _ else _] => destruct x
           end; try discriminate; by injection Hout as <-. }
  pose proof (for_each_length _ _ _ Hl) as Hlen. split.
  - rewrite <- Hlen. apply filter_None_length_le.
  - intros -> ->. rewrite <- Hlen. apply filter_None_length_all.
    eapply for_each_Forall; [|exact Hl].
    intros [[i o] h] r Hr. by apply encode_plus_not_None in Hr.
Qed.

Lemma get_data_loader_length (self : T5.t) inputs highlights task_prefix
    batch_size cache_path
    (drop_overflow_text skip_overflow_error skip_highlight_error : bool)
    fs batches fs' :
  cache_miss fs cache_path →
  T5.get_data_loader self inputs None highlights task_prefix batch_size false
    cache_path drop_overflow_text skip_overflow_error skip_highlight_error fs
    = (Ok batches, fs') →
  (length (concat batches) ≤ length inputs)%nat ∧
  (drop_overflow_text = false → skip_highlight_error = false →
   length (concat batches) = length inputs).
Proof.
  intros Hmiss. unfold T5.get_data_loader. unfold_M. intros H.
  assert (Hend : ∀ data tp,
    length data = length inputs →
    (let (r, s') :=
       T5.encode_and_cache self data tp cache_path drop_overflow_text
         skip_overflow_error skip_highlight_error fs in
     match r with
     | Ok a =>
         (DataLoader a (default (Z.of_nat (length a)) batch_size) false, s')
     | Raise e => (Raise e, s')
     end) = (Ok batches, fs') →
    (length (concat batches) ≤ length inputs)%nat ∧
    (drop_overflow_text = false → skip_highlight_error = false →
     length (concat batches) = length inputs)).
  { intros data tp Hlen Hr.
    destruct (T5.encode_and_cache _ _ _ _ _ _ _ fs) as [[out|e] fs1] eqn:He;
      [|discriminate].
    injection Hr as Hr _. apply DataLoader_concat in Hr as ->.
    apply encode_and_cache_length in He. by rewrite <- Hlen. }
  assert (Hcache : ∀ data tp,
    match cache_path with
    | Some p =>
        if os.exists_ fs p then pickle_load p
        else T5.encode_and_cache self data tp cache_path drop_overflow_text
               skip_overflow_error skip_highlight_error
    | None =>
        T5.encode_and_cache self data tp cache_path drop_overflow_text
          skip_overflow_error skip_highlight_error
    end = T5.encode_and_cache self data tp cache_path drop_overflow_text
            skip_overflow_error skip_highlight_error).
  { intros data tp. destruct cache_path as [p|]; [|done].
    simpl in Hmiss. by rewrite Hmiss. }
  destruct highlights as [hs|].
  - case_bool_decide as Hhs; [|discriminate].
    destruct (T5.no_prefix self && _);
      [destruct (decide (task_prefix = Some qg)); [|discriminate]|];
      rewrite Hcache in H; (eapply Hend; [|exact H]);
      rewrite length_zip, length_fmap; lia.
  - destruct (T5.no_prefix self && _);
      [destruct (decide (task_prefix = Some qg)); [|discriminate]|];
      rewrite Hcache in H; (eapply Hend; [|exact H]);
      by rewrite !length_fmap.
Qed.

Section generation_lengths.
Variable self : T5.t.

(** The network returns one sequence per example of a batch and the
    tokenizer decodes one string per sequence. *)
Hypothesis generate_length :
  ∀ batch max_length num_beams,
    length (T5.generate self batch max_length num_beams) = length batch.
Hypothesis batch_decode_length :
  ∀ tensor, length (tok_batch_decode (T5.tokenizer self) tensor) = length tensor.

Lemma decode_batches_length num_beams loader :
  length (decode_batches self num_beams loader) = length (concat loader).
Proof.
  unfold decode_batches. induction loader as [|b loader IH]; [done|].
  rewrite fmap_cons. cbn [concat]. rewrite !length_app, IH.
  by rewrite batch_decode_length, generate_length.
Qed.

Lemma generate_prediction_length list_context list_highlight task_type
    (drop_overflow_text skip_overflow_error skip_highlight_error : bool)
    batch_size num_beams cache_path fs outs fs' :
  cache_miss fs cache_path →
  T5.generate_prediction self list_context list_highlight task_type
    drop_overflow_text skip_overflow_error skip_highlight_error
    batch_size num_beams cache_path fs = (Ok outs, fs') →
  (length outs ≤ length list_context)%nat ∧
  (drop_overflow_text = false → skip_highlight_error = false →
   length outs = length list_context).
Proof.
  intros Hmiss. unfold T5.generate_prediction. unfold bind, ret.
  destruct (T5.get_data_loader _ _ _ _ _ _ _ _ _ _ _ fs)
    as [[loader|e] fs1] eqn:Hl; [|discriminate].
  intros [= <- <-]. fold (decode_batches self num_beams loader).
  rewrite decode_batches_length.
  by eapply get_data_loader_length.
Qed.

End generation_lengths.

Lemma generate_qa_inv (self : T5.t) (context : string)
    (drop_overflow_text skip_overflow_error : bool) (batch_size : option Z)
    (num_beams : Z) (cache_path : option string) fs pairs fs' :
  T5.generate_qa self context drop_overflow_text skip_overflow_error
    batch_size num_beams cache_path fs = (Ok pairs, fs') →
  ∃ list_answer list_question fs1,
    T5.generate_a self context drop_overflow_text skip_overflow_error
      batch_size num_beams cache_path fs = (Ok list_answer, fs1) ∧
    T5.generate_q self (replicate (length list_answer) context)
      (Some list_answer) drop_overflow_text skip_overflow_error
      batch_size num_beams cache_path fs1 = (Ok list_question, fs') ∧
    length list_question = length list_answer ∧
    pairs = zip list_question list_answer.
Proof.
  unfold T5.generate_qa. unfold_M.
  destruct (T5.generate_a _ _ _ _ _ _ _ fs) as [[la|e] fs1] eqn:Ha;
    [|discriminate].
  destruct (T5.generate_q _ _ _ _ _ _ _ _ fs1) as [[lq|e] fs2] eqn:Hq;
    [|discriminate].
  case_bool_decide as Hlen; [|discriminate]. intros [= <- <-].
  by exists la, lq, fs1.
Qed.




(** ** The cache *)

Section paths.
Import os.

Lemma upto_last_sep_bare p : Str.contains p "/" = false → upto_last_sep p = "".
Proof.
  induction p as [|c p IH]; [done|]. cbn [Str.contains Str.startswith].
  intros [Hc Hp]%orb_false_iff. cbn [upto_last_sep]. rewrite (IH Hp).
  unfold is_sep. destruct (decide ("/"%char = c)) as [<-|Hne].
  - by destruct p.
  - by rewrite bool_decide_false.
Qed.

(** A path without a separator has no directory part. *)
Lemma dirname_bare p : Str.contains p "/" = false → dirname p = "".
Proof. intros Hp. unfold dirname. by rewrite (upto_last_sep_bare p Hp). Qed.

End paths.

Lemma on_disk_now (fs : FS) : on_disk fs (now fs) = fs.
Proof. by destruct fs. Qed.

Lemma get_data_loader_args_ok (self : T5.t) inputs outputs highlights
    task_prefix batch_size drop_last cache_path
    (drop_overflow_text skip_overflow_error skip_highlight_error : bool) fs :
  args_ok self inputs outputs highlights task_prefix →
  T5.get_data_loader self inputs outputs highlights task_prefix batch_size
    drop_last cache_path drop_overflow_text skip_overflow_error
    skip_highlight_error fs =
  (let* out :=
     match cache_path with
     | Some p =>
         if os.exists_ fs p then pickle_load p
         else T5.encode_and_cache self (loader_data inputs outputs highlights)
                (loader_prefix self task_prefix) cache_path
                drop_overflow_text skip_overflow_error skip_highlight_error
     | None =>
         T5.encode_and_cache self (loader_data inputs outputs highlights)
           (loader_prefix self task_prefix) cache_path
           drop_overflow_text skip_overflow_error skip_highlight_error
     end in
   lift (DataLoader out (default (Z.of_nat (length out)) batch_size) drop_last))
    fs.
Proof.
  intros (Ho & Hh & Hp). unfold T5.get_data_loader, loader_data, loader_prefix.
  unfold_M.
  assert (Hpre : (if T5.no_prefix self && bool_decide (is_Some task_prefix)
                  then if decide (task_prefix = Some qg)
                       then Some (@None task) else None
                  else Some task_prefix)
                 = Some (if T5.no_prefix self then None else task_prefix)).
  { destruct (T5.no_prefix self); [|done]. simpl.
    destruct (Hp eq_refl) as [-> | ->]; [done|].
    rewrite bool_decide_true by eauto. by rewrite decide_True. }
  destruct outputs as [os|], highlights as [hs|];
    rewrite ?(bool_decide_true _ (Ho _ eq_refl)),
            ?(bool_decide_true _ (Hh _ eq_refl));
    destruct (T5.no_prefix self && bool_decide (is_Some task_prefix));
    try destruct (decide (task_prefix = Some qg));
    try discriminate; by injection Hpre as <-.
Qed.

Lemma encode_and_cache_None (self : T5.t) data task_prefix
    (drop_overflow_text skip_overflow_error skip_highlight_error : bool) fs :
  T5.encode_and_cache self data task_prefix None drop_overflow_text
    skip_overflow_error skip_highlight_error fs =
  ((T5.encode_and_cache self data task_prefix None drop_overflow_text
      skip_overflow_error skip_highlight_error fs).1, fs).
Proof.
  unfold T5.encode_and_cache. unfold_M. by destruct (for_each _ data).
Qed.

(** The steps of a miss, one after the other: the encoding, then
    [os.makedirs], then [pickle_save]. *)
Lemma encode_and_cache_Some (self : T5.t) data task_prefix
    (drop_overflow_text skip_overflow_error skip_highlight_error : bool) p fs :
  T5.encode_and_cache self data task_prefix (Some p) drop_overflow_text
    skip_overflow_error skip_highlight_error fs =
  match (T5.encode_and_cache self data task_prefix None drop_overflow_text
           skip_overflow_error skip_highlight_error fs).1 with
  | Ok out =>
      match os.makedirs (os.dirname p) fs with
      | (Ok _, fs1) =>
          match pickle_save out p fs1 with
          | (Ok _, fs2) => (Ok out, fs2)
          | (Raise e, fs2) => (Raise e, fs2)
          end
      | (Raise e, fs1) => (Raise e, fs1)
      end
  | Raise e => (Raise e, fs)
  end.
Proof.
  unfold T5.encode_and_cache. unfold_M.
  destruct (for_each _ data) as [l|e]; [|done]. cbn [fst].
  destruct (os.makedirs (os.dirname p) fs) as [[[]|e] fs1]; [|done].
  by destruct (pickle_save (filter_None l) p fs1) as [[[]|e] fs2].
Qed.

(** C8 does not hold of the code. For a cache path without a directory
    part, as ['dev.pkl'], at which nothing exists: [os.path.dirname] gives
    the empty path, [os.makedirs] raises [FileNotFoundError] on it, and
    the loader raises with it: nothing is written, [pickle_save] is not
    reached and no batch is returned, although the encoding succeeded and
    the same call without cache path returns its batches. *)
Theorem C8_bare_cache_path_not_persisted (self : T5.t) (inputs : list string)
    (outputs : option (list string)) (highlights : option (list (option string)))
    (task_prefix : option task) (batch_size : option Z) (drop_last : bool)
    (drop_overflow_text skip_overflow_error skip_highlight_error : bool)
    (p : string) (fs : FS) (out : list Encoded) :
  args_ok self inputs outputs highlights task_prefix →
  Str.contains p "/" = false →
  os.exists_ fs p = false →
  os.makedirs "" fs = (Raise (FileNotFoundError ""), fs) →
  (T5.encode_and_cache self (loader_data inputs outputs highlights)
     (loader_prefix self task_prefix) None drop_overflow_text
     skip_overflow_error skip_highlight_error fs).1 = Ok out →
  T5.get_data_loader self inputs outputs highlights task_prefix batch_size
    drop_last None drop_overflow_text skip_overflow_error
    skip_highlight_error fs =
    (DataLoader out (default (Z.of_nat (length out)) batch_size) drop_last, fs) ∧
  T5.get_data_loader self inputs outputs highlights task_prefix batch_size
    drop_last (Some p) drop_overflow_text skip_overflow_error
    skip_highlight_error fs = (Raise (FileNotFoundError ""), fs).
Proof.
  intros Hargs Hbare Hex Hmk Hout. split.
  - rewrite get_data_loader_args_ok by done. unfold bind.
    by rewrite encode_and_cache_None, Hout.
  - rewrite get_data_loader_args_ok by done. rewrite Hex. unfold bind.
    by rewrite encode_and_cache_Some, Hout, (dirname_bare p Hbare), Hmk.
Qed.

Lemma C8_bare_cache_path_not_persisted_witness :
  args_ok (Toy.model "Tokyo" 32 8) ["Tokyo"] None None (Some qg) ∧
  Str.contains "dev.pkl" "/" = false ∧
  os.exists_ Toy.empty_fs "dev.pkl" = false ∧
  os.makedirs "" Toy.empty_fs = (Raise (FileNotFoundError ""), Toy.empty_fs) ∧
  (∃ e,
     T5.get_data_loader (Toy.model "Tokyo" 32 8) ["Tokyo"] None None (Some qg)
       None false None false false false Toy.empty_fs
     = (Ok [[e]], Toy.empty_fs)) ∧
  T5.get_data_loader (Toy.model "Tokyo" 32 8) ["Tokyo"] None None (Some qg)
    None false (Some "dev.pkl") false false false Toy.empty_fs
  = (Raise (FileNotFoundError ""), Toy.empty_fs).
Proof.
  assert (Hargs : args_ok (Toy.model "Tokyo" 32 8) ["Tokyo"] None None
                    (Some qg)) by done.
  assert (Hbare : Str.contains "dev.pkl" "/" = false) by done.
  assert (Hex : os.exists_ Toy.empty_fs "dev.pkl" = false) by done.
  assert (Hmk : os.makedirs "" Toy.empty_fs
                = (Raise (FileNotFoundError ""), Toy.empty_fs)) by done.
  assert (Hout : (T5.encode_and_cache (Toy.model "Tokyo" 32 8)
                    (loader_data ["Tokyo"] None None)
                    (loader_prefix (Toy.model "Tokyo" 32 8) (Some qg)) None
                    false false false Toy.empty_fs).1 =
                 Ok [Toy.encoded_question "Tokyo" 32 8]) by by_evaluation.
  destruct (C8_bare_cache_path_not_persisted (Toy.model "Tokyo" 32 8) ["Tokyo"]
              None None (Some qg) None false false false false "dev.pkl"
              Toy.empty_fs _ Hargs Hbare Hex Hmk Hout) as [Hnone Hsome].
  split; [exact Hargs|]. split; [exact Hbare|]. split; [exact Hex|].
  split; [exact Hmk|]. split; [|exact Hsome].
  exists (Toy.encoded_question "Tokyo" 32 8). rewrite Hnone.
  apply run_eq; [by_evaluation | done].
Defined.

(** ** The label-smoothed loss *)

Section shapes.
Import torch.

Lemma numel_cons d s : numel (d :: s) = (d * numel s)%nat.
Proof. done. Qed.

Lemma numel_snoc_one s : numel (s ++ [1%nat]) = numel s.
Proof.
  induction s as [|d s IH]; [done|].
  by rewrite <- app_comm_cons, !numel_cons, IH.
Qed.

Lemma numel_tail_pos p d s : (p < numel (d :: s))%nat → numel s ≠ 0%nat.
Proof. rewrite numel_cons. intros Hp H0. rewrite H0 in Hp. lia. Qed.

Lemma unravel_length s p : length (unravel s p) = length s.
Proof.
  revert p. induction s as [|d s IH]; intros p; [done|].
  cbn [unravel length]. by rewrite IH.
Qed.

Lemma unravel_lt s p : (p < numel s)%nat → Forall2 lt (unravel s p) s.
Proof.
  revert p. induction s as [|d s IH]; intros p Hp; [constructor|].
  pose proof (numel_tail_pos _ _ _ Hp) as Hs. rewrite numel_cons in Hp.
  cbn [unravel]. constructor.
  - apply Nat.Div0.div_lt_upper_bound. lia.
  - apply IH. by apply Nat.mod_upper_bound.
Qed.

Lemma ravel_unravel s p : (p < numel s)%nat → ravel s (unravel s p) = p.
Proof.
  revert p. induction s as [|d s IH]; intros p Hp.
  - unfold numel in Hp. simpl in *. lia.
  - pose proof (numel_tail_pos _ _ _ Hp) as Hs.
    cbn [unravel ravel]. rewrite IH by (by apply Nat.mod_upper_bound).
    pose proof (Nat.div_mod_eq p (numel s)). lia.
Qed.

Lemma unravel_snoc_one s p :
  (p < numel s)%nat → unravel (s ++ [1%nat]) p = unravel s p ++ [0%nat].
Proof.
  revert p. induction s as [|d s IH]; intros p Hp.
  - unfold numel in Hp. simpl in Hp. by assert (p = 0%nat) as -> by lia.
  - pose proof (numel_tail_pos _ _ _ Hp) as Hs.
    rewrite <- app_comm_cons. cbn [unravel]. rewrite numel_snoc_one.
    by rewrite IH by (by apply Nat.mod_upper_bound).
Qed.

(** Inside a tensor, a coordinate along a dimension of size one is [0]. *)
Lemma clip_unravel s p :
  (p < numel s)%nat →
  zip_with (λ i m : nat, if bool_decide (m = 1%nat) then 0%nat else i)
    (unravel s p) s = unravel s p.
Proof.
  intros Hp. pose proof (unravel_lt s p Hp) as Hlt. clear Hp.
  induction Hlt as [|i m l s' Him _ IH]; [done|].
  cbn [zip_with]. rewrite IH. f_equal. case_bool_decide; lia.
Qed.

Lemma for_each_zip_seq {A B C} (F : nat * A → result B)
    (G : C * A → result B) (rows : list C) (index : list A) (k : nat) :
  length index = length rows →
  (∀ j r i, rows !! j = Some r → index !! j = Some i →
            F ((k + j)%nat, i) = G (r, i)) →
  for_each F (zip (seq k (length index)) index) = for_each G (zip rows index).
Proof.
  revert rows k. induction index as [|i index IH]; intros rows k Hlen HFG.
  - by destruct rows.
  - destruct rows as [|r rows]; [done|]. injection Hlen as Hlen.
    cbn [length seq zip zip_with for_each].
    pose proof (HFG 0%nat r i eq_refl eq_refl) as H0.
    rewrite Nat.add_0_r in H0. rewrite H0.
    rewrite (IH rows (S k) Hlen); [done|].
    intros j r' i' Hr Hi. rewrite <- (HFG (S j) r' i' Hr Hi).
    do 2 f_equal. lia.
Qed.

(** For an index of the shape of the input with its last axis turned into
    a one, [gather] reads one element per row. *)
Lemma gather_rowwise (input : FloatTensor) (index : list Z) :
  numel (lead input) = length (rows input) →
  length index = length (rows input) →
  gather input (lead input ++ [1%nat]) index = gather_rows (rows input) index.
Proof.
  intros Hn Hlen. unfold gather, gather_rows.
  rewrite bool_decide_true.
  2:{ split; [rewrite length_app; simpl; lia|].
      rewrite take_app_length. apply Forall_Forall2_diag, Forall_true. lia. }
  apply for_each_zip_seq; [done|]. intros j r i Hr Hi. cbn [fst snd Nat.add].
  assert (j < numel (lead input))%nat as Hj
    by (rewrite Hn; by eapply lookup_lt_Some).
  rewrite unravel_snoc_one by done.
  rewrite <- (unravel_length (lead input) j) at 1.
  rewrite take_app_length, ravel_unravel by done.
  by rewrite Hr.
Qed.

(** For a mask of the shape of the tensor, [masked_fill_] works element by
    element. *)
Lemma masked_fill_same s x mask v :
  length x = numel s → length mask = numel s →
  masked_fill s x s mask v = Ok (fill x mask v).
Proof.
  intros Hx Hm. unfold masked_fill, fill.
  rewrite Nat.sub_diag. cbn [replicate app].
  rewrite bool_decide_true
    by (split; [lia | apply Forall_Forall2_diag, Forall_true; by left]).
  f_equal. apply list_eq. intros p.
  rewrite list_lookup_imap, lookup_zip_with.
  destruct (x !! p) as [xi|] eqn:Hxi; [|done]. cbn [fmap option_fmap option_map].
  assert (p < numel s)%nat as Hp by (rewrite <- Hx; by eapply lookup_lt_Some).
  rewrite clip_unravel, ravel_unravel by done.
  destruct (mask !! p) as [b|] eqn:Hb; [done|].
  apply lookup_ge_None in Hb. lia.
Qed.

End shapes.

Section loss_facts.
Import torch.

(** The store after the loss: the clamp has been written into the storage
    of the caller's labels, through the view when there is one. *)
Lemma label_smoothed_loss_heap logits labels epsilon (h : heap) ids :
  h !! storage labels = Some ids →
  (label_smoothed_loss logits labels epsilon h).2 =
    <[storage labels := Z.max 0 <$> ids]> h.
Proof.
  intros Hids. unfold label_smoothed_loss.
  set (labels' := if decide (dim labels = length (lead logits))
                  then unsqueeze labels else labels).
  assert (Hst : storage labels' = storage labels).
  { unfold labels'. by destruct (decide _). }
  unfold values, clamp_min_. unfold_M. rewrite Hst, Hids.
  assert (Halter : alter (fmap (Z.max 0)) (storage labels) h =
                   <[storage labels := Z.max 0 <$> ids]> h).
  { apply map_eq. intros i. destruct (decide (i = storage labels)) as [->|Hne].
    - by rewrite lookup_alter_eq, lookup_insert_eq, Hids.
    - by rewrite lookup_alter_ne, lookup_insert_ne. }
  rewrite Halter, lookup_insert_eq.
  destruct (gather _ _ _) as [g|]; [|done].
  destruct (masked_fill _ g _ _ _); [|done].
  by destruct (masked_fill _ _ _ _ _).
Qed.

Lemma gather_rows_cons row input i index :
  gather_rows (row :: input) (i :: index) =
  match (if bool_decide (0 ≤ i) then row !! Z.to_nat i else None) with
  | Some x => result_map (cons x) (gather_rows input index)
  | None => Raise (RuntimeError "index out of bounds")
  end.
Proof.
  unfold gather_rows. cbn [zip zip_with]. rewrite for_each_cons. cbn [fst snd].
  by destruct (if bool_decide (0 ≤ i) then row !! Z.to_nat i else None).
Qed.

Lemma gather_rows_length input index gs :
  gather_rows input index = Ok gs →
  length gs = length (zip input index).
Proof. apply for_each_length. Qed.

End loss_facts.

Section loss_sums.
Import torch.
Local Open Scope R_scope.

Lemma masked_sums (V : nat) (lp : list (list R)) (ids : list Z) :
  length ids = length lp →
  Forall (λ row, length row = V) lp →
  (0 < V)%nat →
  Forall (λ l, l = CE_IGNORE_INDEX ∨ (0 ≤ l < Z.of_nat V)%Z) ids →
  ∃ gs,
    gather_rows lp (Z.max 0 <$> ids) = Ok gs ∧
    Rsum (fill gs (padding_mask_of ids) 0) =
      Rsum ((λ ri : list R * Z, nth (Z.to_nat ri.2) ri.1 0)
              <$> filter (λ ri, ri.2 ≠ CE_IGNORE_INDEX) (zip lp ids)) ∧
    Rsum (fill (Rsum <$> lp) (padding_mask_of ids) 0) =
      Rsum ((λ ri : list R * Z, Rsum ri.1)
              <$> filter (λ ri, ri.2 ≠ CE_IGNORE_INDEX) (zip lp ids)) ∧
    (Z.of_nat (length (padding_mask_of ids)) - count_true (padding_mask_of ids))%Z =
      Z.of_nat (length (filter (λ ri, ri.2 ≠ CE_IGNORE_INDEX) (zip lp ids))).
Proof.
  intros Hlen Hrows HV. revert ids Hlen.
  induction Hrows as [|row lp Hrow Hrows IH]; intros ids Hlen Hids.
  - destruct ids; [|done]. exists []. repeat split; done.
  - destruct ids as [|i ids]; [done|].
    injection Hlen as Hlen. apply Forall_cons in Hids as [Hi Hids'].
    destruct (IH ids Hlen Hids') as (gs & Hg & Hnll & Hsm & Hcnt).
    assert (Hx : ∃ x, (if bool_decide (0 ≤ Z.max 0 i)%Z
                       then row !! Z.to_nat (Z.max 0 i) else None) = Some x ∧
                      (i ≠ CE_IGNORE_INDEX → x = nth (Z.to_nat i) row 0)).
    { rewrite bool_decide_true by lia.
      destruct (lookup_lt_is_Some_2 row (Z.to_nat (Z.max 0 i))) as [x Hx].
      { rewrite Hrow. unfold CE_IGNORE_INDEX in Hi. lia. }
      exists x. split; [done|]. intros Hne.
      destruct Hi as [?|Hi]; [done|]. rewrite Z.max_r in Hx by lia.
      symmetry. by apply nth_lookup_Some. }
    destruct Hx as (x & Hx & Hxn).
    exists (x :: gs). rewrite fmap_cons, gather_rows_cons, Hx, Hg.
    split; [done|].
    unfold padding_mask_of, Rsum, fill, count_true in *.
    rewrite !fmap_cons. cbn [zip zip_with length foldr].
    rewrite filter_cons. cbn [snd].
    destruct (decide (i ≠ CE_IGNORE_INDEX)) as [Hne|He].
    + rewrite bool_decide_false by done. rewrite !fmap_cons.
      cbn [foldr fst snd length].
      rewrite Hnll, Hsm, <- (Hxn Hne). repeat split; try done. lia.
    + apply dec_stable in He. subst i. rewrite bool_decide_true by done.
      rewrite Hnll, Hsm, !Rplus_0_l. repeat split; try done. lia.
Qed.

End loss_sums.

(** On the shapes of a training batch the loss reads the logits row by
    row. *)
Lemma label_smoothed_loss_rowwise (logits : torch.FloatTensor)
    (labels : torch.Tensor) (epsilon : R) (h : torch.heap) (ids : list Z) :
  h !! torch.storage labels = Some ids →
  shapes_ok logits labels ids →
  (label_smoothed_loss logits labels epsilon h).1 =
    match gather_rows (neg_log_probs logits) (Z.max 0 <$> ids) with
    | Ok gs =>
        Ok (torch.add
              (torch.mul (1 - epsilon)
                 (torch.div
                    (torch.Rsum (fill gs (padding_mask_of ids) 0))
                    (Z.of_nat (length (padding_mask_of ids))
                     - torch.count_true (padding_mask_of ids))))
              (torch.mul epsilon
                 (torch.div
                    (torch.Rsum (fill (torch.Rsum <$> neg_log_probs logits)
                                   (padding_mask_of ids) 0))
                    ((Z.of_nat (length (padding_mask_of ids))
                      - torch.count_true (padding_mask_of ids))
                     * Z.of_nat (torch.vocab logits)))))
    | Raise e => Raise e
    end.
Proof.
  intros Hids (Hshape & Hn & Hlen & Hrows & HV).
  unfold label_smoothed_loss.
  set (labels' := if decide (torch.dim labels = length (torch.lead logits))
                  then torch.unsqueeze labels else labels).
  assert (Hst : torch.storage labels' = torch.storage labels).
  { unfold labels'. by destruct (decide _). }
  assert (Hsh : torch.shape labels' = torch.lead logits ++ [1%nat]).
  { unfold labels', torch.dim. destruct Hshape as [Hs|Hs]; rewrite Hs.
    - rewrite decide_True by done. cbn [torch.unsqueeze torch.shape].
      by rewrite Hs.
    - rewrite decide_False by (rewrite length_app; simpl; lia). done. }
  unfold torch.values, torch.clamp_min_. unfold_M.
  rewrite Hst, Hids, lookup_alter_eq, Hids, Hsh.
  cbn [fmap option_fmap option_map].
  assert (Hrowsn : length (neg_log_probs logits) = length (torch.rows logits))
    by (unfold neg_log_probs; by rewrite length_fmap).
  change ((λ row, Ropp <$> torch.log_softmax row) <$> torch.rows logits)
    with (neg_log_probs logits).
  rewrite (gather_rowwise
             {| torch.lead := torch.lead logits; torch.vocab := torch.vocab logits;
                torch.rows := neg_log_probs logits |})
    by (cbn [torch.lead torch.rows]; rewrite ?length_fmap; congruence).
  cbn [torch.rows].
  destruct (gather_rows (neg_log_probs logits) (Z.max 0 <$> ids)) as [gs|e]
    eqn:Hg; [|done].
  pose proof (gather_rows_length _ _ _ Hg) as Hgs.
  rewrite length_zip, length_fmap in Hgs.
  rewrite !masked_fill_same
    by (rewrite ?length_fmap, ?numel_snoc_one; lia).
  done.
Qed.

(** The value of the loss on the shapes of a training batch, with the two
    divisions as the code makes them. *)
Lemma label_smoothed_loss_divisions (logits : torch.FloatTensor)
    (labels : torch.Tensor) (epsilon : R) (h : torch.heap) (ids : list Z) :
  h !! torch.storage labels = Some ids →
  shapes_ok logits labels ids →
  labels_ok logits ids →
  (label_smoothed_loss logits labels epsilon h).1 =
    Ok (torch.add
          (torch.mul (1 - epsilon)
             (torch.div
                (torch.Rsum ((λ ri : list R * Z, nth (Z.to_nat ri.2) ri.1 0%R)
                               <$> active_positions logits ids))
                (Z.of_nat (length (active_positions logits ids)))))
          (torch.mul epsilon
             (torch.div
                (torch.Rsum ((λ ri : list R * Z, torch.Rsum ri.1)
                               <$> active_positions logits ids))
                (Z.of_nat (length (active_positions logits ids))
                 * Z.of_nat (torch.vocab logits))))).
Proof.
  intros Hids Hshapes Hlab.
  rewrite (label_smoothed_loss_rowwise _ _ _ _ _ Hids Hshapes).
  destruct Hshapes as (Hshape & Hn & Hlen & Hrows & HV).
  destruct (masked_sums (torch.vocab logits) (neg_log_probs logits) ids)
    as (gs & Hg & Hnll & Hsm & Hcnt).
  { by rewrite Hlen; unfold neg_log_probs; rewrite length_fmap. }
  { unfold neg_log_probs. apply Forall_fmap.
    eapply Forall_impl; [exact Hrows|].
    intros row Hrow. simpl. unfold torch.log_softmax.
    by rewrite !length_fmap. }
  { done. }
  { done. }
  rewrite Hg. unfold active_positions. by rewrite Hnll, Hsm, Hcnt.
Qed.

Lemma div_positive (x : R) (n : Z) :
  (0 < n)%Z → torch.div x n = torch.Finite (x / IZR n).
Proof. intros Hn. unfold torch.div. by rewrite bool_decide_false by lia. Qed.

Lemma div_zero_by_zero : torch.div 0 0 = torch.NaN.
Proof.
  unfold torch.div. rewrite bool_decide_true by done.
  by destruct (Req_dec_T 0 0).
Qed.

Lemma label_smoothed_loss_value (logits : torch.FloatTensor)
    (labels : torch.Tensor) (epsilon : R) (h : torch.heap) (ids : list Z) :
  h !! torch.storage labels = Some ids →
  shapes_ok logits labels ids →
  labels_ok logits ids →
  active_positions logits ids ≠ [] →
  (label_smoothed_loss logits labels epsilon h).1 =
    Ok (torch.Finite ((1 - epsilon) * nll_spec logits ids
                      + epsilon * smoothed_spec logits ids)%R).
Proof.
  intros Hids Hshapes Hlab Hact.
  rewrite (label_smoothed_loss_divisions _ _ _ _ _ Hids Hshapes Hlab).
  assert (0 < torch.vocab logits)%nat as HV by apply Hshapes.
  assert (0 < length (active_positions logits ids))%nat as Hpos
    by (destruct (active_positions logits ids); [done | simpl; lia]).
  rewrite !div_positive by lia. done.
Qed.

Lemma label_smoothed_loss_all_padded (logits : torch.FloatTensor)
    (labels : torch.Tensor) (epsilon : R) (h : torch.heap) (ids : list Z) :
  h !! torch.storage labels = Some ids →
  shapes_ok logits labels ids →
  labels_ok logits ids →
  active_positions logits ids = [] →
  (label_smoothed_loss logits labels epsilon h).1 = Ok torch.NaN.
Proof.
  intros Hids Hshapes Hlab Hact.
  rewrite (label_smoothed_loss_divisions _ _ _ _ _ Hids Hshapes Hlab).
  rewrite Hact. cbn [fmap list_fmap length torch.Rsum foldr].
  change (Z.of_nat 0) with 0%Z. rewrite Z.mul_0_l, div_zero_by_zero. done.
Qed.



(** ** The labels of a batch after the loss *)

Lemma encode_to_loss_heap (self : T5.t) (encode : gmap string torch.Tensor)
    (labels : torch.Tensor) (epsilon : R) (h : torch.heap) (ids : list Z) :
  encode !! "labels" = Some labels →
  T5.label_smoothing self = Some epsilon →
  epsilon ≠ 0%R →
  h !! torch.storage labels = Some ids →
  (T5.encode_to_loss self encode h).2 =
    <[torch.storage labels := Z.max 0 <$> ids]> h.
Proof.
  intros Hl Hs He Hids. unfold T5.encode_to_loss. unfold_M.
  rewrite Hl, Hs. rewrite bool_decide_true by eauto.
  destruct (Req_dec_T epsilon 0); [done|].
  by apply label_smoothed_loss_heap.
Qed.

(** C6 does not hold of the code. A batch whose labels are [[-100; 2]]:
    after [encode_to_loss] with label smoothing, the labels tensor of the
    batch holds [[0; 2]]: [clamp_min_] has overwritten the ignore index in
    the caller's tensor. *)
Theorem C6_labels_clamped_in_place :
  Toy.batch !! "labels" = Some Toy.labels ∧
  Toy.heap !! torch.storage Toy.labels = Some [-100; 2] ∧
  (T5.encode_to_loss (Toy.trainable (1 / 10)) Toy.batch Toy.heap).2
    !! torch.storage Toy.labels = Some [0; 2].
Proof.
  split; [done|]. split; [done|].
  rewrite (encode_to_loss_heap _ _ Toy.labels (1 / 10)%R _ [-100; 2]);
    [done | done | done | lra | done].
Qed.

(** The loss of the same batch, computed a second time, no longer ignores
    the padded position. *)
Example label_smoothed_loss_twice :
  ∃ h1,
    (label_smoothed_loss Toy.logits Toy.labels (1 / 10) Toy.heap).2 = h1 ∧
    h1 !! torch.storage Toy.labels = Some [0; 2] ∧
    length (active_positions Toy.logits [-100; 2]) = 1%nat ∧
    length (active_positions Toy.logits [0; 2]) = 2%nat.
Proof.
  eexists. split; [done|]. split.
  - by rewrite (label_smoothed_loss_heap _ _ _ _ [-100; 2]).
  - split; done.
Qed.

(** * Further properties of the code *)

(** ** The outcomes of [encode_plus] *)

Section encode_plus_outcomes.
Import EncodePlus.
Variable self : EncodePlus.t.

Lemma overflows_dec text o : overflows self text o ∨ ¬ overflows self text o.
Proof.
  unfold overflows.
  destruct (decide (token_count self text > max_length self)) as [?|Hi];
    [by left; left|].
  destruct o as [target|].
  - destruct (decide (token_count self target > max_length_output self))
      as [?|Ho]; [left; right; eauto|].
    right. intros [?|(t & [= <-] & ?)]; done.
  - right. intros [?|(t & [=] & ?)]. done.
Qed.

Lemma check_and_tokenize_fits text o :
  ¬ overflows self text o →
  check_and_tokenize self text o = Ok (Some (tokenize self text o)).
Proof.
  intros Hn. unfold check_and_tokenize.
  destruct (_ || _); [|done].
  rewrite bool_decide_false by (intros ?; apply Hn; by left).
  destruct o as [target|]; [|done].
  rewrite bool_decide_false; [done|]. intros ?. apply Hn. right. eauto.
Qed.

Lemma prepared_None i h :
  prepared self i h = None ↔ ∃ s, h = Some s ∧ ¬ Str.substring_of s i.
Proof.
  unfold prepared. destruct h as [s|].
  - unfold add_highlight. split.
    + case_decide as Hp; [|done]. intros _. exists s. split; [done|].
      by apply find_minus_one_iff.
    + intros (s' & [= <-] & Hn). apply find_minus_one_iff in Hn.
      by rewrite decide_True.
  - split; [done | by intros (s & [=] & _)].
Qed.

Lemma encode_plus_missing i o s :
  ¬ Str.substring_of s i →
  encode_plus self i o (Some s) =
    if skip_highlight_error self then Ok None
    else Raise (HighlightNotFoundError s i).
Proof. intros Hn. unfold encode_plus. by rewrite add_highlight_None. Qed.

End encode_plus_outcomes.

(** X1. [encode_plus] returns [None] in two cases only: the highlight does
    not occur in the input and [skip_highlight_error] is set, or the text or
    the target is too long and [drop_overflow_text] is set. *)
Theorem encode_plus_None_iff (self : EncodePlus.t) (i : string)
    (o h : option string) :
  EncodePlus.encode_plus self i o h = Ok None ↔
  (∃ s, h = Some s ∧ ¬ Str.substring_of s i ∧
        EncodePlus.skip_highlight_error self = true) ∨
  (∃ text, prepared self i h = Some text ∧ overflows self text o ∧
           EncodePlus.drop_overflow_text self = true).
Proof.
  destruct (prepared self i h) as [text|] eqn:Hp.
  - rewrite (encode_plus_prepared _ _ _ _ _ Hp).
    assert (Hnone : ¬ ∃ s, h = Some s ∧ ¬ Str.substring_of s i ∧
                          EncodePlus.skip_highlight_error self = true).
    { intros (s & Hs & Hn & _).
      assert (prepared self i h = None) as Hp' by (apply prepared_None; eauto).
      congruence. }
    destruct (overflows_dec self text o) as [Hov|Hov].
    + rewrite check_and_tokenize_overflow by done. split.
      * intros Hr. right. exists text. repeat split; try done.
        destruct (EncodePlus.drop_overflow_text self); [done|].
        by destruct (EncodePlus.skip_overflow_error self).
      * intros [?|(t & [= <-] & _ & ->)]; done.
    + rewrite check_and_tokenize_fits by done. split; [done|].
      intros [?|(t & [= <-] & ? & _)]; done.
  - apply prepared_None in Hp as (s & -> & Hn).
    rewrite encode_plus_missing by done. split.
    + intros Hr. left. exists s. repeat split; try done.
      by destruct (EncodePlus.skip_highlight_error self).
    + intros [(s' & [= <-] & _ & ->)|(t & Ht & _)]; [done|].
      assert (prepared self i (Some s) = None) by (apply prepared_None; eauto).
      congruence.
Qed.

(** X2. [encode_plus] raises in two cases only, each with its own
    exception: [HighlightNotFoundError(highlight, input)] when the highlight
    does not occur and [skip_highlight_error] is unset, and
    [ExceedMaxLengthError(max_length)] when the text or the target is too
    long and neither [drop_overflow_text] nor [skip_overflow_error] is set. *)
Theorem encode_plus_Raise_iff (self : EncodePlus.t) (i : string)
    (o h : option string) (e : exn) :
  EncodePlus.encode_plus self i o h = Raise e ↔
  (∃ s, h = Some s ∧ ¬ Str.substring_of s i ∧
        EncodePlus.skip_highlight_error self = false ∧
        e = HighlightNotFoundError s i) ∨
  (∃ text, prepared self i h = Some text ∧ overflows self text o ∧
           EncodePlus.drop_overflow_text self = false ∧
           EncodePlus.skip_overflow_error self = false ∧
           e = ExceedMaxLengthError (EncodePlus.max_length self)).
Proof.
  destruct (prepared self i h) as [text|] eqn:Hp.
  - rewrite (encode_plus_prepared _ _ _ _ _ Hp).
    assert (Hnone : ¬ ∃ s, h = Some s ∧ ¬ Str.substring_of s i ∧
                          EncodePlus.skip_highlight_error self = false ∧
                          e = HighlightNotFoundError s i).
    { intros (s & Hs & Hn & _).
      assert (prepared self i h = None) as Hp' by (apply prepared_None; eauto).
      congruence. }
    destruct (overflows_dec self text o) as [Hov|Hov].
    + rewrite check_and_tokenize_overflow by done. split.
      * intros Hr. right. exists text.
        destruct (EncodePlus.drop_overflow_text self); [done|].
        destruct (EncodePlus.skip_overflow_error self); [done|].
        by injection Hr as <-.
      * intros [?|(t & [= <-] & _ & -> & -> & ->)]; done.
    + rewrite check_and_tokenize_fits by done. split; [done|].
      intros [?|(t & [= <-] & ? & _)]; done.
  - apply prepared_None in Hp as (s & -> & Hn).
    rewrite encode_plus_missing by done. split.
    + intros Hr. left. exists s.
      destruct (EncodePlus.skip_highlight_error self); [done|].
      by injection Hr as <-.
    + intros [(s' & [= <-] & _ & -> & ->)|(t & Ht & _)]; [done|].
      assert (prepared self i (Some s) = None) by (apply prepared_None; eauto).
      congruence.
Qed.

(** X3. [encode_plus] returns an encoding exactly when the highlight, if
    any, occurs in the input and either nothing is too long or the overflow
    is neither dropped nor reported; the encoding is then that of the
    prepared text, and it has the fields [input_ids] and [attention_mask],
    and the field [labels] exactly when a target text was given. *)
Theorem encode_plus_Some_iff (self : EncodePlus.t) (i : string)
    (o h : option string) (e : Encoded) :
  (EncodePlus.encode_plus self i o h = Ok (Some e) ↔
   ∃ text, prepared self i h = Some text ∧
           e = EncodePlus.tokenize self text o ∧
           (¬ overflows self text o ∨
            (EncodePlus.drop_overflow_text self = false ∧
             EncodePlus.skip_overflow_error self = true))) ∧
  (EncodePlus.encode_plus self i o h = Ok (Some e) → dom e = fields_of o).
Proof.
  assert (Hiff : EncodePlus.encode_plus self i o h = Ok (Some e) ↔
   ∃ text, prepared self i h = Some text ∧
           e = EncodePlus.tokenize self text o ∧
           (¬ overflows self text o ∨
            (EncodePlus.drop_overflow_text self = false ∧
             EncodePlus.skip_overflow_error self = true))).
  { destruct (prepared self i h) as [text|] eqn:Hp.
    - rewrite (encode_plus_prepared _ _ _ _ _ Hp).
      destruct (overflows_dec self text o) as [Hov|Hov].
      + rewrite check_and_tokenize_overflow by done. split.
        * intros Hr. exists text.
          destruct (EncodePlus.drop_overflow_text self); [done|].
          destruct (EncodePlus.skip_overflow_error self); [|done].
          injection Hr as <-. eauto.
        * intros (t & [= <-] & -> & [?|[-> ->]]); done.
      + rewrite check_and_tokenize_fits by done. split.
        * intros [= <-]. eauto.
        * by intros (t & [= <-] & -> & _).
    - split; [|by intros (t & [=] & _)].
      apply prepared_None in Hp as (s & -> & Hn).
      rewrite encode_plus_missing by done.
      by destruct (EncodePlus.skip_highlight_error self). }
  split; [exact Hiff|].
  intros (text & _ & -> & _)%Hiff.
  unfold EncodePlus.tokenize, BatchEncoding, fields_of.
  destruct o; rewrite ?dom_insert_L, dom_empty_L; set_solver.
Qed.

(** ** What the pipeline leaves on disk *)

(** X4. Without a cache path the whole pipeline makes no call on the
    file system and leaves it as it is, whether it returns or raises:
    [get_data_loader], [generate_prediction], [generate_a], [generate_q]
    and [generate_qa]. *)
Theorem no_cache_path_no_write (self : T5.t) (fs : FS) :
  (∀ inputs outputs highlights task_prefix batch_size drop_last
     drop_overflow_text skip_overflow_error skip_highlight_error,
     (T5.get_data_loader self inputs outputs highlights task_prefix batch_size
        drop_last None drop_overflow_text skip_overflow_error
        skip_highlight_error fs).2 = fs) ∧
  (∀ list_context list_highlight task_type drop_overflow_text
     skip_overflow_error skip_highlight_error batch_size num_beams,
     (T5.generate_prediction self list_context list_highlight task_type
        drop_overflow_text skip_overflow_error skip_highlight_error
        batch_size num_beams None fs).2 = fs) ∧
  (∀ context drop_overflow_text skip_overflow_error batch_size num_beams,
     (T5.generate_a self context drop_overflow_text skip_overflow_error
        batch_size num_beams None fs).2 = fs) ∧
  (∀ list_context list_answer drop_overflow_text skip_overflow_error
     batch_size num_beams,
     (T5.generate_q self list_context list_answer drop_overflow_text
        skip_overflow_error batch_size num_beams None fs).2 = fs) ∧
  (∀ context drop_overflow_text skip_overflow_error batch_size num_beams,
     (T5.generate_qa self context drop_overflow_text skip_overflow_error
        batch_size num_beams None fs).2 = fs).
Proof.
  split; [intros; apply read_only_get_data_loader|].
  split; [intros; apply read_only_generate_prediction|].
  split; [intros; apply read_only_generate_a|].
  split; [intros; apply read_only_generate_q|].
  intros; apply read_only_generate_qa.
Qed.

Lemma encode_and_cache_raise (self : T5.t) data task_prefix
    (drop_overflow_text skip_overflow_error skip_highlight_error : bool) fs e :
  (T5.encode_and_cache self data task_prefix None drop_overflow_text
     skip_overflow_error skip_highlight_error fs).1 = Raise e →
  ∀ cache_path,
    T5.encode_and_cache self data task_prefix cache_path drop_overflow_text
      skip_overflow_error skip_highlight_error fs = (Raise e, fs).
Proof.
  unfold T5.encode_and_cache. unfold_M.
  destruct (for_each _ data) as [l|e'] eqn:Hl; [done|].
  by intros [= <-] cache_path.
Qed.

(** X5. When the encoding of some example raises, the loader raises the
    same exception and writes no cache file: the file system is as it
    was. *)
Theorem encoding_error_writes_nothing (self : T5.t) (inputs : list string)
    (outputs : option (list string)) (highlights : option (list (option string)))
    (task_prefix : option task) (batch_size : option Z) (drop_last : bool)
    (drop_overflow_text skip_overflow_error skip_highlight_error : bool)
    (p : string) (fs : FS) (e : exn) :
  args_ok self inputs outputs highlights task_prefix →
  os.exists_ fs p = false →
  (T5.encode_and_cache self (loader_data inputs outputs highlights)
     (loader_prefix self task_prefix) None drop_overflow_text
     skip_overflow_error skip_highlight_error fs).1 = Raise e →
  T5.get_data_loader self inputs outputs highlights task_prefix batch_size
    drop_last (Some p) drop_overflow_text skip_overflow_error
    skip_highlight_error fs = (Raise e, fs).
Proof.
  intros Hargs Hex He. rewrite get_data_loader_args_ok by done.
  rewrite Hex. unfold bind.
  by rewrite (encode_and_cache_raise _ _ _ _ _ _ _ _ He).
Qed.

Lemma encoding_error_writes_nothing_witness :
  args_ok (Toy.model "Tokyo" 64 8) ["Tokyo is big."; "Kyoto is old."] None
    (Some [Some "Tokyo"; Some "Nara"]) (Some qg) ∧
  os.exists_ Toy.empty_fs "cache/train.pkl" = false ∧
  T5.get_data_loader (Toy.model "Tokyo" 64 8) ["Tokyo is big."; "Kyoto is old."]
    None (Some [Some "Tokyo"; Some "Nara"]) (Some qg) None false
    (Some "cache/train.pkl") false false false Toy.empty_fs
  = (Raise (HighlightNotFoundError "Nara" "Kyoto is old."), Toy.empty_fs).
Proof.
  assert (Hargs : args_ok (Toy.model "Tokyo" 64 8)
            ["Tokyo is big."; "Kyoto is old."] None
            (Some [Some "Tokyo"; Some "Nara"]) (Some qg)).
  { split; [done|]. split; [by intros l [= <-] | done]. }
  split; [exact Hargs|]. split; [done|].
  apply (encoding_error_writes_nothing _ _ _ _ _ _ _ _ _ _ _ _ _ Hargs);
    [done | by_evaluation].
Defined.

Lemma chunks_whole {A} (l : list A) : l ≠ [] → chunks (length l) l = [l].
Proof.
  destruct l as [|x l]; [done|]. intros _. unfold chunks.
  cbn [length chunks_fuel]. rewrite take_ge, drop_ge by (simpl; lia).
  by destruct (length l).
Qed.

Lemma DataLoader_default (out : list Encoded) drop_last :
  DataLoader out (Z.of_nat (length out)) drop_last =
  if decide (out = []) then
    Raise (ValueError "batch_size should be a positive integer value")
  else Ok [out].
Proof.
  unfold DataLoader. destruct (decide (out = [])) as [->|Hne]; [done|].
  rewrite bool_decide_false by (destruct out; simpl; [done | lia]).
  rewrite Nat2Z.id, chunks_whole by done.
  destruct drop_last; [|done]. rewrite filter_cons, decide_True by done.
  by rewrite filter_nil.
Qed.

(** X6. Without a batch size, the loader yields a single batch holding
    every example left after the filter, in the order of the inputs; when
    no example is left, it raises [ValueError] (a batch size of zero). *)
Theorem default_batch_is_whole_dataset (self : T5.t) (inputs : list string)
    (outputs : option (list string)) (highlights : option (list (option string)))
    (task_prefix : option task) (drop_last : bool)
    (drop_overflow_text skip_overflow_error skip_highlight_error : bool)
    (fs : FS) (out : list Encoded) :
  args_ok self inputs outputs highlights task_prefix →
  (T5.encode_and_cache self (loader_data inputs outputs highlights)
     (loader_prefix self task_prefix) None drop_overflow_text
     skip_overflow_error skip_highlight_error fs).1 = Ok out →
  T5.get_data_loader self inputs outputs highlights task_prefix None
    drop_last None drop_overflow_text skip_overflow_error
    skip_highlight_error fs =
  (if decide (out = []) then
     Raise (ValueError "batch_size should be a positive integer value")
   else Ok [out], fs).
Proof.
  intros Hargs Hout. rewrite get_data_loader_args_ok by done. unfold bind.
  pose proof (read_only_encode_and_cache self (loader_data inputs outputs highlights)
                (loader_prefix self task_prefix) drop_overflow_text
                skip_overflow_error skip_highlight_error fs) as Hfs.
  destruct (T5.encode_and_cache _ _ _ _ _ _ _ fs) as [r fs1].
  simpl in Hout, Hfs. subst r fs1. unfold lift. simpl default.
  by rewrite DataLoader_default.
Qed.

Lemma default_batch_is_whole_dataset_witness :
  args_ok (Toy.model "Tokyo" 26 8) ["Tokyo is big."; "Kyoto"; "Nara"] None None
    (Some qg) ∧
  ∃ e1 e2,
    (T5.encode_and_cache (Toy.model "Tokyo" 26 8)
       (loader_data ["Tokyo is big."; "Kyoto"; "Nara"] None None)
       (loader_prefix (Toy.model "Tokyo" 26 8) (Some qg)) None
       true false false Toy.empty_fs).1 = Ok [e1; e2] ∧
    T5.get_data_loader (Toy.model "Tokyo" 26 8) ["Tokyo is big."; "Kyoto"; "Nara"]
      None None (Some qg) None false None true false false Toy.empty_fs
    = (Ok [[e1; e2]], Toy.empty_fs) ∧
    Toy.text <$> (e1 !! "input_ids") = Some "generate question: Kyoto" ∧
    Toy.text <$> (e2 !! "input_ids") = Some "generate question: Nara".
Proof.
  assert (Hargs : args_ok (Toy.model "Tokyo" 26 8)
            ["Tokyo is big."; "Kyoto"; "Nara"] None None (Some qg)) by done.
  split; [exact Hargs|].
  exists (EncodePlus.tokenize (Toy.encoder true false false (Some qg) 26 8)
            "generate question: Kyoto" None),
         (EncodePlus.tokenize (Toy.encoder true false false (Some qg) 26 8)
            "generate question: Nara" None).
  assert (Hout : (T5.encode_and_cache (Toy.model "Tokyo" 26 8)
       (loader_data ["Tokyo is big."; "Kyoto"; "Nara"] None None)
       (loader_prefix (Toy.model "Tokyo" 26 8) (Some qg)) None
       true false false Toy.empty_fs).1 =
     Ok [EncodePlus.tokenize (Toy.encoder true false false (Some qg) 26 8)
           "generate question: Kyoto" None;
         EncodePlus.tokenize (Toy.encoder true false false (Some qg) 26 8)
           "generate question: Nara" None]) by by_evaluation.
  split; [exact Hout|]. split; [|split; by_evaluation].
  rewrite (default_batch_is_whole_dataset _ _ _ _ _ false _ _ _ _ _ Hargs Hout).
  apply run_eq; [by_evaluation | done].
Defined.

Lemma keeps_pickles_on_disk (fs : FS) (d : disk fs) :
  keeps_pickles fs → keeps_pickles (on_disk fs d).
Proof. done. Qed.

Lemma makedirs_keeps_pickles d fs r fs1 :
  os.makedirs d fs = (r, fs1) → keeps_pickles fs → keeps_pickles fs1.
Proof. unfold os.makedirs, syscall. by intros [= _ <-]. Qed.

(** What was saved is found and loaded back. *)
Lemma pickle_save_load obj p fs fs1 :
  keeps_pickles fs →
  pickle_save obj p fs = (Ok (), fs1) →
  os.exists_ fs1 p = true ∧ pickle_load p fs1 = (Ok obj, fs1) ∧
  keeps_pickles fs1.
Proof.
  intros Hk. unfold pickle_save, syscall.
  destruct (dump fs obj p (now fs)) as [r d'] eqn:Hd. cbn [fst snd].
  intros [= -> <-]. destruct (Hk _ _ _ _ Hd) as [Hex Hload].
  split; [exact Hex|]. split; [|done].
  unfold pickle_load, syscall. cbn [load now on_disk]. by rewrite Hload.
Qed.

(** A miss that returns has encoded, made the directories and saved, in
    this order. *)
Lemma encode_and_cache_Some_inv (self : T5.t) data task_prefix
    (drop_overflow_text skip_overflow_error skip_highlight_error : bool)
    p fs r fs2 :
  T5.encode_and_cache self data task_prefix (Some p) drop_overflow_text
    skip_overflow_error skip_highlight_error fs = (r, fs2) →
  (∀ out, r = Ok out →
     (T5.encode_and_cache self data task_prefix None drop_overflow_text
        skip_overflow_error skip_highlight_error fs).1 = Ok out ∧
     ∃ fs1, os.makedirs (os.dirname p) fs = (Ok (), fs1) ∧
            pickle_save out p fs1 = (Ok (), fs2)).
Proof.
  rewrite encode_and_cache_Some.
  destruct (T5.encode_and_cache _ _ _ None _ _ _ fs).1 as [out|e];
    [|by intros [= <- <-] ? [=]].
  destruct (os.makedirs (os.dirname p) fs) as [[[]|e] fs1];
    [|by intros [= <- <-] ? [=]].
  destruct (pickle_save out p fs1) as [[[]|e] fs2'] eqn:Hs;
    [|by intros [= <- <-] ? [=]].
  intros [= <- <-] out' [= <-]. split; [done|]. by exists fs1.
Qed.

Lemma get_data_loader_hit (self : T5.t) inputs outputs highlights task_prefix
    batch_size drop_last p
    (drop_overflow_text skip_overflow_error skip_highlight_error : bool)
    fs cached :
  args_ok self inputs outputs highlights task_prefix →
  os.exists_ fs p = true →
  pickle_load p fs = (Ok cached, fs) →
  T5.get_data_loader self inputs outputs highlights task_prefix batch_size
    drop_last (Some p) drop_overflow_text skip_overflow_error
    skip_highlight_error fs =
  (DataLoader cached (default (Z.of_nat (length cached)) batch_size) drop_last,
   fs).
Proof.
  intros Hargs Hex Hload. rewrite get_data_loader_args_ok by done.
  rewrite Hex. unfold bind. by rewrite Hload.
Qed.

(** What a miss does when the encoding succeeds and the file system lets
    the directories be made and the list be saved. *)
Lemma get_data_loader_miss (self : T5.t) inputs outputs highlights task_prefix
    batch_size drop_last p
    (drop_overflow_text skip_overflow_error skip_highlight_error : bool)
    fs fs1 fs2 out :
  args_ok self inputs outputs highlights task_prefix →
  os.exists_ fs p = false →
  (T5.encode_and_cache self (loader_data inputs outputs highlights)
     (loader_prefix self task_prefix) None drop_overflow_text
     skip_overflow_error skip_highlight_error fs).1 = Ok out →
  os.makedirs (os.dirname p) fs = (Ok (), fs1) →
  pickle_save out p fs1 = (Ok (), fs2) →
  T5.get_data_loader self inputs outputs highlights task_prefix batch_size
    drop_last (Some p) drop_overflow_text skip_overflow_error
    skip_highlight_error fs =
  (DataLoader out (default (Z.of_nat (length out)) batch_size) drop_last, fs2).
Proof.
  intros Hargs Hex Hout Hmk Hsave. rewrite get_data_loader_args_ok by done.
  rewrite Hex. unfold bind. by rewrite encode_and_cache_Some, Hout, Hmk, Hsave.
Qed.

Lemma get_data_loader_miss_inv (self : T5.t) inputs outputs highlights
    task_prefix batch_size drop_last p
    (drop_overflow_text skip_overflow_error skip_highlight_error : bool)
    fs fs2 batches :
  args_ok self inputs outputs highlights task_prefix →
  os.exists_ fs p = false →
  T5.get_data_loader self inputs outputs highlights task_prefix batch_size
    drop_last (Some p) drop_overflow_text skip_overflow_error
    skip_highlight_error fs = (Ok batches, fs2) →
  ∃ out fs1,
    (T5.encode_and_cache self (loader_data inputs outputs highlights)
       (loader_prefix self task_prefix) None drop_overflow_text
       skip_overflow_error skip_highlight_error fs).1 = Ok out ∧
    os.makedirs (os.dirname p) fs = (Ok (), fs1) ∧
    pickle_save out p fs1 = (Ok (), fs2) ∧
    DataLoader out (default (Z.of_nat (length out)) batch_size) drop_last
      = Ok batches.
Proof.
  intros Hargs Hex. rewrite get_data_loader_args_ok by done.
  rewrite Hex. unfold bind.
  destruct (T5.encode_and_cache _ _ _ (Some p) _ _ _ fs) as [r fs2'] eqn:He.
  pose proof (encode_and_cache_Some_inv _ _ _ _ _ _ _ _ _ _ He) as Hinv.
  destruct r as [out|e]; [|discriminate]. unfold lift. intros [= Hb <-].
  destruct (Hinv out eq_refl) as (Hout & fs1 & Hmk & Hsave).
  by exists out, fs1.
Qed.

(** X7. When every example is dropped and a cache path is given, the
    empty list is saved before the loader raises [ValueError] (a batch size
    of zero); on a file system that keeps its pickle files, every later
    call that names this cache path without a batch size loads the empty
    list and raises [ValueError], whatever its inputs. *)
Theorem empty_cache_is_kept (self : T5.t) (inputs : list string)
    (outputs : option (list string)) (highlights : option (list (option string)))
    (task_prefix : option task) (drop_last : bool)
    (drop_overflow_text skip_overflow_error skip_highlight_error : bool)
    (p : string) (fs fs1 fs2 : FS) :
  keeps_pickles fs →
  args_ok self inputs outputs highlights task_prefix →
  os.exists_ fs p = false →
  (T5.encode_and_cache self (loader_data inputs outputs highlights)
     (loader_prefix self task_prefix) None drop_overflow_text
     skip_overflow_error skip_highlight_error fs).1 = Ok [] →
  os.makedirs (os.dirname p) fs = (Ok (), fs1) →
  pickle_save [] p fs1 = (Ok (), fs2) →
  T5.get_data_loader self inputs outputs highlights task_prefix None
    drop_last (Some p) drop_overflow_text skip_overflow_error
    skip_highlight_error fs =
    (Raise (ValueError "batch_size should be a positive integer value"), fs2) ∧
  ∀ inputs' outputs' highlights' task_prefix' drop_last'
    drop_overflow_text' skip_overflow_error' skip_highlight_error',
    args_ok self inputs' outputs' highlights' task_prefix' →
    T5.get_data_loader self inputs' outputs' highlights' task_prefix' None
      drop_last' (Some p) drop_overflow_text' skip_overflow_error'
      skip_highlight_error' fs2 =
    (Raise (ValueError "batch_size should be a positive integer value"), fs2).
Proof.
  intros Hk Hargs Hex Hout Hmk Hsave. split.
  - by rewrite (get_data_loader_miss _ _ _ _ _ _ _ _ _ _ _ _ _ _ _
                  Hargs Hex Hout Hmk Hsave).
  - intros inputs' outputs' highlights' tp' dl' d' s' sh' Hargs'.
    destruct (pickle_save_load _ _ _ _ (makedirs_keeps_pickles _ _ _ _ Hmk Hk)
                Hsave) as (Hex2 & Hload & _).
    by rewrite (get_data_loader_hit _ _ _ _ _ _ _ _ _ _ _ _ _ Hargs' Hex2 Hload).
Qed.

Lemma Toy_keeps_pickles (d : Toy.Disk) : keeps_pickles (Toy.file_system d).
Proof.
  intros d0 obj path d'. cbn [dump load path_exists Toy.file_system].
  unfold Toy.save, Toy.open_, Toy.exists_. unfold_M.
  destruct (_ || _); [done|]. destruct (negb _); [done|].
  intros [= <-]. cbn [Toy.files].
  rewrite lookup_insert_eq. by rewrite bool_decide_true by eauto.
Qed.

Lemma empty_cache_is_kept_witness :
  keeps_pickles Toy.empty_fs ∧
  args_ok (Toy.model "Tokyo" 8 8) ["Tokyo is big."] None None (Some qg) ∧
  os.exists_ Toy.empty_fs "cache/dev.pkl" = false ∧
  (T5.get_data_loader (Toy.model "Tokyo" 8 8) ["Tokyo is big."] None None
     (Some qg) None false (Some "cache/dev.pkl") true false false
     Toy.empty_fs).1 =
    Raise (ValueError "batch_size should be a positive integer value") ∧
  (T5.get_data_loader (Toy.model "Tokyo" 8 8) ["Kyoto"] None None
     (Some qg) None false (Some "cache/dev.pkl") false false false
     (T5.get_data_loader (Toy.model "Tokyo" 8 8) ["Tokyo is big."] None None
        (Some qg) None false (Some "cache/dev.pkl") true false false
        Toy.empty_fs).2).1 =
    Raise (ValueError "batch_size should be a positive integer value").
Proof.
  assert (Hk : keeps_pickles Toy.empty_fs) by apply Toy_keeps_pickles.
  assert (Hargs : args_ok (Toy.model "Tokyo" 8 8) ["Tokyo is big."] None None
                    (Some qg)) by done.
  assert (Hargs' : args_ok (Toy.model "Tokyo" 8 8) ["Kyoto"] None None
                     (Some qg)) by done.
  assert (Hex : os.exists_ Toy.empty_fs "cache/dev.pkl" = false) by done.
  split; [exact Hk|]. split; [exact Hargs|]. split; [exact Hex|].
  destruct (empty_cache_is_kept (Toy.model "Tokyo" 8 8) ["Tokyo is big."] None
              None (Some qg) false true false false "cache/dev.pkl"
              Toy.empty_fs
              (os.makedirs "cache" Toy.empty_fs).2
              (pickle_save [] "cache/dev.pkl"
                 (os.makedirs "cache" Toy.empty_fs).2).2
              Hk Hargs Hex) as [Hfirst Hlater].
  - by_evaluation.
  - apply run_eq; [by_evaluation | done].
  - apply run_eq; [by_evaluation | done].
  - rewrite Hfirst. cbn [fst snd]. split; [done|].
    by rewrite (Hlater ["Kyoto"] None None (Some qg) false false false false
                  Hargs').
Defined.

(** X8. The checks on the arguments come first: lists of different lengths
    raise [AssertionError], and a model without prefixes asked for a task
    other than [qg] raises [ValueError]; in each case nothing is encoded,
    no cache is read, and the file system is as it was. *)
Theorem argument_checks_come_first (self : T5.t) (inputs : list string)
    (outputs : option (list string)) (highlights : option (list (option string)))
    (task_prefix : option task) (batch_size : option Z) (drop_last : bool)
    (cache_path : option string)
    (drop_overflow_text skip_overflow_error skip_highlight_error : bool)
    (fs : FS) :
  ¬ args_ok self inputs outputs highlights task_prefix →
  ∃ e,
    T5.get_data_loader self inputs outputs highlights task_prefix batch_size
      drop_last cache_path drop_overflow_text skip_overflow_error
      skip_highlight_error fs = (Raise e, fs) ∧
    (e = AssertionError ∨ e = ValueError "model is not trained with prefix") ∧
    (e = AssertionError ↔
     (∃ l, outputs = Some l ∧ length l ≠ length inputs) ∨
     (∃ l, highlights = Some l ∧ length l ≠ length inputs)).
Proof.
  intros Hn. unfold T5.get_data_loader. unfold_M.
  assert (Hok : (∀ l, outputs = Some l → length l = length inputs) →
                (∀ l, highlights = Some l → length l = length inputs) →
                (T5.no_prefix self = true →
                 task_prefix = None ∨ task_prefix = Some qg) → False)
    by (intros ???; by apply Hn).
  assert (Hassert : ∀ fs' : FS,
    (∃ l, outputs = Some l ∧ length l ≠ length inputs) ∨
    (∃ l, highlights = Some l ∧ length l ≠ length inputs) →
    ∃ e, (@Raise (list (list Encoded)) AssertionError, fs') = (Raise e, fs') ∧
         (e = AssertionError ∨ e = ValueError "model is not trained with prefix") ∧
         (e = AssertionError ↔
          (∃ l, outputs = Some l ∧ length l ≠ length inputs) ∨
          (∃ l, highlights = Some l ∧ length l ≠ length inputs)))
    by (intros fs' H; exists AssertionError; split; [done|]; split; [by left|done]).
  assert (Hvalue : ∀ fs' : FS,
    (∀ l, outputs = Some l → length l = length inputs) →
    (∀ l, highlights = Some l → length l = length inputs) →
    ∃ e, (@Raise (list (list Encoded))
            (ValueError "model is not trained with prefix"), fs') = (Raise e, fs') ∧
         (e = AssertionError ∨ e = ValueError "model is not trained with prefix") ∧
         (e = AssertionError ↔
          (∃ l, outputs = Some l ∧ length l ≠ length inputs) ∨
          (∃ l, highlights = Some l ∧ length l ≠ length inputs))).
  { intros fs' Ho Hh. eexists. split; [done|]. split; [by right|].
    split; [done|]. intros [(l & Hl & ?)|(l & Hl & ?)].
    - by apply Ho in Hl. - by apply Hh in Hl. }
  destruct outputs as [os|]; [case_bool_decide as Ho|];
    try (apply Hassert; left; by eexists);
    (destruct highlights as [hs|]; [case_bool_decide as Hh|];
     try (apply Hassert; right; by eexists));
    (destruct (T5.no_prefix self) eqn:Hnp; simpl;
     [destruct task_prefix as [t|];
      [rewrite bool_decide_true by eauto;
       destruct (decide (Some t = Some qg)) as [[= ->]|Ht]|]|]);
    try (apply Hvalue; by intros l [= <-]);
    exfalso; apply Hok; try (by intros l [= <-]); eauto; congruence.
Qed.

Lemma argument_checks_come_first_witness :
  ¬ args_ok (Toy.model "Tokyo" 64 8) ["Tokyo is big."; "Kyoto"] None
      (Some [Some "Tokyo"]) (Some qg) ∧
  T5.get_data_loader (Toy.model "Tokyo" 64 8) ["Tokyo is big."; "Kyoto"] None
    (Some [Some "Tokyo"]) (Some qg) None false (Some "cache/dev.pkl")
    false false false Toy.empty_fs = (Raise AssertionError, Toy.empty_fs).
Proof.
  assert (Hn : ¬ args_ok (Toy.model "Tokyo" 64 8) ["Tokyo is big."; "Kyoto"]
                   None (Some [Some "Tokyo"]) (Some qg)).
  { intros (_ & Hh & _). by specialize (Hh _ eq_refl). }
  split; [exact Hn|].
  destruct (argument_checks_come_first (Toy.model "Tokyo" 64 8)
              ["Tokyo is big."; "Kyoto"] None (Some [Some "Tokyo"]) (Some qg)
              None false (Some "cache/dev.pkl") false false false Toy.empty_fs Hn)
    as (e & He & _ & Hiff).
  rewrite He. f_equal. f_equal. apply Hiff. right. by eexists.
Defined.

(** ** The two stages *)

Lemma generate_prediction_inv (self : T5.t) list_context list_highlight
    task_type (drop_overflow_text skip_overflow_error skip_highlight_error : bool)
    batch_size num_beams cache_path fs outs fs1 :
  T5.generate_prediction self list_context list_highlight task_type
    drop_overflow_text skip_overflow_error skip_highlight_error
    batch_size num_beams cache_path fs = (Ok outs, fs1) →
  ∃ loader,
    T5.get_data_loader self list_context None list_highlight (Some task_type)
      batch_size false cache_path drop_overflow_text skip_overflow_error
      skip_highlight_error fs = (Ok loader, fs1) ∧
    outs = decode_batches self num_beams loader.
Proof.
  unfold T5.generate_prediction. unfold_M.
  destruct (T5.get_data_loader _ _ _ _ _ _ _ _ _ _ _ fs) as [[loader|e] s']
    eqn:Hl; [|discriminate].
  intros [= <- <-]. by exists loader.
Qed.

Lemma generate_a_inv (self : T5.t) (context : string)
    (drop_overflow_text skip_overflow_error : bool) (batch_size : option Z)
    (num_beams : Z) (cache_path : option string) fs answers fs1 :
  T5.generate_a self context drop_overflow_text skip_overflow_error
    batch_size num_beams cache_path fs = (Ok answers, fs1) →
  T5.no_prefix self = false ∧
  answers ≠ [] ∧
  ∃ outs,
    T5.generate_prediction self
      (replicate (length (T5.sentence_splitter self context)) context)
      (Some (T5.clean <$> T5.sentence_splitter self context)) ans_ext
      drop_overflow_text skip_overflow_error false batch_size num_beams
      cache_path fs = (Ok outs, fs1) ∧
    answers = filter (λ x, Str.contains context x = true)
                (filter (λ x, x ≠ "") (strip <$> outs)).
Proof.
  unfold T5.generate_a. unfold bind at 1.
  destruct (T5.no_prefix self); [discriminate|]. simpl.
  rewrite length_fmap. unfold bind.
  destruct (T5.generate_prediction _ _ _ _ _ _ _ _ _ _ fs) as [[outs|e] s']
    eqn:Hp; [|discriminate].
  rewrite filter_None_clean. case_bool_decide as Hlen; [discriminate|].
  intros [= <- <-]. split; [done|]. split.
  - intros He. by rewrite He in Hlen.
  - by exists outs.
Qed.

Lemma filter_length_eq {A} (P : A → Prop) `{∀ x, Decision (P x)} (l : list A) :
  length (filter P l) = length l → filter P l = l.
Proof.
  induction l as [|x l IH]; [done|]. rewrite filter_cons.
  pose proof (length_filter P l) as Hle.
  destruct (decide (P x)); simpl; intros Hlen.
  - f_equal. apply IH. lia.
  - lia.
Qed.

(** X9. [generate_qa] hands its cache path to both stages. When nothing
    exists at the path at the start and the file system keeps its pickle
    files, the question stage finds the file the answer stage has just
    saved, loads the encodings of the answer stage and decodes them again:
    whenever [generate_qa] returns, each question of its result is a raw
    output of the answer-extraction stage, paired with that same output
    trimmed. *)
Theorem generate_qa_cache_replays_answers (self : T5.t) (context : string)
    (drop_overflow_text skip_overflow_error : bool) (batch_size : option Z)
    (num_beams : Z) (p : string) (fs fs' : FS) (pairs : list (string * string)) :
  keeps_pickles fs →
  os.exists_ fs p = false →
  T5.generate_qa self context drop_overflow_text skip_overflow_error
    batch_size num_beams (Some p) fs = (Ok pairs, fs') →
  ∃ outs,
    T5.generate_prediction self
      (replicate (length (T5.sentence_splitter self context)) context)
      (Some (T5.clean <$> T5.sentence_splitter self context)) ans_ext
      drop_overflow_text skip_overflow_error false batch_size num_beams
      (Some p) fs = (Ok outs, fs') ∧
    pairs = (λ o, (o, strip o)) <$> outs.
Proof.
  intros Hk Hex Hqa.
  apply generate_qa_inv in Hqa as (la & lq & fs1 & Ha & Hq & Hlen & ->).
  apply generate_a_inv in Ha as (Hnp & _ & outs & Hpred & Hla).
  pose proof Hpred as Hpred'.
  apply generate_prediction_inv in Hpred' as (loader & Hl & Houts).
  assert (Hargs : args_ok self
            (replicate (length (T5.sentence_splitter self context)) context)
            None (Some (T5.clean <$> T5.sentence_splitter self context))
            (Some ans_ext)).
  { split; [done|]. split; [|congruence].
    intros l [= <-]. by rewrite length_fmap, length_replicate. }
  apply get_data_loader_miss_inv in Hl
    as (out & fs0 & _ & Hmk & Hsave & Hl); [|done..].
  destruct (pickle_save_load _ _ _ _ (makedirs_keeps_pickles _ _ _ _ Hmk Hk)
              Hsave) as (Hex1 & Hload & _).
  assert (Hargs' : args_ok self (replicate (length la) context) None
            ((λ l : list string, Some <$> l) <$> Some la) (Some qg)).
  { split; [done|]. split; [|congruence].
    intros l [= <-]. by rewrite length_fmap, length_replicate. }
  unfold T5.generate_q, T5.generate_prediction in Hq. unfold bind in Hq.
  rewrite (get_data_loader_hit _ _ _ _ _ _ _ _ _ _ _ _ out Hargs' Hex1 Hload)
    in Hq.
  rewrite Hl in Hq. unfold ret in Hq. injection Hq as <- <-.
  fold (decode_batches self num_beams loader) in Hlen |- *. rewrite <- Houts in *.
  exists outs. split; [done|].
  assert (Hall : la = strip <$> outs).
  { assert (length la = length (strip <$> outs)) as Hlen'
      by (by rewrite length_fmap).
    pose proof (length_filter (λ x, Str.contains context x = true)
                  (filter (λ x, x ≠ "") (strip <$> outs))) as H1.
    pose proof (length_filter (λ x : string, x ≠ "") (strip <$> outs)) as H2.
    rewrite <- Hla in H1.
    assert (HQ : filter (λ x : string, x ≠ "") (strip <$> outs) = strip <$> outs)
      by (apply filter_length_eq; lia).
    rewrite HQ in Hla. rewrite Hla. apply filter_length_eq.
    rewrite <- Hla. lia. }
  rewrite Hall. clear. induction outs as [|o outs IH]; [done|].
  rewrite !fmap_cons. cbn [zip zip_with]. f_equal. exact IH.
Qed.

Lemma generate_qa_cache_replays_answers_witness :
  keeps_pickles Toy.empty_fs ∧
  os.exists_ Toy.empty_fs "cache/qa.pkl" = false ∧
  (T5.generate_qa (Toy.model " Tokyo " 64 8) "Tokyo is big." false false None 4
     (Some "cache/qa.pkl") Toy.empty_fs).1 = Ok [(" Tokyo ", "Tokyo")] ∧
  ∃ outs,
    T5.generate_prediction (Toy.model " Tokyo " 64 8)
      (replicate
         (length (T5.sentence_splitter (Toy.model " Tokyo " 64 8) "Tokyo is big."))
         "Tokyo is big.")
      (Some (T5.clean <$> T5.sentence_splitter (Toy.model " Tokyo " 64 8)
                            "Tokyo is big."))
      ans_ext false false false None 4 (Some "cache/qa.pkl") Toy.empty_fs
      = (Ok outs,
         (T5.generate_qa (Toy.model " Tokyo " 64 8) "Tokyo is big." false false
            None 4 (Some "cache/qa.pkl") Toy.empty_fs).2) ∧
    [(" Tokyo ", "Tokyo")] = (λ o, (o, strip o)) <$> outs.
Proof.
  assert (Hk : keeps_pickles Toy.empty_fs) by apply Toy_keeps_pickles.
  assert (Hex : os.exists_ Toy.empty_fs "cache/qa.pkl" = false) by done.
  assert (Hrun : (T5.generate_qa (Toy.model " Tokyo " 64 8) "Tokyo is big."
                    false false None 4 (Some "cache/qa.pkl") Toy.empty_fs).1
                 = Ok [(" Tokyo ", "Tokyo")]) by by_evaluation.
  split; [exact Hk|]. split; [exact Hex|]. split; [exact Hrun|].
  apply (generate_qa_cache_replays_answers _ _ _ _ _ _ _ _ _ _ Hk Hex).
  by apply run_eq.
Defined.

(** X10. A cache that was saved is found again. On a file system that
    keeps its pickle files, when a call with a cache path at which nothing
    exists returns its batches, these are the batches of the same call
    without cache path, and every later call that names this cache path
    with the same batch size and [drop_last] loads the saved list and
    returns the same batches again, whatever its inputs, and leaves the
    file system as it is. *)
Theorem cache_round_trip (self : T5.t) (inputs : list string)
    (outputs : option (list string)) (highlights : option (list (option string)))
    (task_prefix : option task) (batch_size : option Z) (drop_last : bool)
    (drop_overflow_text skip_overflow_error skip_highlight_error : bool)
    (p : string) (fs fs' : FS) (batches : list (list Encoded)) :
  keeps_pickles fs →
  args_ok self inputs outputs highlights task_prefix →
  os.exists_ fs p = false →
  T5.get_data_loader self inputs outputs highlights task_prefix batch_size
    drop_last (Some p) drop_overflow_text skip_overflow_error
    skip_highlight_error fs = (Ok batches, fs') →
  T5.get_data_loader self inputs outputs highlights task_prefix batch_size
    drop_last None drop_overflow_text skip_overflow_error
    skip_highlight_error fs = (Ok batches, fs) ∧
  os.exists_ fs' p = true ∧
  ∀ inputs' outputs' highlights' task_prefix'
    drop_overflow_text' skip_overflow_error' skip_highlight_error',
    args_ok self inputs' outputs' highlights' task_prefix' →
    T5.get_data_loader self inputs' outputs' highlights' task_prefix'
      batch_size drop_last (Some p) drop_overflow_text' skip_overflow_error'
      skip_highlight_error' fs' = (Ok batches, fs').
Proof.
  intros Hk Hargs Hex Hl.
  apply get_data_loader_miss_inv in Hl
    as (out & fs0 & Hout & Hmk & Hsave & Hl); [|done..].
  destruct (pickle_save_load _ _ _ _ (makedirs_keeps_pickles _ _ _ _ Hmk Hk)
              Hsave) as (Hex' & Hload & _).
  split; [|split; [exact Hex'|]].
  - rewrite get_data_loader_args_ok by done. unfold bind, lift.
    by rewrite encode_and_cache_None, Hout, Hl.
  - intros inputs' outputs' highlights' tp' d' s' sh' Hargs'.
    by rewrite (get_data_loader_hit _ _ _ _ _ _ _ _ _ _ _ _ _ Hargs' Hex' Hload),
      Hl.
Qed.

Lemma cache_round_trip_witness :
  keeps_pickles Toy.empty_fs ∧
  args_ok (Toy.model "Tokyo" 32 8) ["Kyoto"] None None (Some qg) ∧
  os.exists_ Toy.empty_fs "cache/dev.pkl" = false ∧
  (T5.get_data_loader (Toy.model "Tokyo" 32 8) ["Kyoto"] None None (Some qg)
     None false (Some "cache/dev.pkl") false false false Toy.empty_fs).1
    = Ok [[Toy.encoded_question "Kyoto" 32 8]] ∧
  (T5.get_data_loader (Toy.model "Tokyo" 32 8) ["Tokyo"] None None (Some qg)
     None false (Some "cache/dev.pkl") false false false
     (T5.get_data_loader (Toy.model "Tokyo" 32 8) ["Kyoto"] None None (Some qg)
        None false (Some "cache/dev.pkl") false false false Toy.empty_fs).2).1
    = Ok [[Toy.encoded_question "Kyoto" 32 8]].
Proof.
  assert (Hk : keeps_pickles Toy.empty_fs) by apply Toy_keeps_pickles.
  assert (Hargs : args_ok (Toy.model "Tokyo" 32 8) ["Kyoto"] None None
                    (Some qg)) by done.
  assert (Hargs' : args_ok (Toy.model "Tokyo" 32 8) ["Tokyo"] None None
                     (Some qg)) by done.
  assert (Hex : os.exists_ Toy.empty_fs "cache/dev.pkl" = false) by done.
  assert (Hrun : (T5.get_data_loader (Toy.model "Tokyo" 32 8) ["Kyoto"] None
                    None (Some qg) None false (Some "cache/dev.pkl") false false
                    false Toy.empty_fs).1
                 = Ok [[Toy.encoded_question "Kyoto" 32 8]]) by by_evaluation.
  split; [exact Hk|]. split; [exact Hargs|]. split; [exact Hex|].
  split; [exact Hrun|].
  destruct (cache_round_trip (Toy.model "Tokyo" 32 8) ["Kyoto"] None None
              (Some qg) None false false false false "cache/dev.pkl"
              Toy.empty_fs _ _ Hk Hargs Hex (run_eq _ _ _ Hrun eq_refl))
    as (_ & _ & Hlater).
  by rewrite (Hlater ["Tokyo"] None None (Some qg) false false false Hargs').
Defined.

(** X11. What [generate_a] returns is never the empty list, and each of
    its answers is not empty, has no white space at either end, and occurs
    in the context: the highlighter finds it there. *)
Theorem generate_a_answers_are_spans (self : T5.t) (context : string)
    (drop_overflow_text skip_overflow_error : bool) (batch_size : option Z)
    (num_beams : Z) (cache_path : option string) (fs fs1 : FS)
    (answers : list string) :
  T5.generate_a self context drop_overflow_text skip_overflow_error
    batch_size num_beams cache_path fs = (Ok answers, fs1) →
  answers ≠ [] ∧
  ∀ a, a ∈ answers →
    a ≠ "" ∧
    (∀ c t, a = String c t → T5.isspace c = false) ∧
    (∀ t c, a = t +:+ String c "" → T5.isspace c = false) ∧
    Str.substring_of a context ∧
    ∃ n, first_occurrence a context n ∧
         EncodePlus.add_highlight context a =
           Some (Str.take n context +:+ "<hl> " +:+ a +:+ " <hl>"
                 +:+ Str.drop (n + String.length a) context).
Proof.
  intros (_ & Hne & outs & _ & ->)%generate_a_inv. split; [done|].
  intros a Ha.
  apply list_elem_of_filter in Ha as [Hsub Ha].
  apply list_elem_of_filter in Ha as [Hnon Ha].
  apply list_elem_of_fmap in Ha as (o & -> & _).
  apply contains_spec in Hsub.
  destruct (strip_spec o) as (l & r & _ & _ & _ & Hfirst & Hlast).
  repeat split; try done.
  destruct (find_from_some 0 _ _ Hsub) as (n & Hn & _).
  exists n. split; [done | by apply add_highlight_Some].
Qed.

Lemma generate_a_answers_are_spans_witness :
  T5.generate_a (Toy.model " Tokyo " 64 8) "Tokyo is big." false false None 4
    None Toy.empty_fs = (Ok ["Tokyo"], Toy.empty_fs) ∧
  ["Tokyo"] ≠ [] ∧
  EncodePlus.add_highlight "Tokyo is big." "Tokyo" = Some "<hl> Tokyo <hl> is big.".
Proof.
  assert (Hrun : T5.generate_a (Toy.model " Tokyo " 64 8) "Tokyo is big." false
                   false None 4 None Toy.empty_fs = (Ok ["Tokyo"], Toy.empty_fs))
    by (apply run_eq; [by_evaluation | apply read_only_generate_a]).
  split; [exact Hrun|].
  split; [exact (proj1 (generate_a_answers_are_spans _ _ _ _ _ _ _ _ _ _ Hrun))|].
  by_evaluation.
Defined.

(** ** [clean] *)

Section clean_facts.
Import T5.
Local Arguments String.append !_ _ / : simpl nomatch.

Lemma all_space_app a b : all_space (a +:+ b) = all_space a && all_space b.
Proof.
  induction a as [|c a IH]; simpl; [done|]. rewrite IH. by rewrite andb_assoc.
Qed.

Lemma strip_leading_all_space s : all_space s = true → strip_leading s = "".
Proof.
  induction s as [|c s IH]; simpl; [done|].
  intros [Hc Hs]%andb_true_iff. rewrite Hc. by apply IH.
Qed.

Lemma strip_leading_head c t : isspace c = false → strip_leading (String c t) = String c t.
Proof. intros Hc. simpl. by rewrite Hc. Qed.

Lemma strip_trailing_idemp s : strip_trailing (strip_trailing s) = strip_trailing s.
Proof.
  induction s as [|c s IH]; [done|]. rewrite strip_trailing_cons.
  destruct (bool_decide (strip_trailing s = "") && isspace c) eqn:Hb; [done|].
  rewrite strip_trailing_cons, IH. by rewrite Hb.
Qed.

Lemma strip_idemp s : strip (strip s) = strip s.
Proof.
  unfold strip at 1 3. fold (strip s).
  destruct (strip_spec s) as (_ & _ & _ & _ & _ & Hfirst & _).
  assert (strip_leading (strip s) = strip s) as ->.
  { destruct (strip s) as [|c t] eqn:Hs; [done|].
    apply strip_leading_head. by eapply Hfirst. }
  unfold strip. apply strip_trailing_idemp.
Qed.

End clean_facts.

(** X12. [clean] returns [None] exactly on the strings made of white space
    only (the empty string among them); otherwise it returns the string
    without the white space at its two ends, which is not empty and which
    [clean] leaves as it is. *)
Theorem clean_blank_or_trimmed (s : string) :
  (T5.clean s = None ↔ all_space s = true) ∧
  (∀ t, T5.clean s = Some t →
        t ≠ "" ∧ T5.clean t = Some t ∧
        ∃ l r, s = l +:+ t +:+ r ∧ all_space l = true ∧ all_space r = true).
Proof.
  rewrite clean_strip. split.
  - destruct (decide (strip s = "")) as [He|He].
    + split; [intros _ | done].
      destruct (strip_spec s) as (l & r & Hs & Hl & Hr & _).
      rewrite He in Hs. rewrite Hs, !all_space_app, Hl, Hr. done.
    + split; [done|]. intros Hall. exfalso. apply He.
      unfold strip. by rewrite strip_leading_all_space.
  - intros t. destruct (decide (strip s = "")) as [He|He]; [done|].
    intros [= <-]. split; [done|]. split.
    + rewrite clean_strip, strip_idemp. by rewrite decide_False.
    + destruct (strip_spec s) as (l & r & Hs & Hl & Hr & _). eauto.
Qed.

(** ** Batches *)

Lemma concat_fmap_chunks {A B} (f : list A → list B) (n : nat) (l : list A) :
  (0 < n)%nat →
  f [] = [] →
  (∀ l1 l2, f (l1 ++ l2) = f l1 ++ f l2) →
  concat (f <$> chunks n l) = f l.
Proof.
  intros Hn Hnil Happ.
  assert (H : ∀ ls, concat (f <$> ls) = f (concat ls)).
  { induction ls as [|x ls IH]; [done|].
    rewrite fmap_cons. cbn [concat]. by rewrite IH, Happ. }
  by rewrite H, concat_chunks.
Qed.

Lemma app_self_nil {A} (l : list A) : l = l ++ l → l = [].
Proof.
  intros H. apply (f_equal length) in H. rewrite length_app in H.
  destruct l; [done | simpl in H; lia].
Qed.

Lemma decode_batches_chunks (self : T5.t) num_beams (n : nat) out :
  per_example self → (0 < n)%nat →
  decode_batches self num_beams (chunks n out) =
  tok_batch_decode (T5.tokenizer self)
    (T5.generate self out (T5.max_length_output self) num_beams).
Proof.
  intros [Hg Hd] Hn. unfold decode_batches.
  apply (concat_fmap_chunks
           (λ b, tok_batch_decode (T5.tokenizer self)
                   (T5.generate self b (T5.max_length_output self) num_beams)));
    [done | |].
  - assert (T5.generate self [] (T5.max_length_output self) num_beams = []) as ->
      by (apply app_self_nil; by rewrite <- Hg).
    apply app_self_nil. by rewrite <- Hd.
  - intros l1 l2. by rewrite Hg, Hd.
Qed.



(** ** More on the loss *)

(** X14. Whatever it returns or raises, [label_smoothed_loss] leaves in the
    storage of the labels it was passed each label [l] replaced by
    [max(0, l)], and leaves every other storage as it was; the store is
    unchanged exactly when no label was negative. *)
Theorem loss_clamps_labels_in_place (logits : torch.FloatTensor)
    (labels : torch.Tensor) (epsilon : R) (h : torch.heap) (ids : list Z) :
  h !! torch.storage labels = Some ids →
  (label_smoothed_loss logits labels epsilon h).2 !! torch.storage labels =
    Some (Z.max 0 <$> ids) ∧
  (∀ k, k ≠ torch.storage labels →
        (label_smoothed_loss logits labels epsilon h).2 !! k = h !! k) ∧
  ((label_smoothed_loss logits labels epsilon h).2 = h ↔
   Forall (λ l, 0 ≤ l) ids).
Proof.
  intros Hids. rewrite (label_smoothed_loss_heap _ _ _ _ _ Hids).
  split; [apply lookup_insert_eq|]. split.
  - intros k Hk. by apply lookup_insert_ne.
  - assert (Hmax : Z.max 0 <$> ids = ids ↔ Forall (λ l, 0 ≤ l) ids).
    { clear. induction ids as [|l ids IH]; [by split; [constructor|]|].
      rewrite fmap_cons, Forall_cons. split.
      - intros Heq. injection Heq as Hl Hr.
        split; [clear -Hl; lia | by apply IH].
      - intros [Hl Hr]. f_equal; [clear -Hl; lia | by apply IH]. }
    split.
    + intros Heq. apply Hmax.
      apply (f_equal (λ m : torch.heap, m !! torch.storage labels)) in Heq.
      rewrite lookup_insert_eq, Hids in Heq. by injection Heq.
    + intros Hall. apply Hmax in Hall. rewrite Hall. by apply insert_id.
Qed.

Lemma loss_clamps_labels_in_place_witness :
  Toy.heap !! torch.storage Toy.labels = Some Toy.ids ∧
  (label_smoothed_loss Toy.logits Toy.labels (1 / 10) Toy.heap).2
    !! torch.storage Toy.labels = Some [0; 2] ∧
  (label_smoothed_loss Toy.logits Toy.labels (1 / 10) Toy.heap).2 !! 1%nat
    = Some [7; 8].
Proof.
  assert (Hids : Toy.heap !! torch.storage Toy.labels = Some Toy.ids) by done.
  split; [exact Hids|].
  destruct (loss_clamps_labels_in_place Toy.logits Toy.labels (1 / 10)%R
              Toy.heap Toy.ids Hids) as (H1 & H2 & _).
  split; [exact H1|]. rewrite (H2 1%nat) by done. done.
Defined.

Lemma filter_all {A} (P : A → Prop) `{∀ x, Decision (P x)} (l : list A) :
  Forall P l → filter P l = l.
Proof.
  induction 1 as [|x l Hx _ IH]; [done|].
  rewrite filter_cons, decide_True by done. by rewrite IH.
Qed.

Lemma active_positions_clamped (logits : torch.FloatTensor) (ids : list Z) :
  length ids = length (torch.rows logits) →
  length (active_positions logits (Z.max 0 <$> ids)) = length ids.
Proof.
  intros Hlen. unfold active_positions.
  rewrite filter_all.
  - rewrite length_zip. unfold neg_log_probs. rewrite !length_fmap. lia.
  - apply Forall_forall. intros [row l] Hin.
    apply elem_of_zip_r in Hin. apply list_elem_of_fmap in Hin as (l' & -> & _).
    simpl. unfold CE_IGNORE_INDEX. lia.
Qed.

(** X15. The loss computed a second time from the same labels tensor no
    longer ignores the padded positions: the first call has replaced the
    ignore index by [0], so the second call counts every position and
    scores a padded one as if its label were the vocabulary entry [0]. *)
Theorem second_loss_counts_padding (logits : torch.FloatTensor)
    (labels : torch.Tensor) (epsilon epsilon' : R) (h : torch.heap)
    (ids : list Z) :
  h !! torch.storage labels = Some ids →
  shapes_ok logits labels ids →
  labels_ok logits ids →
  ids ≠ [] →
  (label_smoothed_loss logits labels epsilon'
     (label_smoothed_loss logits labels epsilon h).2).1 =
    Ok (torch.Finite ((1 - epsilon') * nll_spec logits (Z.max 0 <$> ids)
                      + epsilon' * smoothed_spec logits (Z.max 0 <$> ids))%R) ∧
  length (active_positions logits (Z.max 0 <$> ids)) = length ids.
Proof.
  intros Hids Hshapes Hlab Hne.
  destruct Hshapes as (Hshape & Hn & Hlen & Hrows & HV).
  pose proof (active_positions_clamped logits ids Hlen) as Hall.
  split; [|exact Hall].
  apply label_smoothed_loss_value.
  - rewrite (label_smoothed_loss_heap _ _ _ _ _ Hids). apply lookup_insert_eq.
  - repeat split; try done. by rewrite length_fmap.
  - unfold labels_ok in *. apply Forall_fmap.
    eapply Forall_impl; [exact Hlab|]. intros l Hl. simpl. right.
    unfold CE_IGNORE_INDEX in Hl. lia.
  - intros He. rewrite He in Hall. by destruct ids.
Qed.

Lemma second_loss_counts_padding_witness :
  Toy.heap !! torch.storage Toy.labels = Some Toy.ids ∧
  shapes_ok Toy.logits Toy.labels Toy.ids ∧
  labels_ok Toy.logits Toy.ids ∧
  Toy.ids ≠ [] ∧
  length (active_positions Toy.logits Toy.ids) = 1%nat ∧
  length (active_positions Toy.logits (Z.max 0 <$> Toy.ids)) = 2%nat.
Proof.
  assert (Hids : Toy.heap !! torch.storage Toy.labels = Some Toy.ids) by done.
  assert (Hshapes : shapes_ok Toy.logits Toy.labels Toy.ids).
  { split; [by left|]. split; [done|]. split; [done|]. split; [|simpl; lia].
    by repeat constructor. }
  assert (Hlab : labels_ok Toy.logits Toy.ids).
  { unfold labels_ok, Toy.ids. constructor; [by left|].
    constructor; [right; simpl; lia | constructor]. }
  split; [exact Hids|]. split; [exact Hshapes|]. split; [exact Hlab|].
  split; [done|]. split; [done|].
  exact (proj2 (second_loss_counts_padding Toy.logits Toy.labels (1 / 10)
                  (1 / 10) Toy.heap Toy.ids Hids Hshapes Hlab
                  (λ H, eq_ind [] (λ l, match l with [] => True | _ => False end)
                          I _ (eq_sym H)))).
Defined.

(** X16. Without label smoothing ([None] or [0]) [encode_to_loss] returns
    the loss of the network and writes nothing: the labels of the batch
    keep the ignore index. A batch without the field [labels] raises
    [AssertionError], whatever the smoothing. *)
Theorem encode_to_loss_without_smoothing (self : T5.t)
    (encode : gmap string torch.Tensor) (h : torch.heap) :
  (encode !! "labels" = None →
   T5.encode_to_loss self encode h = (Raise AssertionError, h)) ∧
  (is_Some (encode !! "labels") →
   T5.label_smoothing self = None ∨ T5.label_smoothing self = Some 0%R →
   T5.encode_to_loss self encode h =
     (Ok (T5.forward self
            ((λ x, (torch.shape x, default [] (h !! torch.storage x)))
               <$> encode)).1, h)).
Proof.
  unfold T5.encode_to_loss. unfold_M. split.
  - intros ->. by rewrite bool_decide_false by (by intros [? ?]).
  - intros Hl Hs. rewrite bool_decide_true by done.
    destruct Hs as [-> | ->]; [done|].
    by destruct (Req_dec_T 0 0).
Qed.

Section loss_sign.
Import torch.
Local Open Scope R_scope.

Lemma Rsum_nonneg (l : list R) : Forall (λ x, 0 <= x) l → 0 <= Rsum l.
Proof.
  unfold Rsum. induction 1 as [|x l Hx _ IH]; simpl; lra.
Qed.

Lemma Rsum_exp_ge (row : list R) (x : R) :
  x ∈ row → exp x <= Rsum (exp <$> row).
Proof.
  assert (Hpos : ∀ l : list R, 0 <= Rsum (exp <$> l)).
  { intros l. apply Rsum_nonneg, Forall_fmap, Forall_true.
    intros y. simpl. pose proof (exp_pos y). lra. }
  induction row as [|y row IH]; [by intros ?%elem_of_nil|].
  rewrite fmap_cons. cbn [Rsum foldr]. fold (Rsum (exp <$> row)).
  intros [->|Hin]%elem_of_cons.
  - specialize (Hpos row). lra.
  - specialize (IH Hin). pose proof (exp_pos y). lra.
Qed.

Lemma neg_log_softmax_nonneg (row : list R) :
  Forall (λ x, 0 <= x) (Ropp <$> log_softmax row).
Proof.
  unfold log_softmax. apply Forall_fmap, Forall_fmap, Forall_forall.
  intros x Hx. simpl.
  pose proof (Rsum_exp_ge row x Hx) as Hle. pose proof (exp_pos x) as Hpos.
  assert (x <= ln (Rsum (exp <$> row))); [|lra].
  rewrite <- (ln_exp x) at 1.
  destruct Hle as [Hlt|Heq].
  - left. by apply ln_increasing.
  - rewrite Heq. lra.
Qed.

Lemma Rdiv_nonneg (a b : R) : 0 <= a → 0 <= b → 0 <= a / b.
Proof.
  intros Ha [Hb|<-].
  - apply Rmult_le_pos; [done|]. left. by apply Rinv_0_lt_compat.
  - unfold Rdiv. rewrite Rinv_0. lra.
Qed.

Lemma specs_nonneg (logits : FloatTensor) (ids : list Z) :
  0 <= nll_spec logits ids ∧ 0 <= smoothed_spec logits ids.
Proof.
  assert (Hrows : Forall (λ ri : list R * Z, Forall (λ x, 0 <= x) ri.1)
                    (active_positions logits ids)).
  { unfold active_positions. apply Forall_forall. intros [row l] Hin.
    apply list_elem_of_filter in Hin as [_ Hin]. apply elem_of_zip_l in Hin.
    unfold neg_log_probs in Hin.
    apply list_elem_of_fmap in Hin as (row' & -> & _).
    apply neg_log_softmax_nonneg. }
  unfold nll_spec, smoothed_spec. split; apply Rdiv_nonneg.
  - apply Rsum_nonneg, Forall_fmap. eapply Forall_impl; [exact Hrows|].
    intros [row l] Hrow. simpl in *.
    destruct (nth_in_or_default (Z.to_nat l) row 0) as [Hin | ->]; [|lra].
    rewrite Forall_forall in Hrow. apply Hrow. by apply list_elem_of_In.
  - apply IZR_le. lia.
  - apply Rsum_nonneg, Forall_fmap. eapply Forall_impl; [exact Hrows|].
    intros [row l] Hrow. simpl in *. by apply Rsum_nonneg.
  - apply IZR_le. lia.
Qed.

End loss_sign.



Lemma gather_out_of_bounds (V : nat) (input : list (list R)) (index : list Z)
    (i : nat) (l : Z) :
  length index = length input →
  Forall (λ row, length row = V) input →
  index !! i = Some l → Z.of_nat V ≤ l →
  gather_rows input index = Raise (RuntimeError "index out of bounds").
Proof.
  intros Hlen Hrows. revert index i Hlen.
  induction Hrows as [|row input Hrow _ IH]; intros index i Hlen Hi Hl.
  - destruct index; [by rewrite lookup_nil in Hi | done].
  - destruct index as [|j index]; [done|]. injection Hlen as Hlen.
    rewrite gather_rows_cons.
    destruct i as [|i]; simpl in Hi.
    + injection Hi as ->. rewrite bool_decide_true by lia.
      rewrite lookup_ge_None_2 by lia. done.
    + rewrite (IH index i Hlen Hi Hl).
      by destruct (if bool_decide (0 ≤ j) then row !! Z.to_nat j else None).
Qed.

(** X18. A label that is not below the vocabulary size makes the loss
    raise [RuntimeError] at the gather; the labels have been clamped in
    place by then. *)
Theorem loss_rejects_label_beyond_vocabulary (logits : torch.FloatTensor)
    (labels : torch.Tensor) (epsilon : R) (h : torch.heap) (ids : list Z)
    (i : nat) (l : Z) :
  h !! torch.storage labels = Some ids →
  shapes_ok logits labels ids →
  ids !! i = Some l →
  Z.of_nat (torch.vocab logits) ≤ l →
  label_smoothed_loss logits labels epsilon h =
    (Raise (RuntimeError "index out of bounds"),
     <[torch.storage labels := Z.max 0 <$> ids]> h).
Proof.
  intros Hids Hshapes Hi Hl.
  apply run_eq; [|by apply label_smoothed_loss_heap].
  rewrite (label_smoothed_loss_rowwise _ _ _ _ _ Hids Hshapes).
  destruct Hshapes as (Hshape & Hn & Hlen & Hrows & HV).
  rewrite (gather_out_of_bounds (torch.vocab logits) _ _ i l); [done | | | |done].
  - unfold neg_log_probs. by rewrite !length_fmap.
  - unfold neg_log_probs. apply Forall_fmap.
    eapply Forall_impl; [exact Hrows|].
    intros row Hrow. simpl. unfold torch.log_softmax. by rewrite !length_fmap.
  - rewrite list_lookup_fmap, Hi. simpl. f_equal. lia.
Qed.

Lemma loss_rejects_label_beyond_vocabulary_witness :
  ({[ 0%nat := [1; 3] ]} : torch.heap) !! torch.storage Toy.labels = Some [1; 3] ∧
  shapes_ok Toy.logits Toy.labels [1; 3] ∧
  [1; 3] !! 1%nat = Some 3 ∧
  Z.of_nat (torch.vocab Toy.logits) ≤ 3 ∧
  (label_smoothed_loss Toy.logits Toy.labels (1 / 10) {[ 0%nat := [1; 3] ]}).1 =
    Raise (RuntimeError "index out of bounds").
Proof.
  assert (Hids : ({[ 0%nat := [1; 3] ]} : torch.heap)
                   !! torch.storage Toy.labels = Some [1; 3]) by done.
  assert (Hshapes : shapes_ok Toy.logits Toy.labels [1; 3]).
  { split; [by left|]. split; [done|]. split; [done|]. split; [|simpl; lia].
    by repeat constructor. }
  assert (Hi : [1; 3] !! 1%nat = Some 3) by done.
  assert (Hl : Z.of_nat (torch.vocab Toy.logits) ≤ 3) by (simpl; lia).
  split; [exact Hids|]. split; [exact Hshapes|]. split; [exact Hi|].
  split; [exact Hl|].
  by rewrite (loss_rejects_label_beyond_vocabulary Toy.logits Toy.labels
                (1 / 10) _ _ _ _ Hids Hshapes Hi Hl).
Defined.

(** ** The endpoint *)

Lemma generate_q_single_highlight_found (self : T5.t) (text h : string)
    (num_beams : Z) fs qs fs' :
  T5.generate_q self [text] (Some [h]) false false None num_beams None fs
    = (Ok qs, fs') →
  Str.substring_of h text.
Proof.
  intros Hq. unfold T5.generate_q in Hq.
  apply generate_prediction_inv in Hq as (loader & Hl & _).
  assert (Hargs : args_ok self [text] None
            ((λ l : list string, Some <$> l) <$> Some [h]) (Some qg)).
  { split; [done|]. split; [by intros l [= <-] | eauto]. }
  rewrite get_data_loader_args_ok in Hl by done.
  destruct (Str.contains text h) eqn:Hc; [by apply contains_spec|].
  exfalso.
  assert (Hn : ¬ Str.substring_of h text)
    by (intros Hs%contains_spec; congruence).
  unfold T5.encode_and_cache in Hl.
  cbv beta iota zeta delta [bind ret lift] in Hl.
  cbn [loader_data fmap option_fmap option_map list_fmap zip zip_with] in Hl.
  rewrite for_each_cons in Hl.
  change (EncodePlus.call ?f (text, None, Some h))
    with (EncodePlus.encode_plus f text None (Some h)) in Hl.
  rewrite encode_plus_missing in Hl by done. done.
Qed.

Lemma process_read_only (qg_model : T5.t) (model_input : app.ModelInput)
    (fs : FS) :
  (app.process qg_model model_input fs).2 = fs.
Proof.
  unfold app.process. case_bool_decide; [done|].
  assert (Hattempt : (app.attempt qg_model model_input fs).2 = fs).
  { unfold app.attempt.
    pose proof (read_only_generate_qa qg_model (app.input_text model_input)
                  false false None (app.num_beam model_input) fs) as Hqa.
    destruct (app.highlight model_input) as [h|].
    - case_bool_decide.
      + destruct (T5.generate_qa _ _ _ _ _ _ _ fs) as [[?|?] ?]; by simpl in *.
      + pose proof (read_only_generate_q qg_model [app.input_text model_input]
                      (Some [h]) false false None (app.num_beam model_input) fs)
          as Hq.
        destruct (T5.generate_q _ _ _ _ _ _ _ _ fs) as [[[|? ?]|?] ?];
          by simpl in *.
    - destruct (T5.generate_qa _ _ _ _ _ _ _ fs) as [[?|?] ?]; by simpl in *. }
  by destruct (app.attempt qg_model model_input fs) as [[qa|] fs1].
Qed.

(** X19. The endpoint answers an empty input text with the error 404
    ['Input text is empty string.'] without calling the model; it answers
    every exception of the pipeline with the error 404; and it never writes
    to the file system. *)
Theorem process_errors_are_404 (qg_model : T5.t)
    (model_input : app.ModelInput) (fs : FS) :
  (app.process qg_model model_input fs).2 = fs ∧
  (app.input_text model_input = "" →
   (app.process qg_model model_input fs).1 =
     app.HTTPException 404 (Some "Input text is empty string.")) ∧
  (app.input_text model_input ≠ "" →
   (app.process qg_model model_input fs).1 =
     match (app.attempt qg_model model_input fs).1 with
     | Some qa_list => app.Response qa_list
     | None => app.HTTPException 404 None
     end) ∧
  (∀ status_code detail,
     (app.process qg_model model_input fs).1 =
       app.HTTPException status_code detail → status_code = 404).
Proof.
  assert (Hattempt : (app.attempt qg_model model_input fs).2 = fs).
  { unfold app.attempt.
    pose proof (read_only_generate_qa qg_model (app.input_text model_input)
                  false false None (app.num_beam model_input) fs) as Hqa.
    destruct (app.highlight model_input) as [h|].
    - case_bool_decide.
      + destruct (T5.generate_qa _ _ _ _ _ _ _ fs) as [[?|?] ?]; by simpl in *.
      + pose proof (read_only_generate_q qg_model [app.input_text model_input]
                      (Some [h]) false false None (app.num_beam model_input) fs)
          as Hq.
        destruct (T5.generate_q _ _ _ _ _ _ _ _ fs) as [[[|? ?]|?] ?];
          by simpl in *.
    - destruct (T5.generate_qa _ _ _ _ _ _ _ fs) as [[?|?] ?]; by simpl in *. }
  unfold app.process.
  destruct (app.attempt qg_model model_input fs) as [[qa|] fs1] eqn:Ha;
    simpl in Hattempt; subst fs1.
  all: split; [by case_bool_decide|].
  all: split; [intros ->; by rewrite bool_decide_true|].
  all: split;
    [ intros Hne; rewrite bool_decide_false; [done|];
      unfold Str.len; destruct (app.input_text model_input); [done | simpl; lia]
    | intros st d; case_bool_decide; simpl; congruence ].
Qed.

(** X20. Every answer the endpoint returns is a span of the input text:
    when a request ends with a response, the list of pairs is not empty and
    each answer is a non-empty substring of [input_text]; with a non-empty
    [highlight] in the request, the response is a single pair whose answer
    is that highlight. *)
Theorem process_answers_occur_in_input (qg_model : T5.t)
    (model_input : app.ModelInput) (fs fs' : FS) (qa : list (string * string)) :
  app.process qg_model model_input fs = (app.Response qa, fs') →
  qa ≠ [] ∧
  (∀ q a, (q, a) ∈ qa →
          a ≠ "" ∧ Str.substring_of a (app.input_text model_input)) ∧
  (∀ h, app.highlight model_input = Some h → h ≠ "" → ∃ q, qa = [(q, h)]).
Proof.
  unfold app.process. case_bool_decide; [discriminate|].
  destruct (app.attempt qg_model model_input fs) as [[qa'|] fs1] eqn:Ha;
    [|discriminate].
  intros [= <- <-]. unfold app.attempt in Ha.
  assert (Hqa : ∀ fs2, T5.generate_qa qg_model (app.input_text model_input)
                  false false None (app.num_beam model_input) None fs
                = (Ok qa', fs2) →
          qa' ≠ [] ∧
          ∀ q a, (q, a) ∈ qa' →
                 a ≠ "" ∧ Str.substring_of a (app.input_text model_input)).
  { intros fs2 Hrun.
    apply generate_qa_inv in Hrun as (la & lq & fs3 & Hga & _ & Hlen & ->).
    apply generate_a_inv in Hga as (_ & Hne & outs & _ & Hla). split.
    - destruct la; [done|]. destruct lq; [done|]. done.
    - intros q a Hin. apply elem_of_zip_r in Hin. rewrite Hla in Hin.
      apply list_elem_of_filter in Hin as [Hsub Hin].
      apply list_elem_of_filter in Hin as [Hnon _].
      by apply contains_spec in Hsub. }
  destruct (app.highlight model_input) as [h|] eqn:Hh.
  - case_bool_decide as Hlen.
    + destruct (T5.generate_qa _ _ _ _ _ _ _ fs) as [[qa''|e] fs2] eqn:Hrun;
        [|discriminate].
      injection Ha as <- <-. destruct (Hqa _ eq_refl) as [Hne Hall].
      split; [done|]. split; [done|].
      intros h' [= <-] Hne'. destruct h; [done|]. unfold Str.len in Hlen.
      simpl in Hlen. lia.
    + destruct (T5.generate_q _ _ _ _ _ _ _ _ fs) as [[[|q qs]|e] fs2] eqn:Hrun;
        try discriminate.
      injection Ha as <- <-.
      apply generate_q_single_highlight_found in Hrun.
      split; [done|]. split.
      * intros q' a [[= -> ->]|Hin%elem_of_nil]%elem_of_cons; [|done].
        split; [|done]. intros ->. by apply Hlen.
      * intros h' [= <-] _. by exists q.
  - destruct (T5.generate_qa _ _ _ _ _ _ _ fs) as [[qa''|e] fs2] eqn:Hrun;
      [|discriminate].
    injection Ha as <- <-. destruct (Hqa _ eq_refl) as [Hne Hall].
    split; [done|]. split; [done|]. intros h' [=].
Qed.

Lemma process_answers_occur_in_input_witness :
  app.process (Toy.model " Tokyo " 64 8)
    {| app.input_text := "Tokyo is big."; app.highlight := None;
       app.num_beam := 4 |} Toy.empty_fs
    = (app.Response [(" Tokyo ", "Tokyo")], Toy.empty_fs) ∧
  [(" Tokyo ", "Tokyo")] ≠ [] ∧
  Str.substring_of "Tokyo" "Tokyo is big.".
Proof.
  assert (Hrun : app.process (Toy.model " Tokyo " 64 8)
    {| app.input_text := "Tokyo is big."; app.highlight := None;
       app.num_beam := 4 |} Toy.empty_fs
    = (app.Response [(" Tokyo ", "Tokyo")], Toy.empty_fs))
    by (apply run_eq; [by_evaluation | apply process_read_only]).
  split; [exact Hrun|].
  destruct (process_answers_occur_in_input _ _ _ _ _ Hrun) as (Hne & Hall & _).
  split; [exact Hne|].
  apply (Hall " Tokyo " "Tokyo"). apply elem_of_cons. by left.
Defined.

(** ** Models without prefixes, and padding *)

(** X21. On a model without prefixes (a BART-style model), [generate_a] and
    [generate_qa] raise [AssertionError] at once, and the loader treats the
    task [qg] as no task at all: question generation encodes the contexts
    without any task prefix. *)
Theorem model_without_prefixes (self : T5.t) (fs : FS) :
  T5.no_prefix self = true →
  (∀ context drop_overflow_text skip_overflow_error batch_size num_beams
     cache_path,
     T5.generate_a self context drop_overflow_text skip_overflow_error
       batch_size num_beams cache_path fs = (Raise AssertionError, fs) ∧
     T5.generate_qa self context drop_overflow_text skip_overflow_error
       batch_size num_beams cache_path fs = (Raise AssertionError, fs)) ∧
  (∀ inputs outputs highlights batch_size drop_last cache_path
     drop_overflow_text skip_overflow_error skip_highlight_error,
     T5.get_data_loader self inputs outputs highlights (Some qg) batch_size
       drop_last cache_path drop_overflow_text skip_overflow_error
       skip_highlight_error fs =
     T5.get_data_loader self inputs outputs highlights None batch_size
       drop_last cache_path drop_overflow_text skip_overflow_error
       skip_highlight_error fs).
Proof.
  intros Hnp. split.
  - intros. assert (Ha : T5.generate_a self context drop_overflow_text
                      skip_overflow_error batch_size num_beams cache_path fs
                    = (Raise AssertionError, fs)).
    { unfold T5.generate_a. unfold bind at 1. by rewrite Hnp. }
    split; [exact Ha|]. unfold T5.generate_qa. unfold bind at 1. by rewrite Ha.
  - intros. unfold T5.get_data_loader. rewrite Hnp. unfold_M.
    rewrite bool_decide_true by eauto. rewrite decide_True by done.
    rewrite bool_decide_false by (by intros [? ?]). done.
Qed.

Lemma model_without_prefixes_witness :
  T5.no_prefix (Toy.model_without_prefix "Who?" 64 8) = true ∧
  ∃ e,
    T5.get_data_loader (Toy.model_without_prefix "Who?" 64 8)
      ["Tokyo is big."] None (Some [Some "Tokyo"]) (Some qg) None false None
      false false false Toy.empty_fs = (Ok [[e]], Toy.empty_fs) ∧
    Toy.text <$> (e !! "input_ids") = Some "<hl> Tokyo <hl> is big.".
Proof.
  split; [done|].
  rewrite (proj2 (model_without_prefixes (Toy.model_without_prefix "Who?" 64 8)
                    Toy.empty_fs eq_refl)).
  exists (Toy.unpadded "<hl> Tokyo <hl> is big." 64 8).
  split; [|by_evaluation].
  apply run_eq; [by_evaluation | apply read_only_get_data_loader].
Defined.

Lemma encode_plus_Some_inv (f : EncodePlus.t) i o h e :
  EncodePlus.encode_plus f i o h = Ok (Some e) →
  ∃ text, e = EncodePlus.tokenize f text o.
Proof.
  unfold EncodePlus.encode_plus, EncodePlus.check_and_tokenize. intros Hr.
  repeat match type of Hr with
         | context [match ?x with _ => _ end] => destruct x
         end; try discriminate; injection Hr as <-; eauto.
Qed.

Lemma for_each_elem {A B} (f : A → result B) l ys y :
  for_each f l = Ok ys → y ∈ ys → ∃ x, x ∈ l ∧ f x = Ok y.
Proof.
  revert ys. induction l as [|x l IH]; intros ys; simpl.
  - intros [= <-] Hy. by apply elem_of_nil in Hy.
  - destruct (f x) as [y'|] eqn:Hx; [|done].
    destruct (for_each f l) as [ys'|]; [|done].
    intros [= <-] [->|Hy]%elem_of_cons.
    + exists x. split; [apply elem_of_cons; by left | done].
    + destruct (IH ys' eq_refl Hy) as (x' & Hin & Hfx).
      exists x'. split; [apply elem_of_cons; by right | done].
Qed.

Lemma filter_None_elem {A} `{Truth A} (l : list (option A)) a :
  a ∈ filter_None l → Some a ∈ l.
Proof.
  induction l as [|o l IH]; [by intros ?%elem_of_nil|].
  rewrite filter_None_cons, elem_of_cons.
  destruct o as [a'|]; [destruct (truth a')|]; rewrite ?elem_of_cons;
    intros Ha; try (destruct Ha as [->|Ha]); auto.
Qed.

Lemma loader_data_length inputs outputs highlights (self : T5.t) task_prefix :
  args_ok self inputs outputs highlights task_prefix →
  length (loader_data inputs outputs highlights) = length inputs.
Proof.
  intros (Ho & Hh & _). unfold loader_data.
  destruct outputs as [os|], highlights as [hs|];
    rewrite ?length_zip, ?length_fmap, ?length_zip, ?length_fmap;
    try specialize (Ho _ eq_refl); try specialize (Hh _ eq_refl); lia.
Qed.

Lemma elem_of_concat {A} (ls : list (list A)) l (x : A) :
  l ∈ ls → x ∈ l → x ∈ concat ls.
Proof.
  induction ls as [|l' ls IH]; [by intros ?%elem_of_nil|].
  intros [->|Hl]%elem_of_cons Hx; cbn [concat]; apply elem_of_app; auto.
Qed.

Lemma DataLoader_elem dataset batch_size drop_last batches b (e : Encoded) :
  DataLoader dataset batch_size drop_last = Ok batches →
  b ∈ batches → e ∈ b → e ∈ dataset.
Proof.
  unfold DataLoader. case_bool_decide; [done|]. intros [= <-] Hb He.
  assert (Hb' : b ∈ chunks (Z.to_nat batch_size) dataset).
  { destruct drop_last; [|done]. by apply list_elem_of_filter in Hb as [_ ?]. }
  rewrite <- (concat_chunks (Z.to_nat batch_size) dataset) by lia.
  by apply (elem_of_concat _ b).
Qed.

Lemma get_data_loader_Ok_args (self : T5.t) inputs outputs highlights
    task_prefix batch_size drop_last cache_path
    (drop_overflow_text skip_overflow_error skip_highlight_error : bool)
    fs fs' batches :
  T5.get_data_loader self inputs outputs highlights task_prefix batch_size
    drop_last cache_path drop_overflow_text skip_overflow_error
    skip_highlight_error fs = (Ok batches, fs') →
  args_ok self inputs outputs highlights task_prefix.
Proof.
  unfold T5.get_data_loader. unfold_M.
  destruct outputs as [os|]; [case_bool_decide as Ho|];
    try discriminate;
    (destruct highlights as [hs|]; [case_bool_decide as Hh|];
     try discriminate);
    (destruct (T5.no_prefix self) eqn:Hnp; simpl;
     [destruct task_prefix as [t|];
      [rewrite bool_decide_true by eauto;
       destruct (decide (Some t = Some qg)) as [[= ->]|Ht]|]|]);
    try discriminate; intros _;
    (split; [|split]); try (by intros l [= <-]); eauto; congruence.
Qed.

(** X22. With a tokenizer that pads to the maximal length, every example
    of every batch of a loader that has encoded two or more inputs has the
    same shape: [max_length] ids, [max_length] mask entries and, when there
    is a target, [max_length_output] labels. *)
Theorem padded_batches_have_one_shape (self : T5.t) (inputs : list string)
    (outputs : option (list string)) (highlights : option (list (option string)))
    (task_prefix : option task) (batch_size : option Z) (drop_last : bool)
    (drop_overflow_text skip_overflow_error skip_highlight_error : bool)
    (fs fs' : FS) (batches : list (list Encoded)) :
  pads_to_max_length (T5.tokenizer self) →
  length inputs ≠ 1%nat →
  T5.get_data_loader self inputs outputs highlights task_prefix batch_size
    drop_last None drop_overflow_text skip_overflow_error
    skip_highlight_error fs = (Ok batches, fs') →
  ∀ b e, b ∈ batches → e ∈ b →
    field_length e "input_ids" (Z.to_nat (T5.max_length self)) ∧
    field_length e "attention_mask" (Z.to_nat (T5.max_length self)) ∧
    field_length e "labels" (Z.to_nat (T5.max_length_output self)).
Proof.
  intros Hpad Hlen Hl b e Hb He.
  pose proof (get_data_loader_Ok_args _ _ _ _ _ _ _ _ _ _ _ _ _ _ Hl) as Hargs.
  rewrite get_data_loader_args_ok in Hl by done.
  pose proof (loader_data_length _ _ _ _ _ Hargs) as Hdata.
  unfold bind, T5.encode_and_cache in Hl.
  cbv beta iota zeta delta [bind ret lift] in Hl.
  destruct (for_each _ (loader_data inputs outputs highlights)) as [l|err]
    eqn:Hfor; [|discriminate].
  injection Hl as Hl _.
  pose proof (DataLoader_elem _ _ _ _ _ _ Hl Hb He) as Hin.
  apply filter_None_elem in Hin.
  destruct (for_each_elem _ _ _ _ Hfor Hin) as ([[i o] h] & _ & Hcall).
  apply encode_plus_Some_inv in Hcall as (text & ->).
  rewrite bool_decide_false in * by lia. cbn [negb] in *.
  unfold field_length, EncodePlus.tokenize, EncodePlus.param_in,
    EncodePlus.param_out, BatchEncoding.
  cbn [EncodePlus.tokenizer EncodePlus.max_length EncodePlus.max_length_output
       EncodePlus.padding].
  destruct (Hpad text (T5.max_length self)) as (H1 & H2 & _).
  repeat split; intros ids Hids; destruct o as [target|];
    repeat (rewrite lookup_insert_ne in Hids by done);
    rewrite ?lookup_insert_eq, ?lookup_empty in Hids;
    try discriminate; injection Hids as <-; try done.
  by destruct (Hpad target (T5.max_length_output self)) as (_ & _ & H3).
Qed.

Lemma Toy_tokenizer_pads : pads_to_max_length Toy.tokenizer.
Proof.
  intros s n.
  assert (Hfit : ∀ ids, length (Toy.fit (Kwargs true (Some n) true) ids)
                        = Z.to_nat n).
  { intros ids. unfold Toy.fit. simpl.
    rewrite length_app, length_replicate, length_take. lia. }
  cbn [Toy.tokenizer tok_encode tok_encode_plus].
  unfold Toy.encode_plus, Toy.encode. cbn [fst snd].
  by rewrite length_fmap, !Hfit.
Qed.

Lemma padded_batches_have_one_shape_witness :
  pads_to_max_length (T5.tokenizer (Toy.model "Who?" 64 16)) ∧
  length ["Tokyo is big."; "Kyoto is old."] ≠ 1%nat ∧
  ∃ e1 e2,
    T5.get_data_loader (Toy.model "Who?" 64 16)
      ["Tokyo is big."; "Kyoto is old."] (Some ["How big?"; "How old?"])
      None (Some qg) None false None false false false Toy.empty_fs
    = (Ok [[e1; e2]], Toy.empty_fs) ∧
    field_length e2 "input_ids" 64 ∧
    field_length e2 "attention_mask" 64 ∧
    field_length e2 "labels" 16.
Proof.
  split; [exact Toy_tokenizer_pads|]. split; [done|].
  exists (EncodePlus.tokenize (Toy.encoder false false false (Some qg) 64 16)
            "generate question: Tokyo is big." (Some "How big?")),
         (EncodePlus.tokenize (Toy.encoder false false false (Some qg) 64 16)
            "generate question: Kyoto is old." (Some "How old?")).
  assert (Hrun : T5.get_data_loader (Toy.model "Who?" 64 16)
      ["Tokyo is big."; "Kyoto is old."] (Some ["How big?"; "How old?"])
      None (Some qg) None false None false false false Toy.empty_fs
    = (Ok [[EncodePlus.tokenize (Toy.encoder false false false (Some qg) 64 16)
              "generate question: Tokyo is big." (Some "How big?");
            EncodePlus.tokenize (Toy.encoder false false false (Some qg) 64 16)
              "generate question: Kyoto is old." (Some "How old?")]],
       Toy.empty_fs))
    by (apply run_eq; [by_evaluation | apply read_only_get_data_loader]).
  split; [exact Hrun|].
  eapply (padded_batches_have_one_shape (Toy.model "Who?" 64 16)
            ["Tokyo is big."; "Kyoto is old."] (Some ["How big?"; "How old?"])
            None (Some qg) None false false false false Toy.empty_fs
            Toy.empty_fs _ Toy_tokenizer_pads).
  - done.
  - exact Hrun.
  - apply elem_of_cons. left. reflexivity.
  - apply elem_of_cons. right. apply elem_of_cons. left. reflexivity.
Defined.
